(** * edg_acoustics.mesh: element connectivity and mesh equality

  A shallow embedding of [src/edg_acoustics/mesh.py].

  - [PyHash]: the builtin [hash] on ints and on tuples of ints
    (CPython 3.8 or later, 64-bit), which the connectivity code uses
    as the match key of a face.
  - [Numpy]: the array operations the connectivity code calls
    ([vstack], [ndarray.sort], [apply_along_axis], [argsort], indexing
    with index arrays, [where], [unravel_index], indexed assignment),
    with their failure cases. [numpy.argsort] is a parameter of the
    model: the theorems hold for every function that returns a
    sorting rearrangement, whatever it does with equal keys.
  - [Connectivity]: [Mesh.__compute_element_connectivity] as a
    function from the array of tetrahedra to the two tables.
  - [HeapModel]: the same method as a program over a store of array
    objects, in which [ndarray.sort] and indexed assignment change the
    object they are called on.
  - [MeshStore]: [Mesh.__init_from_file] on the data the loader
    delivers, [Mesh.__eq__] and [Mesh.EToV]. *)

From Stdlib Require Import ZArith Lia.
From Stdlib Require Import Floats.SpecFloat.
From stdpp Require Import base option list sorting strings numbers.

(* ===================================================================== *)
(** * Definitions *)
(* ===================================================================== *)

(** ** The builtin [hash] *)

Module PyHash.
Local Open Scope Z_scope.

(** [Py_uhash_t] and [Py_hash_t] are 64 bits wide. *)
Definition u64 (x : Z) : Z := x mod 2 ^ 64.
Definition i64 (x : Z) : Z := if x <? 2 ^ 63 then x else x - 2 ^ 64.

(** [hash(n)] for an int: reduction modulo the Mersenne prime
    [2^61 - 1], keeping the sign; [-1] is reserved and becomes [-2].
    A [numpy.int64] scalar hashes as the int of the same value. *)
Definition PyHASH_MODULUS : Z := 2 ^ 61 - 1.

Definition long_hash (n : Z) : Z :=
  let h := Z.sgn n * (Z.abs n mod PyHASH_MODULUS) in
  if h =? -1 then -2 else h.

(** [hash(t)] for a tuple: the xxHash-style accumulator of
    [Objects/tupleobject.c]. *)
Definition PyHASH_XXPRIME_1 : Z := 11400714785074694791.
Definition PyHASH_XXPRIME_2 : Z := 14029467366897019727.
Definition PyHASH_XXPRIME_5 : Z := 2870177450012600261.

Definition PyHASH_XXROTATE (x : Z) : Z :=
  u64 (Z.lor (Z.shiftl x 31) (Z.shiftr x 33)).

Definition lane_step (acc item : Z) : Z :=
  let lane := u64 (long_hash item) in
  let acc := u64 (acc + lane * PyHASH_XXPRIME_2) in
  let acc := PyHASH_XXROTATE acc in
  u64 (acc * PyHASH_XXPRIME_1).

Definition tuplehash (items : list Z) : Z :=
  let acc := fold_left lane_step items PyHASH_XXPRIME_5 in
  let len := Z.of_nat (length items) in
  let acc := u64 (acc + Z.lxor len (Z.lxor PyHASH_XXPRIME_5 3527539)) in
  if acc =? 2 ^ 64 - 1 then 1546275796 else i64 acc.
End PyHash.

(** ** Arrays *)

(** A tetrahedron is a row of the (N, 4) array [tets]; a face is a row
  of the (4N, 3) array [face_vertices]. *)
Definition tet : Type := Z * Z * Z * Z.
Definition face : Type := Z * Z * Z.

(** A two-dimensional integer array in C order: [A[i, j]] is
  [data !! (i * ncols + j)]. *)
Record ndarray := NdArray { shape : nat * nat; data : list nat }.

Module Numpy.

(** [tets[:, [i, j, k]]] for the four column selections of the source. *)
Definition cols012 (t : tet) : face := let '(v0, v1, v2, v3) := t in (v0, v1, v2).
Definition cols013 (t : tet) : face := let '(v0, v1, v2, v3) := t in (v0, v1, v3).
Definition cols123 (t : tet) : face := let '(v0, v1, v2, v3) := t in (v1, v2, v3).
Definition cols023 (t : tet) : face := let '(v0, v1, v2, v3) := t in (v0, v2, v3).

Definition vstack {A} (blocks : list (list A)) : list A := mjoin blocks.

(** [a.sort(axis=-1)] on one row of three. *)
Definition sort_row (r : face) : face :=
  let '(a, b, c) := r in
  if (a <=? b)%Z then
    if (b <=? c)%Z then (a, b, c)
    else if (a <=? c)%Z then (a, c, b) else (c, a, b)
  else
    if (a <=? c)%Z then (b, a, c)
    else if (b <=? c)%Z then (b, c, a) else (c, b, a).

(** [numpy.apply_along_axis(f, 1, a)]: raises [ValueError] when there
    is no row to apply [f] to. *)
Definition apply_along_axis {A B} (f : A → B) (a : list A) : option (list B) :=
  match a with
  | [] => None
  | _ => Some (f <$> a)
  end.

(** [a[idx]] with an integer index array: [IndexError] out of range. *)
Definition fancy {A} (a : list A) (idx : list nat) : option (list A) :=
  mapM (λ i, a !! i) idx.

(** [numpy.where(a == b)] flattened, for two one-dimensional arrays
    of the same length. *)
Definition where_eq (a b : list Z) : list nat :=
  filter (λ i, a !! i = b !! i) (seq 0 (length a)).

(** [a[0:-1]] and [a[1:]]. *)
Definition but_last {A} (a : list A) : list A := take (length a - 1) a.
Definition from_1 {A} (a : list A) : list A := drop 1 a.

(** [numpy.arange(0, n).reshape([1, -1]).repeat(repeats=r, axis=0)]. *)
Definition arange_rows (r n : nat) : ndarray :=
  NdArray (r, n) (mjoin (replicate r (seq 0 n))).

(** [numpy.arange(0, r).repeat(repeats=n, axis=0).reshape([-1, n])]:
    [reshape] cannot infer [-1] when [n = 0] and raises [ValueError]. *)
Definition arange_repeat (r n : nat) : option ndarray :=
  let flat := seq 0 r ≫= replicate n in
  if decide (n = 0) then None
  else Some (NdArray (length flat / n, n) flat).

(** [numpy.unravel_index(s, shape)]: [ValueError] when [s] is not an
    index of an array of that shape. *)
Definition unravel_index (sh : nat * nat) (s : nat) : option (nat * nat) :=
  if decide (s < sh.1 * sh.2) then Some (s / sh.2, s mod sh.2) else None.

(** [A[i, j]] and [A[i, j] = v]. *)
Definition in_bounds (A : ndarray) (ix : nat * nat) : Prop :=
  ix.1 < (shape A).1 ∧ ix.2 < (shape A).2.

Definition offset (A : ndarray) (ix : nat * nat) : nat :=
  ix.1 * (shape A).2 + ix.2.

Definition getitem (A : ndarray) (ix : nat * nat) : option nat :=
  if decide (in_bounds A ix) then data A !! offset A ix else None.

Definition setitem (A : ndarray) (ix : nat * nat) (v : nat) : option ndarray :=
  if decide (in_bounds A ix)
  then Some (NdArray (shape A) (<[offset A ix := v]> (data A)))
  else None.

(** [A[ixs]] reads a copy of the selected entries. *)
Definition getitems (A : ndarray) (ixs : list (nat * nat)) : option (list nat) :=
  mapM (getitem A) ixs.

(** [A[ixs] = vs]: the entries are stored one after the other in the
    order of the index array, so a position that is named twice keeps
    the value stored last. *)
Fixpoint setitems (A : ndarray) (ixs : list (nat * nat)) (vs : list nat)
  : option ndarray :=
  match ixs, vs with
  | [], [] => Some A
  | ix :: ixs, v :: vs => A' ← setitem A ix v; setitems A' ixs vs
  | _, _ => None
  end.

(** [A.tolist()]. *)
Definition tolist (A : ndarray) : list (list nat) :=
  (λ i, take (shape A).2 (drop (i * (shape A).2) (data A))) <$> seq 0 (shape A).1.

(** What [numpy.argsort] guarantees of its result for any [kind]: it
    is a rearrangement of all positions of [keys] that puts the keys
    in non-decreasing order. The default [kind] is not stable, so the
    order of positions with equal keys is left open. *)
Definition is_argsort (keys : list Z) (order : list nat) : Prop :=
  order ≡ₚ seq 0 (length keys) ∧
  Sorted Z.le ((λ i, default 0%Z (keys !! i)) <$> order).

(** One such function: merge sort of the positions by their keys. *)
Definition key_le (keys : list Z) (i j : nat) : Prop :=
  (default 0 (keys !! i) ≤ default 0 (keys !! j))%Z.

#[global] Instance key_le_dec keys i j : Decision (key_le keys i j).
Proof. unfold key_le. apply _. Defined.

Definition merge_argsort (keys : list Z) : list nat :=
  merge_sort (key_le keys) (seq 0 (length keys)).

End Numpy.

(** ** [Mesh.__compute_element_connectivity] *)

Module Connectivity.
Import Numpy.

Section Builder.
(** [hash_tuple r] is [hash(tuple(r))] for a row [r] of
    [face_vertices]; [argsort] is [numpy.argsort]. *)
Variable hash_tuple : face → Z.
Variable argsort : list Z → list nat.

Definition sorted_face_vertices (tets : list tet) : list face :=
  sort_row <$>
    vstack [cols012 <$> tets; cols013 <$> tets; cols123 <$> tets; cols023 <$> tets].

Definition __compute_element_connectivity (tets : list tet)
  : option (ndarray * ndarray) :=
  let N_faces_per_tet := 4 in
  let N_tets := length tets in
  let face_vertices := sorted_face_vertices tets in
  let face_vertices_idx := seq 0 (N_tets * N_faces_per_tet) in
  let EToE := arange_rows N_faces_per_tet N_tets in
  EToF ← arange_repeat 4 N_tets;
  face_ids ← apply_along_axis hash_tuple face_vertices;
  let face_ids_sort_indices := argsort face_ids in
  face_ids ← fancy face_ids face_ids_sort_indices;
  face_vertices ← fancy face_vertices face_ids_sort_indices;
  face_vertices_idx ← fancy face_vertices_idx face_ids_sort_indices;
  let interior_face_id_idx := where_eq (but_last face_ids) (from_1 face_ids) in
  interior_L_face_vertices_idx ← fancy face_vertices_idx interior_face_id_idx;
  interior_R_face_vertices_idx ←
    fancy face_vertices_idx ((λ i, i + 1) <$> interior_face_id_idx);
  (* Construct EToE; the right-hand side is evaluated first and is
     a copy of the selected entries. *)
  rhs ← mapM (unravel_index (shape EToE))
             (interior_R_face_vertices_idx ++ interior_L_face_vertices_idx);
  values ← getitems EToE rhs;
  lhs ← mapM (unravel_index (shape EToE))
             (interior_L_face_vertices_idx ++ interior_R_face_vertices_idx);
  EToE ← setitems EToE lhs values;
  (* Construct EToF: the index arrays are stacked to shape (2, K);
     in C order that is the same sequence as above. *)
  rhs ← mapM (unravel_index (shape EToF))
             (vstack [interior_R_face_vertices_idx; interior_L_face_vertices_idx]);
  values ← getitems EToF rhs;
  lhs ← mapM (unravel_index (shape EToF))
             (vstack [interior_L_face_vertices_idx; interior_R_face_vertices_idx]);
  EToF ← setitems EToF lhs values;
  Some (EToE, EToF).
End Builder.

(** The match key of every face slot, in slot order
    ([slot = local_face * N_tets + element]). *)
Definition face_keys (hash_tuple : face → Z) (tets : list tet) : list Z :=
  hash_tuple <$> sorted_face_vertices tets.

(** The code's match key: [hash(tuple(x))] of a sorted row. *)
Definition py_hash_tuple (r : face) : Z :=
  let '(a, b, c) := r in PyHash.tuplehash [a; b; c].

(** [EToE[f, e]] and [EToF[f, e]] of a result. *)
Definition at_ (A : ndarray) (f e : nat) : option nat := getitem A (f, e).

End Connectivity.

(** ** Vocabulary of the connectivity theorems *)

Module ConnSpec.
Import Numpy Connectivity.

(** Sequential stores into a flat buffer: [d[T[j]] = vs[j]] for
    [j = 0, 1, ...]. *)
Fixpoint scatter {V} (T : list nat) (vs : list V) (d : list V) : list V :=
  match T, vs with
  | t :: T, v :: vs => scatter T vs (<[t := v]> d)
  | _, _ => d
  end.

(** Positions of the sorted key sequence whose successor holds an
    equal key, and the face slots found there. *)
Definition key_at (keys : list Z) (s : nat) : Z := default 0%Z (keys !! s).

Definition matched_positions (keys : list Z) (order : list nat) : list nat :=
  filter (λ i, (key_at keys <$> order) !! i = (key_at keys <$> order) !! (i + 1))
         (seq 0 (length order - 1)).

Definition left_slots (keys : list Z) (order : list nat) : list nat :=
  (λ i, default 0 (order !! i)) <$> matched_positions keys order.
Definition right_slots (keys : list Z) (order : list nat) : list nat :=
  (λ i, default 0 (order !! (i + 1))) <$> matched_positions keys order.

(** The slot each face slot ends up referring to. *)
Definition pairing (keys : list Z) (order : list nat) : list nat :=
  scatter (left_slots keys order ++ right_slots keys order)
          (right_slots keys order ++ left_slots keys order)
          (seq 0 (length keys)).

(** The linear index of local face [f] of element [e] in a (4, N)
    table. *)
Definition slot (N f e : nat) : nat := f * N + e.

(** The other slots that carry the key of slot [s]. *)
Definition candidates {K} `{EqDecision K} (keys : list K) (s : nat) : list nat :=
  filter (λ s', s' ≠ s ∧ keys !! s' = keys !! s) (seq 0 (length keys)).

(** A slot whose key no other slot carries. *)
Definition unmatched {K} (keys : list K) (s : nat) : Prop :=
  ∀ s', keys !! s' = keys !! s → s' = s.

(** No key is carried by more than two slots. *)
Definition pairs_only {K} `{EqDecision K} (keys : list K) : Prop :=
  Forall (λ s, length (candidates keys s) ≤ 1) (seq 0 (length keys)).

Definition mate {K} `{EqDecision K} (keys : list K) (s : nat) : nat :=
  match candidates keys s with
  | [] => s
  | s' :: _ => s'
  end.

(** Two rows of [face_vertices] name the same three vertices. *)
Definition same_vertices (r r' : face) : Prop :=
  let '(a, b, c) := r in let '(a', b', c') := r' in
  [a; b; c] ≡ₚ [a'; b'; c'].

(** Neighbour symmetry of a pair of tables for [N] elements. *)
Definition symmetric (N : nat) (EToE EToF : ndarray) : Prop :=
  ∀ e f e2 f2, e < N → f < 4 →
    at_ EToE f e = Some e2 → at_ EToF f e = Some f2 → e2 ≠ e →
    at_ EToE f2 e2 = Some e ∧ at_ EToF f2 e2 = Some f.

(** Replacing every vertex index [v] by [p v]. *)
Definition relabel (p : Z → Z) (tets : list tet) : list tet :=
  (λ t, let '(v0, v1, v2, v3) := t in (p v0, p v1, p v2, p v3)) <$> tets.

Definition relabel_face (p : Z → Z) (r : face) : face :=
  let '(a, b, c) := r in (p a, p b, p c).

End ConnSpec.


(** ** The builder over a store of array objects

  Arrays are objects in a store; a variable holds a reference.
  Advanced indexing, [vstack], [arange], [repeat], [argsort] and
  [where] return new objects; [ndarray.sort] and indexed assignment
  change the object they are called on. Every named array of the
  source is an object here; unnamed temporaries, which nothing can
  reach after the statement that makes them, are values. *)

Module HeapModel.
Import Numpy.

Inductive pyobj :=
| OTets (rows : list tet)      (* an (N, 4) integer array *)
| OFaces (rows : list face)    (* an (M, 3) integer array *)
| OInts (xs : list Z)          (* a one-dimensional integer array *)
| OIdx (xs : list nat)         (* a one-dimensional index array *)
| OGrid (A : ndarray).         (* a two-dimensional index table *)

(** A reference is a position in the store. *)
Abbreviation loc := nat.
Abbreviation heap := (list pyobj).

(** Computations read and change the store and may raise. *)
Definition M (A : Type) : Type := heap → option (A * heap).

#[global] Instance M_ret : MRet M := λ A a h, Some (a, h).
#[global] Instance M_bind : MBind M := λ A B k m h,
  match m h with
  | Some (a, h') => k a h'
  | None => None
  end.

Definition raise {A} : M A := λ _, None.

Definition lift {A} (o : option A) : M A := λ h,
  match o with
  | Some a => Some (a, h)
  | None => None
  end.

Definition alloc (o : pyobj) : M loc := λ h, Some (length h, h ++ [o]).

Definition load (l : loc) : M pyobj := λ h,
  match h !! l with
  | Some o => Some (o, h)
  | None => None
  end.

Definition store (l : loc) (o : pyobj) : M unit := λ h,
  if decide (l < length h) then Some ((), <[l := o]> h) else None.

Definition load_tets (l : loc) : M (list tet) :=
  o ← load l; match o with OTets t => mret t | _ => raise end.
Definition load_faces (l : loc) : M (list face) :=
  o ← load l; match o with OFaces r => mret r | _ => raise end.
Definition load_ints (l : loc) : M (list Z) :=
  o ← load l; match o with OInts xs => mret xs | _ => raise end.
Definition load_idx (l : loc) : M (list nat) :=
  o ← load l; match o with OIdx xs => mret xs | _ => raise end.
Definition load_grid (l : loc) : M ndarray :=
  o ← load l; match o with OGrid A => mret A | _ => raise end.

(** [a.sort(axis=-1)]: sorts the rows of the object itself. *)
Definition sort_last_axis (a : loc) : M unit :=
  rows ← load_faces a; store a (OFaces (sort_row <$> rows)).

(** [a[idx]] for an index array [idx]: a new object. *)
Definition index_ints (a idx : loc) : M loc :=
  xs ← load_ints a; i ← load_idx idx; r ← lift (fancy xs i); alloc (OInts r).
Definition index_faces (a idx : loc) : M loc :=
  xs ← load_faces a; i ← load_idx idx; r ← lift (fancy xs i); alloc (OFaces r).
Definition index_idx (a idx : loc) : M loc :=
  xs ← load_idx a; i ← load_idx idx; r ← lift (fancy xs i); alloc (OIdx r).

(** [A[unravel_index(lhs, A.shape)] = A[unravel_index(rhs, A.shape)]]:
    the right-hand side is read first, into a copy; the stores then
    go to the object [A] itself. *)
Definition assign_from (A : loc) (lhs rhs : list nat) : M unit :=
  a ← load_grid A;
  rhs ← lift (mapM (unravel_index (shape a)) rhs);
  values ← lift (getitems a rhs);
  a ← load_grid A;
  lhs ← lift (mapM (unravel_index (shape a)) lhs);
  a' ← lift (setitems a lhs values);
  store A (OGrid a').

Section Builder.
Variable hash_tuple : face → Z.
Variable argsort : list Z → list nat.

Definition __compute_element_connectivity (tets : loc) : M (loc * loc) :=
  t ← load_tets tets;
  let N_faces_per_tet := 4 in
  let N_tets := length t in
  face_vertices ←
    alloc (OFaces (vstack [cols012 <$> t; cols013 <$> t;
                           cols123 <$> t; cols023 <$> t]));
  _ ← sort_last_axis face_vertices;
  face_vertices_idx ← alloc (OIdx (seq 0 (N_tets * N_faces_per_tet)));
  EToE ← alloc (OGrid (arange_rows N_faces_per_tet N_tets));
  EToF ← (A ← lift (arange_repeat 4 N_tets); alloc (OGrid A));
  face_ids ←
    (rows ← load_faces face_vertices;
     ids ← lift (apply_along_axis hash_tuple rows);
     alloc (OInts ids));
  face_ids_sort_indices ←
    (ids ← load_ints face_ids; alloc (OIdx (argsort ids)));
  face_ids ← index_ints face_ids face_ids_sort_indices;
  face_vertices ← index_faces face_vertices face_ids_sort_indices;
  face_vertices_idx ← index_idx face_vertices_idx face_ids_sort_indices;
  interior_face_id_idx ←
    (ids ← load_ints face_ids;
     alloc (OIdx (where_eq (but_last ids) (from_1 ids))));
  interior_L_face_vertices_idx ←
    index_idx face_vertices_idx interior_face_id_idx;
  interior_R_face_vertices_idx ←
    (xs ← load_idx face_vertices_idx;
     i ← load_idx interior_face_id_idx;
     r ← lift (fancy xs ((λ i, i + 1) <$> i));
     alloc (OIdx r));
  L ← load_idx interior_L_face_vertices_idx;
  R ← load_idx interior_R_face_vertices_idx;
  _ ← assign_from EToE (L ++ R) (R ++ L);
  _ ← assign_from EToF (vstack [L; R]) (vstack [R; L]);
  mret (EToE, EToF).

(** The part of [Mesh.__init_from_file] that stores the
    tetrahedra and their connectivity: [self.tets] is the loader's
    array object itself, and [Mesh.EToV] returns that reference. *)
Record mesh_obj := MeshObj { m_tets : loc; m_EToE : loc; m_EToF : loc }.

Definition attach_connectivity (tetra : loc) : M mesh_obj :=
  let self_tets := tetra in
  '(EToE, EToF) ← __compute_element_connectivity self_tets;
  mret (MeshObj self_tets EToE EToF).

Definition EToV (self : mesh_obj) : loc := m_tets self.
End Builder.
End HeapModel.

(** ** [Mesh]: construction, equality and [EToV] *)

Module MeshStore.
Import Numpy.

(** *** Exceptions *)

Inductive exn :=
| KeyError
| IndexError
| ValueError_BC_labels   (* the [raise ValueError] of [__init_from_file] *)
| ValueError_numpy.      (* a [ValueError] raised inside numpy *)

Inductive result (A : Type) :=
| Ok (a : A)
| Raise (e : exn).
Arguments Ok {A} a.
Arguments Raise {A} e.

#[global] Instance result_ret : MRet result := λ A a, Ok a.
#[global] Instance result_bind : MBind result := λ A B k m,
  match m with
  | Ok a => k a
  | Raise e => Raise e
  end.

(** *** Dictionaries with string keys, in insertion order *)

Abbreviation dict V := (list (string * V)).

Fixpoint dict_get {V} (k : string) (d : dict V) : option V :=
  match d with
  | [] => None
  | (k', v) :: d => if decide (k' = k) then Some v else dict_get k d
  end.

(** [d[k] = v]: replaces the value of an existing key, else appends. *)
Fixpoint dict_set {V} (k : string) (v : V) (d : dict V) : dict V :=
  match d with
  | [] => [(k, v)]
  | (k', v') :: d =>
      if decide (k' = k) then (k, v) :: d else (k', v') :: dict_set k v d
  end.

Definition dict_keys {V} (d : dict V) : list string := fst <$> d.
Definition dict_values {V} (d : dict V) : list V := snd <$> d.

(** [d[k]] raises [KeyError] for an absent key. *)
Definition subscript {V} (d : dict V) (k : string) : result V :=
  match dict_get k d with
  | Some v => Ok v
  | None => Raise KeyError
  end.

(** [a == b] on dicts: the same number of keys, and every key of [a]
    is a key of [b] with an equal value. *)
Definition dict_equal {V} (eqb : V → V → bool) (a b : dict V) : bool :=
  bool_decide (length a = length b) &&
  forallb (λ kv, match dict_get kv.1 b with
                 | Some w => eqb kv.2 w
                 | None => false
                 end) a.

(** *** Arrays of the mesh *)

(** The coordinates are a two-dimensional array of IEEE doubles. *)
Record farray := FArray { fshape : nat * nat; fdata : list spec_float }.

Fixpoint all_equal_float (a b : list spec_float) : bool :=
  match a, b with
  | [], [] => true
  | x :: a, y :: b => SFeqb x y && all_equal_float a b
  | _, _ => false
  end.

(** [numpy.array_equal]: the same shape and [==] on every pair of
    entries; a NaN is not [==] to itself. *)
Definition array_equal_float (a b : farray) : bool :=
  bool_decide (fshape a = fshape b) && all_equal_float (fdata a) (fdata b).

(** For integer arrays of a fixed row width [==] is equality. *)
Definition array_equal {A} `{EqDecision A} (a b : list A) : bool :=
  bool_decide (a = b).

(** [sorted(xs)] and [numpy.unique(xs)] on integers. *)
Definition sorted (xs : list Z) : list Z := merge_sort Z.le xs.
Definition unique (xs : list Z) : list Z := merge_sort Z.le (remove_dups xs).

(** [a[mask]] with a boolean array: [IndexError] when the lengths
    differ. *)
Definition mask_select {A} (a : list A) (mask : list bool) : result (list A) :=
  if decide (length a = length mask)
  then Ok ((λ p, p.1) <$> filter (λ p, p.2 = true) (zip a mask))
  else Raise IndexError.

(** [mask.sum()]. *)
Definition count_true (mask : list bool) : nat :=
  length (filter (λ b, b = true) mask).

(** What [meshio.read] delivers, as far as the module reads it:
    [points], [cell_data_dict['gmsh:physical']['triangle']],
    [cells_dict['triangle']] and [cells_dict['tetra']]; a key that
    is absent from a dict is [None]. *)
Record mesh_data := MeshData {
  points : farray;
  physical_triangle : option (list Z);
  cells_triangle : option (list face);
  cells_tetra : option (list tet)
}.

Definition key_lookup {A} (o : option A) : result A :=
  match o with
  | Some a => Ok a
  | None => Raise KeyError
  end.

(** *** The class *)

Record Mesh := {
  N_vertices : nat;
  vertices : farray;
  N_BC_triangles : dict nat;
  BC_triangles : dict (list face);
  N_tets : nat;
  tets : list tet;
  EToE : ndarray;
  EToF : ndarray
}.

(** Other Python values that can be compared with a mesh. *)
Inductive pyvalue :=
| VMesh (m : Mesh)
| VNone
| VInt (n : Z)
| VStr (s : string).

Section Init.
Variable hash_tuple : face → Z.
Variable argsort : list Z → list nat.

(** One turn of the loop [for BC_label in BC_labels]. *)
Definition partition_step (md : mesh_data) (BC_labels : dict Z)
    (acc : dict nat * dict (list face)) (BC_label : string)
  : result (dict nat * dict (list face)) :=
  physical ← key_lookup (physical_triangle md);
  code ← subscript BC_labels BC_label;
  let triangles_have_label := (λ c, bool_decide (c = code)) <$> physical in
  let N := dict_set BC_label (count_true triangles_have_label) acc.1 in
  triangles ← key_lookup (cells_triangle md);
  selected ← mask_select triangles triangles_have_label;
  Ok (N, dict_set BC_label selected acc.2).

Fixpoint for_each {S A} (body : S → A → result S) (s : S) (xs : list A)
  : result S :=
  match xs with
  | [] => Ok s
  | x :: xs => s' ← body s x; for_each body s' xs
  end.

Definition __init_from_file (md : mesh_data) (BC_labels : dict Z) : result Mesh :=
  let N_vertices := (fshape (points md)).1 in
  let vertices := points md in
  physical ← key_lookup (physical_triangle md);
  let BC_labels_in_mesh := sorted (unique physical) in
  let BC_labels_in_input := sorted (dict_values BC_labels) in
  if negb (bool_decide (BC_labels_in_input = BC_labels_in_mesh))
  then Raise ValueError_BC_labels
  else
    parts ← for_each (partition_step md BC_labels) ([], []) (dict_keys BC_labels);
    tetra ← key_lookup (cells_tetra md);
    let N_tets := length tetra in
    match Connectivity.__compute_element_connectivity hash_tuple argsort tetra with
    | Some (EToE, EToF) =>
        Ok {| N_vertices := N_vertices; vertices := vertices;
              N_BC_triangles := parts.1; BC_triangles := parts.2;
              N_tets := N_tets; tets := tetra;
              EToE := EToE; EToF := EToF |}
    | None => Raise ValueError_numpy
    end.
End Init.

(** [all(numpy.array_equal(item, other.BC_triangles[key])
         for key, item in self.BC_triangles.items())]: the generator
    is consumed in order and [all] stops at the first false. *)
Fixpoint all_items_equal (items : dict (list face)) (other : dict (list face))
  : result bool :=
  match items with
  | [] => Ok true
  | (key, item) :: items =>
      o ← subscript other key;
      if array_equal item o then all_items_equal items other else Ok false
  end.

Definition __eq__ (self : Mesh) (other : pyvalue) : result bool :=
  match other with
  | VMesh other =>
      if negb (bool_decide (N_vertices self = N_vertices other)) then Ok false
      else if negb (bool_decide (N_tets self = N_tets other)) then Ok false
      else if negb (dict_equal Nat.eqb (N_BC_triangles self) (N_BC_triangles other))
      then Ok false
      else if negb (array_equal_float (vertices self) (vertices other)) then Ok false
      else if negb (array_equal (tets self) (tets other)) then Ok false
      else all_items_equal (BC_triangles self) (BC_triangles other)
  | _ => Ok false
  end.

(** The property [EToV]: the value in [self.tets]. *)
Definition EToV (self : Mesh) : list tet := tets self.

(** A mesh with other adjacency tables, and loader data with one
    coordinate replaced. *)
Definition with_adjacency (m : Mesh) (E F : ndarray) : Mesh :=
  {| N_vertices := N_vertices m; vertices := vertices m;
     N_BC_triangles := N_BC_triangles m; BC_triangles := BC_triangles m;
     N_tets := N_tets m; tets := tets m; EToE := E; EToF := F |}.

Definition with_coordinate (md : mesh_data) (i : nat) (y : spec_float) : mesh_data :=
  {| points := FArray (fshape (points md)) (<[i := y]> (fdata (points md)));
     physical_triangle := physical_triangle md;
     cells_triangle := cells_triangle md;
     cells_tetra := cells_tetra md |}.

End MeshStore.

(** ** Meshes used in the scenarios *)

Module Examples.
Local Open Scope Z_scope.

(** A single tetrahedron, and two tetrahedra sharing the face
    [{1, 2, 3}]. *)
Definition single_tet : list tet := [(0, 1, 2, 3)].
Definition two_tets : list tet := [(0, 1, 2, 3); (1, 2, 3, 4)].

(** Two tetrahedra on either side of the face [{0, 1, 2}], which is
    local face 0 of both. *)
Definition mirrored_tets : list tet := [(0, 1, 2, 3); (0, 1, 2, 4)].

(** [hash((9, 10, 477945)) == hash((13824, 136487, 136488))]: two
    tetrahedra without a common vertex whose faces 0 carry the same
    key, and three tetrahedra of which the first two share the face
    [{9, 10, 477945}] and the third has the colliding face. *)
Definition colliding_pair : list tet :=
  [(9, 10, 477945, 0); (13824, 136487, 136488, 1)].
Definition colliding_triple : list tet :=
  [(9, 10, 477945, 0); (9, 10, 477945, 1); (13824, 136487, 136488, 2)].

(** The renumbering of the vertices that exchanges 8 and 9. *)
Definition swap_8_9 (v : Z) : Z :=
  if v =? 8 then 9 else if v =? 9 then 8 else v.

(** A mesh file with one tetrahedron and its four boundary triangles,
    all tagged with the code 1; the same file with a NaN as the first
    coordinate. *)
Definition f0 : spec_float := S754_zero false.
Definition f1 : spec_float := S754_finite false 4503599627370496 (-52).

Definition unit_tet_points : MeshStore.farray :=
  MeshStore.FArray (4, 3)%nat [f0; f0; f0; f1; f0; f0; f0; f1; f0; f0; f0; f1].

Definition unit_tet_file : MeshStore.mesh_data :=
  MeshStore.MeshData unit_tet_points
    (Some [1; 1; 1; 1])
    (Some [(0, 1, 2); (0, 1, 3); (1, 2, 3); (0, 2, 3)])
    (Some [(0, 1, 2, 3)]).

Definition nan_tet_file : MeshStore.mesh_data :=
  MeshStore.with_coordinate unit_tet_file 0 S754_nan.

(** Label dictionaries: one name for the code 1, and two names for
    it. *)
Definition one_label : list (string * Z) := [("wall"%string, 1)].
End Examples.

(** ** Vocabulary of the theorems on faces and boundary parts *)

Module FaceSpec.
Import Numpy.

(** The vertices of local face [f] of a tetrahedron, by the column
    selections [[0,1,2]], [[0,1,3]], [[1,2,3]], [[0,2,3]] of the
    source. *)
Definition local_face (f : nat) (t : tet) : face :=
  match f with
  | 0 => cols012 t
  | 1 => cols013 t
  | 2 => cols123 t
  | _ => cols023 t
  end.

(** The key function tells the rows of one array apart. *)
Definition collision_free (hash_tuple : face → Z) (rows : list face) : Prop :=
  Forall (λ r, Forall (λ r', hash_tuple r = hash_tuple r' → r = r') rows) rows.

(** A second function that meets the contract of [numpy.argsort]:
    merge sort of the positions taken in descending order. It
    leaves equal keys in another order than [merge_argsort]. *)
Definition merge_argsort_desc (keys : list Z) : list nat :=
  merge_sort (key_le keys) (reverse (seq 0 (length keys))).

End FaceSpec.

Module PartSpec.
Import MeshStore.

(** The number of boundary triangles tagged with [code], and those
    triangles in file order. *)
Definition count_code (code : Z) (physical : list Z) : nat :=
  length (filter (λ c, c = code) physical).

Definition triangles_with_code (code : Z) (triangles : list face)
    (physical : list Z) : list face :=
  (filter (λ p, p.2 = code) (zip triangles physical)).*1.

(** The values of [BC_labels] are pairwise different and are, as a
    set, the codes that tag the triangles. *)
Definition labels_match (labels : dict Z) (physical : list Z) : Prop :=
  NoDup (dict_values labels) ∧ ∀ c, c ∈ dict_values labels ↔ c ∈ physical.

(** The loop over the labels can read the triangles: there is no
    label, or the file has a triangle array with one row per tag. *)
Definition triangles_readable (md : mesh_data) (labels : dict Z)
    (physical : list Z) : Prop :=
  labels = [] ∨
  ∃ triangles, cells_triangle md = Some triangles ∧
               length triangles = length physical.

(** A file and a label dictionary with every boundary code [c]
    replaced by [g c]. *)
Definition recode_file (g : Z → Z) (md : mesh_data) : mesh_data :=
  MeshData (points md)
    (match physical_triangle md with
     | Some physical => Some (g <$> physical)
     | None => None
     end)
    (cells_triangle md) (cells_tetra md).

Definition recode_labels (g : Z → Z) (labels : dict Z) : dict Z :=
  (λ kv, (kv.1, g kv.2)) <$> labels.

End PartSpec.

(** ** Further meshes and mesh files *)

Module Scenarios.
Import MeshStore Examples.
Local Open Scope Z_scope.

(** Three tetrahedra around the face [{0, 1, 2}], which is local
    face 0 of each. *)
Definition shared_by_three : list tet :=
  [(0, 1, 2, 3); (0, 1, 2, 4); (0, 1, 2, 5)].

(** The file of the unit tetrahedron without tetrahedra, with an
    empty array of tetrahedra, without triangles, and with one tag
    less than it has triangles. *)
Definition no_tetra_file : mesh_data :=
  MeshData unit_tet_points (physical_triangle unit_tet_file)
    (cells_triangle unit_tet_file) None.

Definition empty_tetra_file : mesh_data :=
  MeshData unit_tet_points (physical_triangle unit_tet_file)
    (cells_triangle unit_tet_file) (Some []).

Definition no_triangle_file : mesh_data :=
  MeshData unit_tet_points (physical_triangle unit_tet_file)
    None (cells_tetra unit_tet_file).

Definition short_tags_file : mesh_data :=
  MeshData unit_tet_points (Some [1; 1; 1])
    (cells_triangle unit_tet_file) (cells_tetra unit_tet_file).

(** The unit tetrahedron with two boundary codes, and two label
    dictionaries for it that differ in the order of their items. *)
Definition two_code_file : mesh_data :=
  MeshData unit_tet_points (Some [1; 2; 2; 1])
    (cells_triangle unit_tet_file) (cells_tetra unit_tet_file).

Definition inlet_slip : list (string * Z) :=
  [("inlet"%string, 1); ("slip"%string, 2)].
Definition wall_slip : list (string * Z) :=
  [("wall"%string, 1); ("slip"%string, 2)].
Definition slip_wall : list (string * Z) :=
  [("slip"%string, 2); ("wall"%string, 1)].
End Scenarios.
(* ===================================================================== *)
(** * Theorems *)
(* ===================================================================== *)

(** ** Array operations *)

Section NumpyFacts.
Import Numpy ConnSpec.

Lemma fancy_total {A} (d : A) (a : list A) (idx : list nat) :
  Forall (λ i, i < length a) idx →
  fancy a idx = Some ((λ i, default d (a !! i)) <$> idx).
Proof.
  intros Hidx. apply mapM_Some_2.
  induction Hidx as [|i idx Hi _ IH]; simpl; constructor; auto.
  destruct (lookup_lt_is_Some_2 a i Hi) as [x ->]. done.
Qed.

Lemma fancy_seq (n : nat) (idx : list nat) :
  Forall (λ i, i < n) idx → fancy (seq 0 n) idx = Some idx.
Proof.
  intros Hidx. apply mapM_Some_2.
  induction Hidx as [|i idx Hi _ IH]; constructor; auto.
  by rewrite lookup_seq_lt.
Qed.

Lemma unravel_index_lt (r c s : nat) :
  s < r * c → unravel_index (r, c) s = Some (s / c, s mod c).
Proof. intros Hs. unfold unravel_index. simpl. by rewrite decide_True. Qed.

Lemma unravel_all (r c : nat) (Src : list nat) :
  Forall (λ s, s < r * c) Src →
  mapM (unravel_index (r, c)) Src = Some ((λ s, (s / c, s mod c)) <$> Src).
Proof.
  intros HS. apply mapM_Some_2.
  induction HS as [|s Src Hs _ IH]; simpl; constructor; auto.
  by apply unravel_index_lt.
Qed.

Lemma unravel_in_bounds (r c s : nat) (d : list nat) :
  s < r * c → in_bounds (NdArray (r, c) d) (s / c, s mod c).
Proof.
  intros Hs. unfold in_bounds. simpl.
  assert (c ≠ 0) by (intros ->; lia).
  split.
  - apply Nat.Div0.div_lt_upper_bound. lia.
  - by apply Nat.mod_upper_bound.
Qed.

Lemma ravel_unravel (r c s : nat) (d : list nat) :
  offset (NdArray (r, c) d) (s / c, s mod c) = s.
Proof. unfold offset. simpl. pose proof (Nat.div_mod_eq s c). lia. Qed.

Lemma getitem_unravel (r c s : nat) (d : list nat) :
  s < r * c → getitem (NdArray (r, c) d) (s / c, s mod c) = d !! s.
Proof.
  intros Hs. unfold getitem.
  rewrite decide_True by by apply unravel_in_bounds.
  by rewrite ravel_unravel.
Qed.

Lemma getitems_unravel (g : nat → nat) (r c : nat) (Src : list nat) :
  Forall (λ s, s < r * c) Src →
  getitems (NdArray (r, c) (g <$> seq 0 (r * c))) ((λ s, (s / c, s mod c)) <$> Src)
  = Some (g <$> Src).
Proof.
  intros HS. apply mapM_Some_2. apply Forall2_fmap.
  induction HS as [|s Src Hs _ IH]; constructor; auto.
  rewrite getitem_unravel by done.
  by rewrite list_lookup_fmap, lookup_seq_lt.
Qed.

Lemma setitems_unravel (r c : nat) (T vs d : list nat) :
  Forall (λ s, s < r * c) T → length T = length vs →
  setitems (NdArray (r, c) d) ((λ s, (s / c, s mod c)) <$> T) vs
  = Some (NdArray (r, c) (scatter T vs d)).
Proof.
  intros HT. revert vs d.
  induction HT as [|t T Ht _ IH]; intros [|v vs] d Hlen; simplify_eq/=; [done|].
  unfold setitem.
  rewrite decide_True by by apply unravel_in_bounds.
  simpl. rewrite ravel_unravel. by apply IH.
Qed.

Lemma scatter_fmap {V W} (g : V → W) (T : list nat) (Src d : list V) :
  scatter T (g <$> Src) (g <$> d) = g <$> scatter T Src d.
Proof.
  revert Src d. induction T as [|t T IH]; intros [|v Src] d; simpl; try done.
  by rewrite <- list_fmap_insert, IH.
Qed.

Lemma scatter_length {V} (T : list nat) (Src d : list V) :
  length (scatter T Src d) = length d.
Proof.
  revert Src d. induction T as [|t T IH]; intros [|v Src] d; simpl; try done.
  by rewrite IH, length_insert.
Qed.

(** A buffer entry after the stores is either the old one, when its
    position was never named, or one of the stored values. *)
Lemma scatter_lookup {V} (T : list nat) (Src d : list V) (s : nat) :
  length T = length Src → s < length d →
  ((s ∉ T) ∧ scatter T Src d !! s = d !! s) ∨
  (∃ j v, T !! j = Some s ∧ Src !! j = Some v ∧ scatter T Src d !! s = Some v).
Proof.
  revert Src d. induction T as [|t T IH]; intros [|v Src] d Hlen Hs; simplify_eq/=.
  - left. split; [apply not_elem_of_nil|done].
  - destruct (IH Src (<[t:=v]> d)) as [[Hnot Heq]|(j & w & HT & HS & Heq)];
      [done|rewrite length_insert; done|..].
    + destruct (decide (s = t)) as [->|Hne].
      * right. exists 0, v. by rewrite Heq, list_lookup_insert_eq.
      * left. split; [by apply not_elem_of_cons|].
        by rewrite Heq, list_lookup_insert_ne.
    + right. by exists (S j), w.
Qed.

Lemma seq_from_0 (a n : nat) : seq a n = Nat.add a <$> seq 0 n.
Proof. by rewrite fmap_add_seq, Nat.add_0_r. Qed.

Lemma fmap_seq_ext {B} (f g : nat → B) (a n : nat) :
  (∀ i, a ≤ i < a + n → f i = g i) → f <$> seq a n = g <$> seq a n.
Proof.
  intros Hfg. apply Forall_fmap_ext_1. apply Forall_forall.
  intros i Hi. apply Hfg. apply in_seq in Hi. lia.
Qed.

Lemma arange_rows_data (r n : nat) :
  data (arange_rows r n) = (λ s, s mod n) <$> seq 0 (r * n).
Proof.
  unfold arange_rows. simpl. induction r as [|r IH]; [done|].
  simpl. rewrite IH, seq_app, fmap_app. f_equal.
  - rewrite <- (list_fmap_id (seq 0 n)) at 1.
    apply fmap_seq_ext. intros i Hi. simpl. rewrite Nat.mod_small; lia.
  - simpl. rewrite (seq_from_0 n), <- list_fmap_compose.
    apply fmap_seq_ext. intros i Hi. simpl.
    replace (n + i) with (i + 1 * n) by lia. by rewrite Nat.Div0.mod_add.
Qed.

Lemma arange_repeat_flat (r n : nat) :
  n ≠ 0 → seq 0 r ≫= replicate n = (λ s, s / n) <$> seq 0 (r * n).
Proof.
  intros Hn.
  cut (∀ a, seq a r ≫= replicate n = (λ s, a + s / n) <$> seq 0 (r * n)).
  { intros H. apply H. }
  induction r as [|r IH]; intros a; [done|].
  change (seq a (S r)) with (a :: seq (S a) r).
  replace (S r * n) with (n + r * n) by lia.
  rewrite bind_cons, IH, seq_app, fmap_app. f_equal.
  - rewrite (const_fmap _ _ a), length_seq; [done|].
    intros i x Hx. apply lookup_seq in Hx as [-> Hi].
    rewrite Nat.div_small; lia.
  - simpl. rewrite (seq_from_0 n), <- list_fmap_compose.
    apply fmap_seq_ext. intros i Hi. simpl.
    replace (n + i) with (i + 1 * n) by lia. rewrite Nat.div_add by done. lia.
Qed.

Lemma arange_repeat_Some (n : nat) :
  n ≠ 0 →
  arange_repeat 4 n = Some (NdArray (4, n) ((λ s, s / n) <$> seq 0 (4 * n))).
Proof.
  intros Hn. unfold arange_repeat. rewrite decide_False by done.
  rewrite arange_repeat_flat by done.
  rewrite length_fmap, length_seq, Nat.div_mul by done. done.
Qed.
End NumpyFacts.

(** ** The result of the builder as a table of face slots *)

Section Representation.
Import Numpy Connectivity ConnSpec.

Variable hash_tuple : face → Z.
Variable argsort : list Z → list nat.

Lemma Forall_mono {A} (P Q : A → Prop) (l : list A) :
  Forall P l → (∀ x, P x → Q x) → Forall Q l.
Proof. intros H HPQ. eapply Forall_impl; eauto. Qed.

Lemma obind_Some {A B} (f : A → option B) (x : A) : Some x ≫= f = f x.
Proof. done. Qed.

Lemma length_sorted_face_vertices (tets : list tet) :
  length (sorted_face_vertices tets) = 4 * length tets.
Proof.
  unfold sorted_face_vertices, vstack. simpl.
  rewrite length_fmap, !length_app, !length_fmap. simpl. lia.
Qed.

Lemma length_face_keys (tets : list tet) :
  length (face_keys hash_tuple tets) = 4 * length tets.
Proof. unfold face_keys. by rewrite length_fmap, length_sorted_face_vertices. Qed.

Lemma argsort_lt (keys : list Z) (order : list nat) :
  is_argsort keys order → Forall (λ i, i < length keys) order.
Proof.
  intros [Hperm _]. apply Forall_forall. intros i Hi.
  apply list_elem_of_In in Hi. rewrite Hperm in Hi.
  apply elem_of_seq in Hi. lia.
Qed.

Lemma argsort_length (keys : list Z) (order : list nat) :
  is_argsort keys order → length order = length keys.
Proof. intros [Hperm _]. by rewrite Hperm, length_seq. Qed.

Lemma filter_ext_in {A} (P Q : A → Prop)
    `{∀ x, Decision (P x)} `{∀ x, Decision (Q x)} (l : list A) :
  (∀ x, x ∈ l → P x ↔ Q x) → filter P l = filter Q l.
Proof.
  induction l as [|x l IH]; intros HPQ; [done|].
  rewrite !filter_cons.
  rewrite IH by (intros y Hy; apply HPQ; by right).
  destruct (decide (P x)) as [HP|HP], (decide (Q x)) as [HQ|HQ]; try done;
    exfalso; apply (HPQ x) in HP || apply (HPQ x) in HQ; try done; by left.
Qed.

Lemma where_eq_shifted (ids : list Z) :
  where_eq (but_last ids) (from_1 ids)
  = filter (λ i, ids !! i = ids !! (i + 1)) (seq 0 (length ids - 1)).
Proof.
  unfold where_eq, but_last, from_1.
  rewrite length_take, Nat.min_l by lia.
  apply filter_ext_in. intros i Hi. apply elem_of_seq in Hi.
  rewrite lookup_take_lt by lia. rewrite lookup_drop.
  by replace (1 + i) with (i + 1) by lia.
Qed.

Lemma matched_positions_lt (keys : list Z) (order : list nat) :
  Forall (λ i, i + 1 < length order) (matched_positions keys order).
Proof.
  apply Forall_forall. intros i Hi. apply list_elem_of_In in Hi.
  apply list_elem_of_filter in Hi as [_ Hi]. apply elem_of_seq in Hi. lia.
Qed.

Lemma order_lookup_lt (keys : list Z) (order : list nat) (i : nat) :
  is_argsort keys order → i < length order →
  default 0 (order !! i) < length keys.
Proof.
  intros Hsort Hi. destruct (lookup_lt_is_Some_2 order i Hi) as [s Hs].
  rewrite Hs. simpl.
  pose proof (argsort_lt _ _ Hsort) as Hall.
  rewrite Forall_forall in Hall. apply Hall.
  apply list_elem_of_In. by eapply list_elem_of_lookup_2.
Qed.

Lemma left_slots_lt (keys : list Z) (order : list nat) :
  is_argsort keys order → Forall (λ s, s < length keys) (left_slots keys order).
Proof.
  intros Hsort. unfold left_slots. apply Forall_fmap.
  eapply Forall_mono; [apply matched_positions_lt|].
  intros i Hi. simpl in *. apply order_lookup_lt; [done|lia].
Qed.

Lemma right_slots_lt (keys : list Z) (order : list nat) :
  is_argsort keys order → Forall (λ s, s < length keys) (right_slots keys order).
Proof.
  intros Hsort. unfold right_slots. apply Forall_fmap.
  eapply Forall_mono; [apply matched_positions_lt|].
  intros i Hi. simpl in *. by apply order_lookup_lt.
Qed.

Lemma length_left_right (keys : list Z) (order : list nat) :
  length (left_slots keys order) = length (right_slots keys order).
Proof. unfold left_slots, right_slots. by rewrite !length_fmap. Qed.

(** The two tables are the element and the local face of the slot
    each slot refers to. *)
Theorem compute_element_connectivity_pairing (tets : list tet) :
  let keys := face_keys hash_tuple tets in
  let N := length tets in
  is_argsort keys (argsort keys) → tets ≠ [] →
  __compute_element_connectivity hash_tuple argsort tets
  = Some (NdArray (4, N) ((λ s, s mod N) <$> pairing keys (argsort keys)),
          NdArray (4, N) ((λ s, s / N) <$> pairing keys (argsort keys))).
Proof.
  intros keys N Hsort Hne.
  assert (HN : N ≠ 0) by (subst N; destruct tets; done).
  assert (Hlen : length keys = 4 * N) by apply length_face_keys.
  pose proof (argsort_lt _ _ Hsort) as Hlt.
  pose proof (argsort_length _ _ Hsort) as Hlo.
  pose proof (left_slots_lt _ _ Hsort) as HL.
  pose proof (right_slots_lt _ _ Hsort) as HR.
  unfold __compute_element_connectivity. cbv zeta.
  fold N. rewrite arange_repeat_Some, obind_Some by done.
  assert (Hfv : apply_along_axis hash_tuple (sorted_face_vertices tets) = Some keys).
  { unfold apply_along_axis, keys, face_keys.
    destruct (sorted_face_vertices tets) eqn:E; [|done].
    apply (f_equal length) in E. rewrite length_sorted_face_vertices in E.
    simpl in E. lia. }
  rewrite Hfv, obind_Some.
  rewrite (fancy_total 0%Z keys) by done. rewrite obind_Some.
  rewrite (fancy_total (0, 0, 0)%Z (sorted_face_vertices tets)), obind_Some
    by (rewrite length_sorted_face_vertices; fold N; rewrite <- Hlen; done).
  rewrite fancy_seq, obind_Some
    by (replace (N * 4) with (length keys) by lia; done).
  rewrite where_eq_shifted, length_fmap.
  change (filter _ (seq 0 (length (argsort keys) - 1)))
    with (matched_positions keys (argsort keys)).
  rewrite (fancy_total 0 _ (matched_positions keys (argsort keys))), obind_Some
    by (eapply Forall_mono; [apply matched_positions_lt|]; intros i Hi; simpl in *; lia).
  change ((λ i, default 0 (argsort keys !! i)) <$> matched_positions keys (argsort keys))
    with (left_slots keys (argsort keys)).
  rewrite (fancy_total 0), obind_Some
    by (apply Forall_fmap; eapply Forall_mono; [apply matched_positions_lt|];
        intros i Hi; simpl in *; lia).
  rewrite <- list_fmap_compose.
  change ((λ i, default 0 (argsort keys !! i)) ∘ (λ i, i + 1) <$> _)
    with (right_slots keys (argsort keys)).
  unfold vstack. simpl mjoin. rewrite !app_nil_r.
  set (L := left_slots keys (argsort keys)) in *.
  set (R := right_slots keys (argsort keys)) in *.
  assert (HLR : Forall (λ s, s < 4 * N) (L ++ R))
    by (rewrite <- Hlen; by apply Forall_app).
  assert (HRL : Forall (λ s, s < 4 * N) (R ++ L))
    by (rewrite <- Hlen; by apply Forall_app).
  assert (HE : arange_rows 4 N = NdArray (4, N) ((λ s, s mod N) <$> seq 0 (4 * N))).
  { rewrite <- arange_rows_data. done. }
  rewrite HE. simpl shape.
  rewrite !unravel_all by done.
  rewrite obind_Some, getitems_unravel, !obind_Some by done.
  rewrite setitems_unravel, obind_Some
    by (rewrite ?length_fmap, ?length_app; subst L R;
        rewrite ?(length_left_right keys); done || lia).
  rewrite obind_Some, getitems_unravel, !obind_Some by done.
  rewrite setitems_unravel, obind_Some
    by (rewrite ?length_fmap, ?length_app; subst L R;
        rewrite ?(length_left_right keys); done || lia).
  rewrite !scatter_fmap. unfold pairing. fold L R. by rewrite Hlen.
Qed.
End Representation.

(** ** What the pairing step writes *)

Section PairingFacts.
Import Numpy Connectivity ConnSpec.

Variable keys : list Z.
Variable order : list nat.
Hypothesis Hsort : is_argsort keys order.

Lemma order_NoDup : NoDup order.
Proof. destruct Hsort as [Hperm _]. rewrite Hperm. apply NoDup_seq. Qed.

Lemma order_elem (s : nat) : s ∈ order ↔ s < length keys.
Proof.
  destruct Hsort as [Hperm _]. rewrite Hperm, elem_of_seq. lia.
Qed.

Lemma key_at_lookup (s s' : nat) :
  s < length keys → s' < length keys →
  key_at keys s = key_at keys s' ↔ keys !! s = keys !! s'.
Proof.
  intros Hs Hs'. unfold key_at.
  destruct (lookup_lt_is_Some_2 keys s Hs) as [k ->].
  destruct (lookup_lt_is_Some_2 keys s' Hs') as [k' ->].
  simpl. split; congruence.
Qed.

Lemma StronglySorted_lookup_le (l : list Z) (i j : nat) (a b : Z) :
  StronglySorted Z.le l → i ≤ j → l !! i = Some a → l !! j = Some b → (a ≤ b)%Z.
Proof.
  intros Hl. revert i j. induction Hl as [|x l Hl IH Hx]; intros i j Hij Hi Hj.
  - by rewrite lookup_nil in Hi.
  - destruct i as [|i], j as [|j]; simplify_eq/=; try lia.
    + rewrite Forall_forall in Hx. apply Hx.
      apply list_elem_of_In. by eapply list_elem_of_lookup_2.
    + eapply IH; [|done..]. lia.
Qed.

Lemma ids_sorted (i j : nat) (a b : nat) :
  i ≤ j → order !! i = Some a → order !! j = Some b →
  (key_at keys a ≤ key_at keys b)%Z.
Proof.
  intros Hij Ha Hb. destruct Hsort as [_ Hs].
  apply (Sorted_StronglySorted _) in Hs.
  eapply (StronglySorted_lookup_le _ i j); [exact Hs|done|..];
    rewrite list_lookup_fmap; [by rewrite Ha|by rewrite Hb].
Qed.

(** A matched position holds two distinct slots with equal keys. *)
Lemma matched_position_spec (i : nat) :
  i ∈ matched_positions keys order ↔
  ∃ a b, order !! i = Some a ∧ order !! (i + 1) = Some b ∧
         key_at keys a = key_at keys b.
Proof.
  unfold matched_positions. rewrite list_elem_of_filter, elem_of_seq.
  rewrite !list_lookup_fmap. split.
  - intros [Heq Hi].
    destruct (lookup_lt_is_Some_2 order i) as [a Ha]; [lia|].
    destruct (lookup_lt_is_Some_2 order (i + 1)) as [b Hb]; [lia|].
    exists a, b. rewrite Ha, Hb in Heq. simpl in Heq. by simplify_eq.
  - intros (a & b & Ha & Hb & Heq). rewrite Ha, Hb. simpl.
    apply lookup_lt_Some in Hb. split; [by rewrite Heq|lia].
Qed.

(** Every store of the pairing step names a slot and assigns it a
    different slot carrying the same key. *)
Lemma store_spec (j t s' : nat) :
  (left_slots keys order ++ right_slots keys order) !! j = Some t →
  (right_slots keys order ++ left_slots keys order) !! j = Some s' →
  t ≠ s' ∧ t < length keys ∧ s' < length keys ∧ keys !! s' = keys !! t.
Proof.
  assert (Hpair : ∀ i a b, order !! i = Some a → order !! (i + 1) = Some b →
            key_at keys a = key_at keys b →
            a ≠ b ∧ a < length keys ∧ b < length keys ∧ keys !! b = keys !! a).
  { intros i a b Ha Hb Heq.
    assert (a < length keys) by (apply order_elem; by eapply list_elem_of_lookup_2).
    assert (b < length keys) by (apply order_elem; by eapply list_elem_of_lookup_2).
    split_and!; try done.
    - intros ->. pose proof (NoDup_lookup _ _ _ _ order_NoDup Ha Hb). lia.
    - symmetry. by apply key_at_lookup. }
  pose proof (length_left_right keys order) as HK.
  unfold left_slots, right_slots in *.
  set (M := matched_positions keys order) in *.
  rewrite !length_fmap in HK.
  intros Ht Hs'.
  destruct (decide (j < length M)) as [Hj|Hj].
  - rewrite lookup_app_l in Ht by (by rewrite length_fmap).
    rewrite lookup_app_l in Hs' by (by rewrite length_fmap).
    rewrite list_lookup_fmap in Ht, Hs'.
    destruct (M !! j) as [i|] eqn:Hi; simplify_eq/=.
    assert (i ∈ M) as Him by (by eapply list_elem_of_lookup_2).
    apply matched_position_spec in Him as (a & b & Ha & Hb & Heq).
    rewrite Ha, Hb. simpl. by eapply Hpair.
  - rewrite lookup_app_r in Ht by (rewrite length_fmap; lia).
    rewrite lookup_app_r in Hs' by (rewrite length_fmap; lia).
    rewrite length_fmap in Ht, Hs'.
    rewrite list_lookup_fmap in Ht, Hs'.
    destruct (M !! (j - length M)) as [i|] eqn:Hi; simplify_eq/=.
    assert (i ∈ M) as Him by (by eapply list_elem_of_lookup_2).
    apply matched_position_spec in Him as (a & b & Ha & Hb & Heq).
    rewrite Ha, Hb. simpl.
    destruct (Hpair i a b Ha Hb Heq) as (? & ? & ? & ?).
    split_and!; auto.
Qed.

(** A slot whose key another slot carries is named by some store. *)
Lemma matched_is_stored (s s' : nat) :
  s < length keys → s' < length keys → s' ≠ s → keys !! s' = keys !! s →
  s ∈ left_slots keys order ++ right_slots keys order.
Proof.
  intros Hs Hs' Hne Hkey.
  apply key_at_lookup in Hkey; [|done..].
  destruct (list_elem_of_lookup_1 _ _ (proj2 (order_elem s) Hs)) as [p Hp].
  destruct (list_elem_of_lookup_1 _ _ (proj2 (order_elem s') Hs')) as [q Hq].
  assert (p ≠ q) by (intros ->; congruence).
  pose proof (lookup_lt_Some _ _ _ Hp). pose proof (lookup_lt_Some _ _ _ Hq).
  apply elem_of_app.
  destruct (decide (p < q)) as [Hpq|Hpq].
  - left. destruct (lookup_lt_is_Some_2 order (p + 1)) as [x Hx]; [lia|].
    assert (key_at keys s = key_at keys x).
    { pose proof (ids_sorted p (p + 1) s x ltac:(lia) Hp Hx).
      pose proof (ids_sorted (p + 1) q x s' ltac:(lia) Hx Hq). lia. }
    assert (p ∈ matched_positions keys order)
      by (apply matched_position_spec; eauto).
    unfold left_slots. apply list_elem_of_fmap.
    exists p. by rewrite Hp.
  - right. destruct (lookup_lt_is_Some_2 order (p - 1)) as [x Hx]; [lia|].
    assert (Hp' : order !! (p - 1 + 1) = Some s)
      by (replace (p - 1 + 1) with p by lia; done).
    assert (key_at keys x = key_at keys s).
    { pose proof (ids_sorted (p - 1) p x s ltac:(lia) Hx Hp).
      pose proof (ids_sorted q (p - 1) s' x ltac:(lia) Hq Hx). lia. }
    assert (p - 1 ∈ matched_positions keys order)
      by (apply matched_position_spec; eauto).
    unfold right_slots. apply list_elem_of_fmap.
    exists (p - 1). by rewrite Hp'.
Qed.

Lemma length_pairing : length (pairing keys order) = length keys.
Proof. unfold pairing. by rewrite scatter_length, length_seq. Qed.

(** Each slot refers to itself when no other slot carries its key,
    and otherwise to another slot that carries its key. *)
Theorem pairing_spec (s : nat) :
  s < length keys →
  (unmatched keys s ∧ pairing keys order !! s = Some s) ∨
  (∃ s', s' ≠ s ∧ s' < length keys ∧ keys !! s' = keys !! s ∧
         pairing keys order !! s = Some s').
Proof.
  intros Hs. unfold pairing.
  destruct (scatter_lookup
              (left_slots keys order ++ right_slots keys order)
              (right_slots keys order ++ left_slots keys order)
              (seq 0 (length keys)) s)
    as [[Hnot Heq]|(j & v & HT & HS & Heq)].
  - rewrite !length_app, (length_left_right keys order). lia.
  - by rewrite length_seq.
  - left. split; [|by rewrite Heq, lookup_seq_lt].
    intros s' Hkey. destruct (decide (s' = s)) as [|Hne]; [done|].
    exfalso. apply Hnot. apply (matched_is_stored s s'); try done.
    apply lookup_lt_is_Some. rewrite Hkey. by apply lookup_lt_is_Some.
  - right. destruct (store_spec j s v HT HS) as (? & ? & ? & ?).
    exists v. split_and!; first [done | congruence].
Qed.

Lemma candidates_spec (s s' : nat) :
  s' ∈ candidates keys s ↔ s' ≠ s ∧ s' < length keys ∧ keys !! s' = keys !! s.
Proof.
  unfold candidates. rewrite list_elem_of_filter, elem_of_seq.
  split; [intros [[??] ?]|intros (?&?&?)]; split_and!; auto; lia.
Qed.

Lemma unmatched_candidates (s : nat) :
  s < length keys → unmatched keys s ↔ candidates keys s = [].
Proof.
  intros Hs. split.
  - intros Hun. apply elem_of_nil_inv. intros s' Hs'.
    apply candidates_spec in Hs' as (Hne & _ & Hk). by apply Hne, Hun.
  - intros Hnil s' Hk. destruct (decide (s' = s)) as [|Hne]; [done|].
    assert (s' ∈ candidates keys s) as Hin.
    { apply candidates_spec. split_and!; try done.
      apply lookup_lt_is_Some. rewrite Hk. by apply lookup_lt_is_Some. }
    rewrite Hnil in Hin. by apply elem_of_nil in Hin.
Qed.

(** When no key is carried by more than two slots, each slot refers
    to its mate, whatever order the sort gave to equal keys. *)
Theorem pairing_mate :
  pairs_only keys → pairing keys order = mate keys <$> seq 0 (length keys).
Proof.
  intros Hpairs. apply list_eq. intros s.
  rewrite list_lookup_fmap.
  destruct (decide (s < length keys)) as [Hs|Hs].
  2:{ rewrite lookup_seq_ge by lia. simpl.
      apply lookup_ge_None. rewrite length_pairing. lia. }
  rewrite lookup_seq_lt by done. simpl.
  unfold pairs_only in Hpairs. rewrite Forall_forall in Hpairs.
  specialize (Hpairs s). 
  assert (Hc : length (candidates keys s) ≤ 1).
  { apply Hpairs. apply in_seq. lia. }
  unfold mate.
  destruct (pairing_spec s Hs) as [[Hun ->]|(s' & Hne & Hlt & Hk & ->)].
  - apply unmatched_candidates in Hun; [|done]. by rewrite Hun.
  - assert (s' ∈ candidates keys s) as Hin by (by apply candidates_spec).
    destruct (candidates keys s) as [|c [|c' cs]]; simpl in Hc; try lia.
    + by apply elem_of_nil in Hin.
    + apply list_elem_of_singleton in Hin. by subst.
Qed.
End PairingFacts.

(** ** Properties of the returned tables *)

Section ConnectivityTheorems.
Import Numpy Connectivity ConnSpec.

Variable hash_tuple : face → Z.
Variable argsort : list Z → list nat.
Hypothesis argsort_ok : ∀ keys, is_argsort keys (argsort keys).

Lemma compute_element_connectivity_nil :
  __compute_element_connectivity hash_tuple argsort [] = None.
Proof. done. Qed.

Lemma slot_decode (N f e : nat) :
  e < N → slot N f e / N = f ∧ slot N f e mod N = e.
Proof.
  intros He. unfold slot. split.
  - rewrite Nat.div_add_l by lia. rewrite Nat.div_small by done. lia.
  - rewrite Nat.add_comm, Nat.Div0.mod_add. by apply Nat.mod_small.
Qed.

Lemma slot_encode (N p : nat) : slot N (p / N) (p mod N) = p.
Proof. unfold slot. pose proof (Nat.div_mod_eq p N). lia. Qed.

Lemma slot_lt (N f e : nat) : f < 4 → e < N → slot N f e < 4 * N.
Proof. unfold slot. nia. Qed.

Lemma slot_parts_lt (N p : nat) : p < 4 * N → p / N < 4 ∧ p mod N < N.
Proof.
  intros Hp. assert (N ≠ 0) by lia. split.
  - apply Nat.Div0.div_lt_upper_bound. lia.
  - by apply Nat.mod_upper_bound.
Qed.

(** Reading an entry of the result: it is the element, respectively
    the local face, of the slot that slot [(f, e)] refers to. *)
Lemma result_lookup (tets : list tet) (EToE EToF : ndarray) (f e : nat) :
  let keys := face_keys hash_tuple tets in
  let N := length tets in
  __compute_element_connectivity hash_tuple argsort tets = Some (EToE, EToF) →
  f < 4 → e < N →
  ∃ p, pairing keys (argsort keys) !! slot N f e = Some p ∧
       at_ EToE f e = Some (p mod N) ∧ at_ EToF f e = Some (p / N).
Proof.
  intros keys N Hrun Hf He.
  assert (Hne : tets ≠ []) by (intros ->; simpl in *; lia).
  rewrite compute_element_connectivity_pairing in Hrun by done.
  simplify_eq. fold keys N.
  assert (Hlen : length keys = 4 * N) by apply length_face_keys.
  destruct (lookup_lt_is_Some_2 (pairing keys (argsort keys)) (slot N f e))
    as [p Hp].
  { rewrite length_pairing, Hlen by done. by apply slot_lt. }
  exists p. split; [done|].
  unfold at_, getitem, in_bounds, offset. simpl.
  rewrite !decide_True by done.
  fold (slot N f e). by rewrite !list_lookup_fmap, Hp.
Qed.

(** For a non-empty array the builder returns. *)
Theorem compute_element_connectivity_returns (tets : list tet) :
  tets ≠ [] → is_Some (__compute_element_connectivity hash_tuple argsort tets).
Proof.
  intros Hne. rewrite compute_element_connectivity_pairing by done. eauto.
Qed.

(** A slot whose key occurs once keeps its initial entries. *)
Theorem unmatched_keeps_init (tets : list tet) (EToE EToF : ndarray) (f e : nat) :
  __compute_element_connectivity hash_tuple argsort tets = Some (EToE, EToF) →
  f < 4 → e < length tets →
  unmatched (face_keys hash_tuple tets) (slot (length tets) f e) →
  at_ EToE f e = Some e ∧ at_ EToF f e = Some f.
Proof.
  intros Hrun Hf He Hun.
  destruct (result_lookup _ _ _ f e Hrun Hf He) as (p & Hp & -> & ->).
  set (keys := face_keys hash_tuple tets) in *.
  set (N := length tets) in *.
  assert (Hs : slot N f e < length keys)
    by (unfold keys; rewrite length_face_keys; by apply slot_lt).
  destruct (pairing_spec keys _ (argsort_ok keys) _ Hs)
    as [[_ Heq]|(s' & Hne & _ & Hk & _)].
  - rewrite Heq in Hp. simplify_eq.
    destruct (slot_decode N f e He) as [-> ->]. done.
  - by apply Hun in Hk.
Qed.

(** A slot is self-referential in both tables exactly when no other
    slot carries its key. *)
Theorem self_reference_iff_unmatched
    (tets : list tet) (EToE EToF : ndarray) (f e : nat) :
  __compute_element_connectivity hash_tuple argsort tets = Some (EToE, EToF) →
  f < 4 → e < length tets →
  (at_ EToE f e = Some e ∧ at_ EToF f e = Some f) ↔
  unmatched (face_keys hash_tuple tets) (slot (length tets) f e).
Proof.
  intros Hrun Hf He. split; [|by apply unmatched_keeps_init].
  intros [HE HF].
  destruct (result_lookup _ _ _ f e Hrun Hf He) as (p & Hp & HE' & HF').
  set (keys := face_keys hash_tuple tets) in *.
  set (N := length tets) in *.
  assert (Hs : slot N f e < length keys)
    by (unfold keys; rewrite length_face_keys; by apply slot_lt).
  destruct (pairing_spec keys _ (argsort_ok keys) _ Hs)
    as [[Hun _]|(s' & Hne & _ & _ & Heq)]; [done|].
  exfalso. apply Hne. rewrite Heq in Hp.
  rewrite HE in HE'. rewrite HF in HF'.
  assert (p = s') by congruence. subst p.
  assert (e = s' mod N) by congruence.
  assert (f = s' / N) by congruence.
  subst e f. by rewrite slot_encode.
Qed.

(** When no key is carried by more than two slots the two tables are
    determined by the keys alone. *)
Theorem compute_element_connectivity_exact (tets : list tet) :
  let keys := face_keys hash_tuple tets in
  let N := length tets in
  tets ≠ [] → pairs_only keys →
  __compute_element_connectivity hash_tuple argsort tets
  = Some (NdArray (4, N) ((λ s, mate keys s mod N) <$> seq 0 (4 * N)),
          NdArray (4, N) ((λ s, mate keys s / N) <$> seq 0 (4 * N))).
Proof.
  intros keys N Hne Hpairs.
  rewrite compute_element_connectivity_pairing by done.
  fold keys N. rewrite (pairing_mate keys _ (argsort_ok keys) Hpairs).
  rewrite <- !list_fmap_compose. unfold keys at 2 4.
  by rewrite length_face_keys.
Qed.

Lemma mate_spec (keys : list Z) (s : nat) :
  s < length keys → pairs_only keys →
  (unmatched keys s ∧ mate keys s = s) ∨
  (mate keys s ≠ s ∧ mate keys s < length keys ∧
   keys !! mate keys s = keys !! s ∧ mate keys (mate keys s) = s).
Proof.
  intros Hs Hpairs.
  assert (Hone : ∀ t, t < length keys → length (candidates keys t) ≤ 1).
  { intros t Ht. unfold pairs_only in Hpairs. rewrite Forall_forall in Hpairs.
    apply Hpairs, in_seq. lia. }
  destruct (candidates keys s) as [|s' cs] eqn:Hc.
  - left. split; [by apply unmatched_candidates|].
    unfold mate. by rewrite Hc.
  - right.
    assert (Hm : mate keys s = s') by (unfold mate; by rewrite Hc).
    rewrite Hm.
    assert (s' ∈ candidates keys s) as Hin by (rewrite Hc; by left).
    apply candidates_spec in Hin as (Hne & Hlt & Hk).
    split_and!; try done.
    assert (s ∈ candidates keys s') as Hin' by (by apply candidates_spec).
    pose proof (Hone s' Hlt) as Hl. unfold mate.
    destruct (candidates keys s') as [|c [|c' cs']]; simpl in Hl; try lia.
    + by apply elem_of_nil in Hin'.
    + apply list_elem_of_singleton in Hin'. by subst.
Qed.

(** Neighbour symmetry, when no key is carried by more than two slots. *)
Theorem symmetry_of_paired_keys (tets : list tet) (EToE EToF : ndarray) :
  __compute_element_connectivity hash_tuple argsort tets = Some (EToE, EToF) →
  pairs_only (face_keys hash_tuple tets) →
  symmetric (length tets) EToE EToF.
Proof.
  intros Hrun Hpairs e f e2 f2 He Hf HE HF Hne.
  set (keys := face_keys hash_tuple tets) in *.
  set (N := length tets) in *.
  assert (Hlen : length keys = 4 * N) by apply length_face_keys.
  assert (Hread : ∀ f' e', f' < 4 → e' < N →
            at_ EToE f' e' = Some (mate keys (slot N f' e') mod N) ∧
            at_ EToF f' e' = Some (mate keys (slot N f' e') / N)).
  { intros f' e' Hf' He'.
    destruct (result_lookup _ _ _ f' e' Hrun Hf' He') as (p & Hp & -> & ->).
    fold keys N in Hp.
    rewrite (pairing_mate keys _ (argsort_ok keys) Hpairs) in Hp.
    rewrite list_lookup_fmap, lookup_seq_lt in Hp
      by (rewrite Hlen; by apply slot_lt).
    simpl in Hp. by simplify_eq. }
  destruct (Hread f e Hf He) as [HE' HF'].
  rewrite HE in HE'. rewrite HF in HF'.
  set (s := slot N f e) in *.
  assert (e2 = mate keys s mod N) by congruence.
  assert (f2 = mate keys s / N) by congruence.
  subst e2 f2.
  assert (Hs : s < length keys) by (rewrite Hlen; by apply slot_lt).
  destruct (slot_decode N f e He) as [Hdf Hde]. fold s in Hdf, Hde.
  destruct (mate_spec keys s Hs Hpairs) as [[_ Heq]|(Hm & Hmlt & _ & Hback)].
  { exfalso. apply Hne. by rewrite Heq. }
  destruct (slot_parts_lt N (mate keys s)) as [Hf2 He2]; [lia|].
  destruct (Hread _ _ Hf2 He2) as [-> ->].
  by rewrite slot_encode, Hback, Hdf, Hde.
Qed.
End ConnectivityTheorems.

(** ** Sorting: rows of three, and an argsort *)

Section SortingFacts.
Import Numpy ConnSpec.

#[local] Instance key_le_total (keys : list Z) : Total (key_le keys).
Proof. intros i j. unfold key_le. lia. Qed.

(** [merge_argsort] meets the contract of [numpy.argsort]. *)
Lemma merge_argsort_ok (keys : list Z) : is_argsort keys (merge_argsort keys).
Proof.
  unfold is_argsort, merge_argsort. split.
  - apply merge_sort_Permutation.
  - eapply Sorted_fmap; [|apply (Sorted_merge_sort (key_le keys))].
    intros i j Hij. exact Hij.
Qed.

Ltac perm3 :=
  first
    [ reflexivity
    | apply perm_swap
    | apply perm_skip, perm_swap
    | etrans; [apply perm_swap | apply perm_skip, perm_swap]
    | etrans; [apply perm_skip, perm_swap | apply perm_swap]
    | etrans; [apply perm_swap |];
      etrans; [apply perm_skip, perm_swap | apply perm_swap] ].

Lemma sort_row_same_vertices (r : face) : same_vertices r (sort_row r).
Proof.
  destruct r as [[a b] c]. unfold sort_row, same_vertices.
  repeat case_match; simplify_eq; perm3.
Qed.

Lemma sort_row_sorted (r : face) :
  let '(a, b, c) := sort_row r in Sorted Z.le [a; b; c].
Proof.
  destruct r as [[a b] c]. unfold sort_row.
  repeat case_match; simplify_eq;
    repeat (constructor; try lia).
Qed.

(** Two rows are equal after sorting exactly when they name the same
    three vertices. *)
Lemma sort_row_eq_iff (r r' : face) :
  sort_row r = sort_row r' ↔ same_vertices r r'.
Proof.
  pose proof (sort_row_same_vertices r) as Hr.
  pose proof (sort_row_same_vertices r') as Hr'.
  pose proof (sort_row_sorted r) as Hs.
  pose proof (sort_row_sorted r') as Hs'.
  destruct r as [[a b] c], r' as [[a' b'] c'].
  destruct (sort_row (a, b, c)) as [[x y] z].
  destruct (sort_row (a', b', c')) as [[x' y'] z'].
  unfold same_vertices in *. split.
  - intros ?; simplify_eq. by rewrite Hr, Hr'.
  - intros Hp.
    assert ([x; y; z] = [x'; y'; z']) as Heq.
    { apply (Sorted_unique Z.le); [done..|]. by rewrite <- Hr, Hp, Hr'. }
    by simplify_eq.
Qed.
End SortingFacts.

(** ** Entries of the result in terms of the candidates of a slot *)

Section Entries.
Import Numpy Connectivity ConnSpec.

Variable hash_tuple : face → Z.
Variable argsort : list Z → list nat.
Hypothesis argsort_ok : ∀ keys, is_argsort keys (argsort keys).

(** An entry refers to the slot itself when the slot has no
    candidate, and to one of its candidates otherwise. *)
Lemma result_entry (tets : list tet) (EToE EToF : ndarray) (f e : nat) :
  let keys := face_keys hash_tuple tets in
  let N := length tets in
  __compute_element_connectivity hash_tuple argsort tets = Some (EToE, EToF) →
  f < 4 → e < N →
  ∃ p, p ∈ match candidates keys (slot N f e) with
           | [] => [slot N f e]
           | c => c
           end ∧
       at_ EToE f e = Some (p mod N) ∧ at_ EToF f e = Some (p / N).
Proof.
  intros keys N Hrun Hf He.
  destruct (result_lookup _ _ argsort_ok _ _ _ f e Hrun Hf He)
    as (p & Hp & HE & HF).
  fold keys N in Hp, HE, HF.
  exists p. split; [|done].
  assert (Hs : slot N f e < length keys)
    by (unfold keys; rewrite length_face_keys; by apply slot_lt).
  destruct (pairing_spec keys _ (argsort_ok keys) _ Hs)
    as [[Hun Heq]|(s' & Hne & Hlt & Hk & Heq)];
    rewrite Heq in Hp; simplify_eq.
  - apply unmatched_candidates in Hun; [|done]. rewrite Hun. by left.
  - assert (p ∈ candidates keys (slot N f e)) as Hin
      by (by apply candidates_spec).
    destruct (candidates keys (slot N f e)); [by apply elem_of_nil in Hin|done].
Qed.
End Entries.

(** ** The builder with an exact match key

    With a key that tells any two sorted rows apart, as the code's
    comments expect of the hash, slots are matched exactly when they
    name the same three vertices, the tables are symmetric whenever
    every face occurs at most twice, and they do not depend on how the
    vertices are numbered. *)

Section ExactKey.
Import Numpy Connectivity ConnSpec.

Variable hash_tuple : face → Z.
Variable argsort : list Z → list nat.
Hypothesis argsort_ok : ∀ keys, is_argsort keys (argsort keys).
Hypothesis hash_exact : ∀ r r', hash_tuple r = hash_tuple r' → r = r'.

Lemma lookup_fmap_inj {A B} (f : A → B) (l : list A) (s s' : nat) :
  (∀ x y, f x = f y → x = y) →
  (f <$> l) !! s = (f <$> l) !! s' ↔ l !! s = l !! s'.
Proof.
  intros Hinj. rewrite !list_lookup_fmap.
  destruct (l !! s), (l !! s'); simpl; split; intros ?; simplify_eq; try done.
  f_equal. by apply Hinj.
Qed.

Lemma candidates_fmap {A B} `{EqDecision A} `{EqDecision B}
    (f : A → B) (l : list A) (s : nat) :
  (∀ x y, f x = f y → x = y) →
  candidates (f <$> l) s = candidates l s.
Proof.
  intros Hinj. unfold candidates. rewrite length_fmap.
  apply filter_ext_in. intros s' _.
  by rewrite (lookup_fmap_inj f l s' s Hinj).
Qed.

Lemma pairs_only_fmap {A B} `{EqDecision A} `{EqDecision B}
    (f : A → B) (l : list A) :
  (∀ x y, f x = f y → x = y) →
  pairs_only (f <$> l) ↔ pairs_only l.
Proof.
  intros Hinj. unfold pairs_only. rewrite length_fmap.
  rewrite !Forall_forall. split; intros H s Hs; specialize (H s Hs).
  - by rewrite candidates_fmap in H.
  - by rewrite candidates_fmap.
Qed.

(** Two slots receive equal keys exactly when their sorted rows are
    equal, that is, when they name the same three vertices. *)
Theorem exact_key_matches_same_vertices (tets : list tet) (s s' : nat) (r r' : face) :
  sorted_face_vertices tets !! s = Some (sort_row r) →
  sorted_face_vertices tets !! s' = Some (sort_row r') →
  face_keys hash_tuple tets !! s = face_keys hash_tuple tets !! s' ↔
  same_vertices r r'.
Proof.
  intros Hs Hs'. unfold face_keys.
  rewrite (lookup_fmap_inj hash_tuple _ s s' hash_exact), Hs, Hs'.
  rewrite <- sort_row_eq_iff. split; congruence.
Qed.

(** Symmetry for every array in which every face vertex-set occurs at
    most twice. *)
Theorem exact_key_symmetry (tets : list tet) (EToE EToF : ndarray) :
  __compute_element_connectivity hash_tuple argsort tets = Some (EToE, EToF) →
  pairs_only (sorted_face_vertices tets) →
  symmetric (length tets) EToE EToF.
Proof.
  intros Hrun Hpairs.
  apply (symmetry_of_paired_keys hash_tuple argsort argsort_ok tets); [done|].
  unfold face_keys. by apply pairs_only_fmap.
Qed.

Lemma relabel_same_vertices (p : Z → Z) (r r' : face) :
  (∀ v w, p v = p w → v = w) →
  same_vertices (relabel_face p r) (relabel_face p r') ↔ same_vertices r r'.
Proof.
  intros Hinj. destruct r as [[a b] c], r' as [[a' b'] c'].
  unfold same_vertices, relabel_face. split.
  - intros Hp.
    change [p a; p b; p c] with (map p [a; b; c]) in Hp.
    change [p a'; p b'; p c'] with (map p [a'; b'; c']) in Hp.
    apply Permutation_map_inv in Hp as (l3 & Heq & Hp).
    assert (l3 = [a; b; c]) as ->.
    { destruct l3 as [|x [|y [|z [|? ?]]]]; simplify_eq/=.
      f_equal; [|f_equal; [|f_equal]]; symmetry; by apply Hinj. }
    done.
  - intros Hp.
    change [p a; p b; p c] with (p <$> [a; b; c]).
    change [p a'; p b'; p c'] with (p <$> [a'; b'; c']).
    by rewrite Hp.
Qed.

Lemma sorted_face_vertices_relabel (p : Z → Z) (tets : list tet) :
  sorted_face_vertices (relabel p tets)
  = (λ r, sort_row (relabel_face p r)) <$>
      vstack [cols012 <$> tets; cols013 <$> tets; cols123 <$> tets; cols023 <$> tets].
Proof.
  unfold sorted_face_vertices, relabel, vstack. simpl.
  rewrite !app_nil_r, !fmap_app, <- !list_fmap_compose.
  f_equal; [|f_equal; [|f_equal]];
    apply list_fmap_ext; by intros ? [[[??]?]?] _.
Qed.

(** The candidates of a slot do not depend on the numbering of the
    vertices. *)
Lemma candidates_relabel (p : Z → Z) (tets : list tet) (s : nat) :
  (∀ v w, p v = p w → v = w) →
  candidates (sorted_face_vertices (relabel p tets)) s
  = candidates (sorted_face_vertices tets) s.
Proof.
  intros Hinj. rewrite sorted_face_vertices_relabel.
  unfold sorted_face_vertices.
  set (rows := vstack _).
  unfold candidates. rewrite !length_fmap.
  apply filter_ext_in. intros s' _.
  rewrite !list_lookup_fmap.
  destruct (rows !! s') as [r'|], (rows !! s) as [r|]; simpl;
    [|split; intros [? ?]; done..].
  assert (sort_row (relabel_face p r') = sort_row (relabel_face p r) ↔
          sort_row r' = sort_row r) as Hiff.
  { by rewrite !sort_row_eq_iff, relabel_same_vertices. }
  split; intros [Hne Heq]; (split; [done|]); f_equal;
    apply Hiff; congruence.
Qed.

(** Renumbering the vertices leaves both tables unchanged, for every
    array in which every face vertex-set occurs at most twice. *)
Theorem exact_key_relabel_invariant (p : Z → Z) (tets : list tet) :
  (∀ v w, p v = p w → v = w) →
  pairs_only (sorted_face_vertices tets) →
  __compute_element_connectivity hash_tuple argsort (relabel p tets)
  = __compute_element_connectivity hash_tuple argsort tets.
Proof.
  intros Hinj Hpairs.
  destruct tets as [|t tets]; [done|].
  set (ts := t :: tets) in *.
  assert (Hlen : length (relabel p ts) = length ts)
    by (unfold relabel; by rewrite length_fmap).
  assert (Hcand : ∀ s, candidates (face_keys hash_tuple (relabel p ts)) s
                       = candidates (face_keys hash_tuple ts) s).
  { intros s. unfold face_keys.
    rewrite !(candidates_fmap hash_tuple) by done. by apply candidates_relabel. }
  assert (Hpairs' : pairs_only (face_keys hash_tuple (relabel p ts))).
  { unfold pairs_only. rewrite length_face_keys, Hlen, <- (length_face_keys hash_tuple).
    apply Forall_forall. intros s Hs. rewrite Hcand.
    apply (pairs_only_fmap hash_tuple) in Hpairs; [|done].
    unfold pairs_only in Hpairs. rewrite Forall_forall in Hpairs. by apply Hpairs. }
  rewrite !(compute_element_connectivity_exact hash_tuple argsort argsort_ok);
    try done.
  - rewrite Hlen. f_equal.
    f_equal; f_equal; apply fmap_seq_ext; intros s _; unfold mate;
      by rewrite Hcand.
  - unfold face_keys. by apply pairs_only_fmap.
Qed.
End ExactKey.

(** ** The store model: what the builder changes *)

Section HeapFacts.
Import Numpy HeapModel.

Variable hash_tuple : face → Z.
Variable argsort : list Z → list nat.

Lemma run_alloc (o : pyobj) (h ext : heap) :
  alloc o (h ++ ext) = Some (length h + length ext, h ++ (ext ++ [o])).
Proof. unfold alloc. by rewrite length_app, app_assoc. Qed.

Lemma run_load (h ext : heap) (i : nat) (o : pyobj) :
  ext !! i = Some o → load (length h + i) (h ++ ext) = Some (o, h ++ ext).
Proof.
  intros Hi. unfold load.
  rewrite lookup_app_r by lia.
  replace (length h + i - length h) with i by lia. by rewrite Hi.
Qed.

Lemma run_load_old (h ext : heap) (l : loc) (o : pyobj) :
  h !! l = Some o → load l (h ++ ext) = Some (o, h ++ ext).
Proof.
  intros Hl. unfold load.
  rewrite lookup_app_l by by eapply lookup_lt_Some. by rewrite Hl.
Qed.

Lemma run_store (h ext : heap) (i : nat) (o o' : pyobj) :
  ext !! i = Some o' →
  store (length h + i) o (h ++ ext) = Some ((), h ++ <[i := o]> ext).
Proof.
  intros Hi. unfold store. apply lookup_lt_Some in Hi.
  rewrite decide_True by (rewrite length_app; lia).
  rewrite insert_app_r_alt by lia.
  by replace (length h + i - length h) with i by lia.
Qed.

Lemma run_load_tets (h ext : heap) (l : loc) (t : list tet) :
  h !! l = Some (OTets t) → load_tets l (h ++ ext) = Some (t, h ++ ext).
Proof.
  intros Hl. unfold load_tets, mbind, M_bind. by rewrite (run_load_old _ _ _ _ Hl).
Qed.

Lemma run_load_faces (h ext : heap) (i : nat) (rows : list face) :
  ext !! i = Some (OFaces rows) →
  load_faces (length h + i) (h ++ ext) = Some (rows, h ++ ext).
Proof.
  intros Hi. unfold load_faces, mbind, M_bind. by rewrite (run_load _ _ _ _ Hi).
Qed.

Lemma run_load_ints (h ext : heap) (i : nat) (xs : list Z) :
  ext !! i = Some (OInts xs) →
  load_ints (length h + i) (h ++ ext) = Some (xs, h ++ ext).
Proof.
  intros Hi. unfold load_ints, mbind, M_bind. by rewrite (run_load _ _ _ _ Hi).
Qed.

Lemma run_load_idx (h ext : heap) (i : nat) (xs : list nat) :
  ext !! i = Some (OIdx xs) →
  load_idx (length h + i) (h ++ ext) = Some (xs, h ++ ext).
Proof.
  intros Hi. unfold load_idx, mbind, M_bind. by rewrite (run_load _ _ _ _ Hi).
Qed.

Lemma run_load_grid (h ext : heap) (i : nat) (A : ndarray) :
  ext !! i = Some (OGrid A) →
  load_grid (length h + i) (h ++ ext) = Some (A, h ++ ext).
Proof.
  intros Hi. unfold load_grid, mbind, M_bind. by rewrite (run_load _ _ _ _ Hi).
Qed.

Lemma run_sort_last_axis (h ext : heap) (i : nat) (rows : list face) :
  ext !! i = Some (OFaces rows) →
  sort_last_axis (length h + i) (h ++ ext)
  = Some ((), h ++ <[i := OFaces (sort_row <$> rows)]> ext).
Proof.
  intros Hi. unfold sort_last_axis, mbind, M_bind.
  rewrite (run_load_faces _ _ _ _ Hi). by rewrite (run_store _ _ _ _ _ Hi).
Qed.

Lemma run_lift {A} (o : option A) (h : heap) :
  lift o h = match o with Some a => Some (a, h) | None => None end.
Proof. done. Qed.

Lemma run_index_ints (h ext : heap) (i j : nat) (xs : list Z) (idx : list nat) :
  ext !! i = Some (OInts xs) → ext !! j = Some (OIdx idx) →
  index_ints (length h + i) (length h + j) (h ++ ext)
  = match fancy xs idx with
    | Some r => Some (length h + length ext, h ++ (ext ++ [OInts r]))
    | None => None
    end.
Proof.
  intros Hi Hj. unfold index_ints, mbind, M_bind.
  rewrite (run_load_ints _ _ _ _ Hi), (run_load_idx _ _ _ _ Hj), run_lift.
  destruct (fancy xs idx); [|done]. by rewrite run_alloc.
Qed.

Lemma run_index_faces (h ext : heap) (i j : nat) (xs : list face) (idx : list nat) :
  ext !! i = Some (OFaces xs) → ext !! j = Some (OIdx idx) →
  index_faces (length h + i) (length h + j) (h ++ ext)
  = match fancy xs idx with
    | Some r => Some (length h + length ext, h ++ (ext ++ [OFaces r]))
    | None => None
    end.
Proof.
  intros Hi Hj. unfold index_faces, mbind, M_bind.
  rewrite (run_load_faces _ _ _ _ Hi), (run_load_idx _ _ _ _ Hj), run_lift.
  destruct (fancy xs idx); [|done]. by rewrite run_alloc.
Qed.

Lemma run_index_idx (h ext : heap) (i j : nat) (xs idx : list nat) :
  ext !! i = Some (OIdx xs) → ext !! j = Some (OIdx idx) →
  index_idx (length h + i) (length h + j) (h ++ ext)
  = match fancy xs idx with
    | Some r => Some (length h + length ext, h ++ (ext ++ [OIdx r]))
    | None => None
    end.
Proof.
  intros Hi Hj. unfold index_idx, mbind, M_bind.
  rewrite (run_load_idx _ _ _ _ Hi), (run_load_idx _ _ _ _ Hj), run_lift.
  destruct (fancy xs idx); [|done]. by rewrite run_alloc.
Qed.

Lemma run_assign_from (h ext : heap) (i : nat) (a : ndarray) (lhs rhs : list nat) :
  ext !! i = Some (OGrid a) →
  assign_from (length h + i) lhs rhs (h ++ ext)
  = match (rhs' ← mapM (unravel_index (shape a)) rhs;
           values ← getitems a rhs';
           lhs' ← mapM (unravel_index (shape a)) lhs;
           setitems a lhs' values) with
    | Some a' => Some ((), h ++ <[i := OGrid a']> ext)
    | None => None
    end.
Proof.
  intros Hi. unfold assign_from, mbind at 1 2 3 4 5 6, M_bind.
  rewrite (run_load_grid _ _ _ _ Hi), run_lift.
  destruct (mapM (unravel_index (shape a)) rhs) as [rhs'|]; [|done].
  rewrite run_lift. simpl.
  destruct (getitems a rhs') as [values|]; [|done]. simpl.
  rewrite (run_load_grid _ _ _ _ Hi), run_lift.
  destruct (mapM (unravel_index (shape a)) lhs) as [lhs'|]; [|done].
  rewrite run_lift. simpl.
  destruct (setitems a lhs' values) as [a'|]; [|done].
  by rewrite (run_store _ _ _ _ _ Hi).
Qed.

Lemma run_bind {A B} (m : M A) (k : A → M B) (h : heap) :
  (m ≫= k) h = match m h with
               | Some (a, h') => k a h'
               | None => None
               end.
Proof. done. Qed.

Lemma run_ret {A} (a : A) (h : heap) : (mret a : M A) h = Some (a, h).
Proof. done. Qed.

Lemma obind_None {A B} (f : A → option B) : None ≫= f = None.
Proof. done. Qed.

Ltac exec_step :=
  first
    [ rewrite run_bind
    | rewrite run_ret
    | rewrite run_lift
    | rewrite run_alloc
    | erewrite run_load_tets by eassumption
    | erewrite run_load_faces by reflexivity
    | erewrite run_load_ints by reflexivity
    | erewrite run_load_idx by reflexivity
    | erewrite run_sort_last_axis by reflexivity
    | erewrite run_index_ints by reflexivity
    | erewrite run_index_faces by reflexivity
    | erewrite run_index_idx by reflexivity
    | erewrite run_assign_from by reflexivity
    | progress cbn [length app insert list_insert]
    | progress cbv beta iota ].

Ltac pure_stage :=
  match goal with
  | |- match (?s ≫= _) with _ => _ end =>
      destruct s eqn:?;
      [rewrite ?obind_Some | rewrite ?obind_None; cbv beta iota; reflexivity]
  end.

Lemma compute_element_connectivity_refines_aux
    (h : heap) (l : loc) (t : list tet) :
  h !! l = Some (OTets t) →
  match Connectivity.__compute_element_connectivity hash_tuple argsort t with
  | Some (EToE, EToF) =>
      ∃ ext,
        __compute_element_connectivity hash_tuple argsort l (h ++ [])
        = Some ((length h + 2, length h + 3), h ++ ext) ∧
        ext !! 2 = Some (OGrid EToE) ∧ ext !! 3 = Some (OGrid EToF)
  | None => __compute_element_connectivity hash_tuple argsort l (h ++ []) = None
  end.
Proof.
  intros Hl.
  unfold __compute_element_connectivity, Connectivity.__compute_element_connectivity.
  unfold Connectivity.sorted_face_vertices.
  cbv zeta.
  repeat (repeat exec_step; pure_stage).
  repeat exec_step.
  eexists. split; [reflexivity|]. by split.
Qed.

(** The program over the store computes what the pure builder
    computes, fails when it fails, and only adds objects to the
    store. *)
Theorem compute_element_connectivity_refines
    (h : heap) (l : loc) (t : list tet) :
  h !! l = Some (OTets t) →
  match Connectivity.__compute_element_connectivity hash_tuple argsort t with
  | Some (EToE, EToF) =>
      ∃ ext,
        __compute_element_connectivity hash_tuple argsort l h
        = Some ((length h + 2, length h + 3), h ++ ext) ∧
        ext !! 2 = Some (OGrid EToE) ∧ ext !! 3 = Some (OGrid EToF)
  | None => __compute_element_connectivity hash_tuple argsort l h = None
  end.
Proof.
  intros Hl. pose proof (compute_element_connectivity_refines_aux h l t Hl) as H.
  by rewrite app_nil_r in H.
Qed.

Lemma lookup_fresh (h ext : heap) (i : nat) (o : pyobj) :
  ext !! i = Some o → (h ++ ext) !! (length h + i) = Some o.
Proof.
  intros Hi. rewrite lookup_app_r by lia.
  by replace (length h + i - length h) with i by lia.
Qed.

(** C9. The builder does not change its input: when it returns, every
    object that was in the store before the call, and so the array
    passed in, is unchanged; for a non-empty array it does return,
    [self.tets] and [EToV] are still the array passed in, and
    [self.EToE], [self.EToF] are new objects holding the tables. *)
Theorem C9_builder_does_not_mutate_its_input
    (h : heap) (tets : loc) (t : list tet) :
  h !! tets = Some (OTets t) →
  (∀ r h', __compute_element_connectivity hash_tuple argsort tets h = Some (r, h') →
     h' !! tets = Some (OTets t) ∧ ∀ l o, h !! l = Some o → h' !! l = Some o) ∧
  ((∀ keys, is_argsort keys (argsort keys)) → t ≠ [] →
   ∃ self h' EToE EToF,
     attach_connectivity hash_tuple argsort tets h = Some (self, h') ∧
     h' !! m_tets self = Some (OTets t) ∧
     h' !! EToV self = Some (OTets t) ∧
     (∀ l o, h !! l = Some o → h' !! l = Some o) ∧
     length h ≤ m_EToE self ∧ length h ≤ m_EToF self ∧
     Connectivity.__compute_element_connectivity hash_tuple argsort t
       = Some (EToE, EToF) ∧
     h' !! m_EToE self = Some (OGrid EToE) ∧
     h' !! m_EToF self = Some (OGrid EToF)).
Proof.
  intros Hl.
  pose proof (compute_element_connectivity_refines h tets t Hl) as Href.
  split.
  - intros r h' Hrun.
    destruct (Connectivity.__compute_element_connectivity hash_tuple argsort t)
      as [[EToE EToF]|]; [|congruence].
    destruct Href as (ext & Hrun' & _). rewrite Hrun in Hrun'.
    injection Hrun' as _ ->.
    split; [by apply lookup_app_l_Some|].
    intros l o Ho. by apply lookup_app_l_Some.
  - intros Hok Hne.
    destruct (compute_element_connectivity_returns hash_tuple argsort Hok t Hne)
      as [[EToE EToF] Hpure].
    rewrite Hpure in Href. destruct Href as (ext & Hrun & HE & HF).
    exists (MeshObj tets (length h + 2) (length h + 3)), (h ++ ext), EToE, EToF.
    unfold attach_connectivity, EToV. cbv zeta. rewrite run_bind, Hrun. simpl.
    split_and!; try done; try lia.
    + by apply lookup_app_l_Some.
    + by apply lookup_app_l_Some.
    + intros l o Ho. by apply lookup_app_l_Some.
    + by apply lookup_fresh.
    + by apply lookup_fresh.
Qed.
End HeapFacts.

Section HeapWitness.
Import Numpy HeapModel Connectivity Examples.

Lemma C9_builder_does_not_mutate_its_input_witness :
  let h := [OTets two_tets] in
  (∀ r h', HeapModel.__compute_element_connectivity
             py_hash_tuple merge_argsort 0 h = Some (r, h') →
     h' !! 0 = Some (OTets two_tets) ∧ ∀ l o, h !! l = Some o → h' !! l = Some o) ∧
  ∃ self h' EToE EToF,
     attach_connectivity py_hash_tuple merge_argsort 0 h = Some (self, h') ∧
     h' !! m_tets self = Some (OTets two_tets) ∧
     h' !! EToV self = Some (OTets two_tets) ∧
     (∀ l o, h !! l = Some o → h' !! l = Some o) ∧
     length h ≤ m_EToE self ∧ length h ≤ m_EToF self ∧
     Connectivity.__compute_element_connectivity py_hash_tuple merge_argsort two_tets
       = Some (EToE, EToF) ∧
     h' !! m_EToE self = Some (OGrid EToE) ∧
     h' !! m_EToF self = Some (OGrid EToF).
Proof.
  intros h.
  destruct (C9_builder_does_not_mutate_its_input
              py_hash_tuple merge_argsort h 0 two_tets eq_refl) as [Hframe Hrun].
  split; [exact Hframe|].
  apply Hrun; [apply merge_argsort_ok|discriminate].
Defined.
End HeapWitness.

(** ** Dictionaries *)

Section DictFacts.
Import MeshStore.

Context {V : Type}.

Lemma dict_get_Some_keys (k : string) (v : V) (d : dict V) :
  dict_get k d = Some v → k ∈ dict_keys d.
Proof.
  induction d as [|[k' v'] d IH]; simpl; [done|].
  case_decide; intros ?; simplify_eq; [by left|right; auto].
Qed.

Lemma dict_get_is_Some (k : string) (d : dict V) :
  k ∈ dict_keys d → is_Some (dict_get k d).
Proof.
  induction d as [|[k' v'] d IH]; simpl.
  - intros H. by apply elem_of_nil in H.
  - intros H. case_decide; [eauto|].
    apply elem_of_cons in H as [->|H]; [done|auto].
Qed.

Lemma dict_get_None_keys (k : string) (d : dict V) :
  dict_get k d = None → k ∉ dict_keys d.
Proof.
  intros Hnone Hin. apply dict_get_is_Some in Hin as [v Hv]. congruence.
Qed.

Lemma dict_keys_set {W} (k : string) (v : V) (w : W) (d : dict V) (d' : dict W) :
  dict_keys d = dict_keys d' →
  dict_keys (dict_set k v d) = dict_keys (dict_set k w d').
Proof.
  revert d'. induction d as [|[k1 v1] d IH]; intros [|[k2 v2] d'] Hk;
    simplify_eq/=; [done|].
  repeat case_decide; simplify_eq/=; f_equal; auto.
Qed.

Lemma dict_keys_set_elem (k k' : string) (v : V) (d : dict V) :
  k' ∈ dict_keys (dict_set k v d) ↔ k' = k ∨ k' ∈ dict_keys d.
Proof.
  induction d as [|[k1 v1] d IH]; simpl.
  - rewrite list_elem_of_singleton. split; [auto|]. intros [?|H]; [done|].
    by apply elem_of_nil in H.
  - case_decide; simplify_eq/=; rewrite !elem_of_cons, ?IH; tauto.
Qed.

Lemma dict_set_NoDup (k : string) (v : V) (d : dict V) :
  NoDup (dict_keys d) → NoDup (dict_keys (dict_set k v d)).
Proof.
  induction d as [|[k1 v1] d IH]; simpl; intros Hnd.
  - apply NoDup_singleton.
  - apply list.NoDup_cons in Hnd as [Hnot Hnd].
    case_decide; simplify_eq/=; apply list.NoDup_cons; split; auto.
    rewrite dict_keys_set_elem. intros [?|?]; done.
Qed.

(** In a dict every item is found under its key. *)
Lemma dict_get_item (d : dict V) (k : string) (v : V) :
  NoDup (dict_keys d) → (k, v) ∈ d → dict_get k d = Some v.
Proof.
  induction d as [|[k1 v1] d IH]; simpl; intros Hnd Hin.
  - by apply elem_of_nil in Hin.
  - apply list.NoDup_cons in Hnd as [Hnot Hnd].
    apply elem_of_cons in Hin as [?|Hin]; simplify_eq.
    + by rewrite decide_True.
    + rewrite decide_False; [auto|].
      intros ->. apply Hnot. apply list_elem_of_fmap. by exists (k, v).
Qed.

Lemma dict_equal_refl (eqb : V → V → bool) (d : dict V) :
  (∀ v, eqb v v = true) → NoDup (dict_keys d) → dict_equal eqb d d = true.
Proof.
  intros Hrefl Hnd. unfold dict_equal.
  rewrite bool_decide_eq_true_2 by done. simpl.
  apply forallb_forall. intros [k v] Hin. simpl.
  apply list_elem_of_In in Hin. by rewrite (dict_get_item d k v).
Qed.

(** Equal dicts have the same keys. *)
Lemma dict_equal_keys (eqb : V → V → bool) (a b : dict V) (k : string) :
  dict_equal eqb a b = true → k ∈ dict_keys a → k ∈ dict_keys b.
Proof.
  unfold dict_equal. intros [_ Hall]%andb_true_iff Hk.
  apply list_elem_of_fmap in Hk as ([k' v] & -> & Hin).
  rewrite forallb_forall in Hall.
  specialize (Hall (k', v)). simpl in *.
  destruct (dict_get k' b) as [w|] eqn:Hget.
  - by eapply dict_get_Some_keys.
  - apply list_elem_of_In in Hin. by apply Hall in Hin.
Qed.
End DictFacts.

(** ** [Mesh.__init_from_file] *)

Section InitFacts.
Import Numpy MeshStore.

Variable hash_tuple : face → Z.
Variable argsort : list Z → list nat.

Lemma rbind_Ok {A B} (f : A → result B) (a : A) : Ok a ≫= f = f a.
Proof. done. Qed.

Lemma rbind_Raise {A B} (f : A → result B) (e : exn) : Raise e ≫= f = Raise e.
Proof. done. Qed.

Lemma sorted_eq_iff (a b : list Z) : sorted a = sorted b ↔ a ≡ₚ b.
Proof.
  unfold sorted. split.
  - intros Heq.
    rewrite <- (merge_sort_Permutation Z.le a), Heq.
    apply merge_sort_Permutation.
  - intros Hp. apply (Sorted_unique Z.le).
    + apply Sorted_merge_sort, _.
    + apply Sorted_merge_sort, _.
    + by rewrite !merge_sort_Permutation.
Qed.

(** The comparison of the two sorted lists succeeds exactly when the
    values of [BC_labels] are pairwise different and are, as a set,
    the codes of the mesh. *)
Lemma labels_check (values codes : list Z) :
  sorted values = sorted (unique codes) ↔
  NoDup values ∧ ∀ c, c ∈ values ↔ c ∈ codes.
Proof.
  rewrite sorted_eq_iff. unfold unique.
  rewrite merge_sort_Permutation. split.
  - intros Hp. split.
    + rewrite Hp. apply NoDup_remove_dups.
    + intros c. by rewrite Hp, elem_of_remove_dups.
  - intros [Hnd Hel]. apply NoDup_Permutation; [done|apply NoDup_remove_dups|].
    intros c. by rewrite elem_of_remove_dups.
Qed.

Lemma partition_step_inv (md : mesh_data) (labels : dict Z)
    (acc acc' : dict nat * dict (list face)) (k : string) :
  partition_step md labels acc k = Ok acc' →
  dict_keys acc.1 = dict_keys acc.2 → NoDup (dict_keys acc.1) →
  dict_keys acc'.1 = dict_keys acc'.2 ∧ NoDup (dict_keys acc'.1).
Proof.
  unfold partition_step. intros Hstep Hk Hnd.
  destruct (key_lookup (physical_triangle md)) as [physical|]; [|done].
  rewrite rbind_Ok in Hstep.
  destruct (subscript labels k) as [code|]; [|done].
  rewrite rbind_Ok in Hstep. cbv zeta in Hstep.
  destruct (key_lookup (cells_triangle md)) as [triangles|]; [|done].
  rewrite rbind_Ok in Hstep.
  destruct (mask_select _ _) as [selected|]; [|done].
  rewrite rbind_Ok in Hstep. injection Hstep as <-. simpl.
  split; [by apply dict_keys_set|by apply dict_set_NoDup].
Qed.


Lemma for_each_partition_inv (md : mesh_data) (labels : dict Z)
    (keys : list string) (acc acc' : dict nat * dict (list face)) :
  for_each (partition_step md labels) acc keys = Ok acc' →
  dict_keys acc.1 = dict_keys acc.2 → NoDup (dict_keys acc.1) →
  dict_keys acc'.1 = dict_keys acc'.2 ∧ NoDup (dict_keys acc'.1).
Proof.
  revert acc. induction keys as [|k keys IH]; intros acc; simpl.
  - intros ?; simplify_eq. auto.
  - destruct (partition_step md labels acc k) as [acc1|] eqn:Hstep; [|done].
    rewrite rbind_Ok. intros Hrest Hk Hnd.
    destruct (partition_step_inv _ _ _ _ _ Hstep Hk Hnd). eauto.
Qed.


(** The fields of a constructed mesh. *)
Lemma init_fields (md : mesh_data) (labels : dict Z) (m : Mesh) :
  __init_from_file hash_tuple argsort md labels = Ok m →
  ∃ physical parts tetra,
    physical_triangle md = Some physical ∧
    sorted (dict_values labels) = sorted (unique physical) ∧
    for_each (partition_step md labels) ([], []) (dict_keys labels) = Ok parts ∧
    cells_tetra md = Some tetra ∧
    N_vertices m = (fshape (points md)).1 ∧ vertices m = points md ∧
    N_BC_triangles m = parts.1 ∧ BC_triangles m = parts.2 ∧
    N_tets m = length tetra ∧ tets m = tetra ∧
    Connectivity.__compute_element_connectivity hash_tuple argsort tetra
      = Some (EToE m, EToF m).
Proof.
  unfold __init_from_file. cbv zeta. intros Hinit.
  destruct (physical_triangle md) as [physical|]; [|done].
  simpl key_lookup in Hinit. rewrite rbind_Ok in Hinit.
  case_bool_decide as Hcheck; [|done]. simpl negb in Hinit. cbv iota in Hinit.
  destruct (for_each _ _ _) as [parts|] eqn:Hparts; [|done].
  rewrite rbind_Ok in Hinit.
  destruct (cells_tetra md) as [tetra|]; [|done].
  simpl key_lookup in Hinit. rewrite rbind_Ok in Hinit.
  destruct (Connectivity.__compute_element_connectivity _ _ _)
    as [[E F]|] eqn:Hconn; [|done].
  injection Hinit as <-. simpl.
  exists physical, parts, tetra. split_and!; done.
Qed.

(** The two dicts of a constructed mesh have the same keys, each
    once. *)
Lemma init_keys (md : mesh_data) (labels : dict Z) (m : Mesh) :
  __init_from_file hash_tuple argsort md labels = Ok m →
  dict_keys (N_BC_triangles m) = dict_keys (BC_triangles m) ∧
  NoDup (dict_keys (N_BC_triangles m)).
Proof.
  intros Hinit.
  destruct (init_fields _ _ _ Hinit)
    as (physical & parts & tetra & _ & _ & Hparts & _ & _ & _ & -> & -> & _).
  apply (for_each_partition_inv _ _ _ _ _ Hparts); [done|apply NoDup_nil_2].
Qed.

End InitFacts.

(** ** [Mesh.__eq__] *)

Section EqFacts.
Import Numpy MeshStore.

Lemma SFeqb_refl (x : spec_float) : x ≠ S754_nan → SFeqb x x = true.
Proof.
  intros Hx. unfold SFeqb.
  destruct x as [s|s| |s m e]; simpl; try done.
  - by destruct s.
  - rewrite Z.compare_refl, Pos.compare_cont_refl. by destruct s.
Qed.

Lemma all_equal_float_refl (l : list spec_float) :
  Forall (λ x, x ≠ S754_nan) l → all_equal_float l l = true.
Proof.
  induction 1 as [|x l Hx _ IH]; simpl; [done|].
  by rewrite SFeqb_refl, IH.
Qed.

Lemma all_equal_float_changed (l : list spec_float) (i : nat) (x y : spec_float) :
  l !! i = Some x → SFeqb x y = false →
  all_equal_float l (<[i := y]> l) = false.
Proof.
  revert i. induction l as [|z l IH]; intros [|i] Hi Hxy; simplify_eq/=.
  - by rewrite Hxy.
  - rewrite (IH i) by done. apply andb_false_r.
Qed.

Lemma all_items_equal_true (items other : dict (list face)) :
  all_items_equal items other = Ok true ↔
  Forall (λ kv, dict_get kv.1 other = Some kv.2) items.
Proof.
  induction items as [|[k item] items IH]; simpl.
  - split; [constructor|done].
  - rewrite list.Forall_cons. simpl. unfold subscript.
    destruct (dict_get k other) as [o|] eqn:Hget; simpl.
    + unfold array_equal. case_bool_decide as Heq.
      * rewrite IH. subst. tauto.
      * split; [done|]. intros [H _]. congruence.
    + split; [done|]. by intros [H _].
Qed.

Lemma all_items_equal_refl (d : dict (list face)) :
  NoDup (dict_keys d) → all_items_equal d d = Ok true.
Proof.
  intros Hnd. apply all_items_equal_true, Forall_forall.
  intros [k v] Hin. simpl. apply dict_get_item; [done|].
  by apply list_elem_of_In.
Qed.

(** The lookups of [other.BC_triangles[key]] succeed when every key
    of [self.BC_triangles] is a key of [other.BC_triangles]. *)
Lemma all_items_equal_total (items other : dict (list face)) :
  (∀ k, k ∈ dict_keys items → k ∈ dict_keys other) →
  ∃ b, all_items_equal items other = Ok b.
Proof.
  induction items as [|[k item] items IH]; simpl; intros Hsub; [eauto|].
  destruct (dict_get_is_Some k other) as [o Ho]; [apply Hsub; by left|].
  unfold subscript. rewrite Ho, ?rbind_Ok.
  destruct (array_equal item o); [|eauto].
  apply IH. intros k' Hk'. apply Hsub. by right.
Qed.

Lemma all_items_equal_exn (items other : dict (list face)) (e : exn) :
  all_items_equal items other = Raise e → e = KeyError.
Proof.
  induction items as [|[k item] items IH]; simpl; [done|].
  unfold subscript. destruct (dict_get k other) as [o|].
  - rewrite ?rbind_Ok. destruct (array_equal item o); [done|done].
  - rewrite ?rbind_Raise. by intros ?; simplify_eq.
Qed.

(** What [==] on two meshes checks. *)
Lemma eq_true_iff (a b : Mesh) :
  __eq__ a (VMesh b) = Ok true ↔
  N_vertices a = N_vertices b ∧ N_tets a = N_tets b ∧
  dict_equal Nat.eqb (N_BC_triangles a) (N_BC_triangles b) = true ∧
  array_equal_float (vertices a) (vertices b) = true ∧
  tets a = tets b ∧
  Forall (λ kv, dict_get kv.1 (BC_triangles b) = Some kv.2) (BC_triangles a).
Proof.
  unfold __eq__, array_equal.
  repeat case_bool_decide; simpl;
    destruct (dict_equal _ _ _) eqn:?; simpl;
    destruct (array_equal_float _ _) eqn:?; simpl;
    rewrite ?all_items_equal_true;
    (split;
     [ intros Hx; try discriminate Hx; by repeat split
     | intros (? & ? & ? & ? & ? & ?); first [done | congruence] ]).
Qed.

Lemma eq_raises_after_counts (a b : Mesh) (e : exn) :
  __eq__ a (VMesh b) = Raise e →
  e = KeyError ∧
  dict_equal Nat.eqb (N_BC_triangles a) (N_BC_triangles b) = true.
Proof.
  unfold __eq__. intros Hraise.
  repeat case_bool_decide; simpl in Hraise; try discriminate Hraise.
  destruct (dict_equal _ _ _); simpl in Hraise; try discriminate Hraise.
  destruct (array_equal_float _ _); simpl in Hraise; try discriminate Hraise.
  destruct (array_equal (tets a) (tets b)); simpl in Hraise;
    try discriminate Hraise.
  split; [by eapply all_items_equal_exn|done].
Qed.

Lemma eq_ignores_adjacency (a b : Mesh) (E F E' F' : ndarray) :
  __eq__ (with_adjacency a E F) (VMesh (with_adjacency b E' F'))
  = __eq__ a (VMesh b).
Proof. done. Qed.

Lemma eq_not_mesh (a : Mesh) (x : pyvalue) :
  (∀ o, x ≠ VMesh o) → __eq__ a x = Ok false.
Proof. intros Hx. destruct x; try done. by destruct (Hx m). Qed.

(** Two meshes whose dicts are well formed compare without raising. *)
Lemma eq_total (a b : Mesh) :
  dict_keys (N_BC_triangles a) = dict_keys (BC_triangles a) →
  dict_keys (N_BC_triangles b) = dict_keys (BC_triangles b) →
  ∃ r, __eq__ a (VMesh b) = Ok r.
Proof.
  intros Ha Hb. destruct (__eq__ a (VMesh b)) as [r|e] eqn:Heq; [eauto|].
  exfalso. destruct (eq_raises_after_counts _ _ _ Heq) as [-> Hdict].
  revert Heq. unfold __eq__.
  repeat case_bool_decide; simpl; try done.
  rewrite Hdict. simpl.
  destruct (array_equal_float _ _); simpl; try done.
  destruct (array_equal (tets a) (tets b)); simpl; try done.
  destruct (all_items_equal_total (BC_triangles a) (BC_triangles b)) as [r ->];
    [|done].
  intros k Hk. rewrite <- Hb. rewrite <- Ha in Hk.
  by eapply dict_equal_keys.
Qed.
End EqFacts.

(** ** Values of the model on small inputs *)

Section Checks.
Import Numpy Connectivity ConnSpec MeshStore Examples.
Local Open Scope Z_scope.

(** [hash(())], [hash((0, 1, 2))], [hash(-1)] and [hash(2**61 - 1)]
    of 64-bit CPython. *)
Example tuplehash_empty : PyHash.tuplehash [] = 5740354900026072187.
Proof. vm_compute. reflexivity. Qed.

Example tuplehash_012 : PyHash.tuplehash [0; 1; 2] = 2187946392326065592.
Proof. vm_compute. reflexivity. Qed.

Example long_hash_minus_1 : PyHash.long_hash (-1) = -2.
Proof. vm_compute. reflexivity. Qed.

Example long_hash_modulus : PyHash.long_hash (2 ^ 61 - 1) = 0.
Proof. vm_compute. reflexivity. Qed.

(** The collision used in the scenarios. *)
Example tuplehash_collision :
  PyHash.tuplehash [9; 10; 477945] = -8094804343624863230 ∧
  PyHash.tuplehash [13824; 136487; 136488] = -8094804343624863230.
Proof. split; vm_compute; reflexivity. Qed.

(** The tables for [colliding_triple] with [merge_argsort], which
    here leaves the three equal keys in slot order. *)
Example colliding_triple_tables :
  ∃ EToE EToF,
    __compute_element_connectivity py_hash_tuple merge_argsort colliding_triple
      = Some (EToE, EToF) ∧
    tolist EToE = [[1; 0; 1]; [0; 1; 2]; [0; 1; 2]; [0; 1; 2]]%nat ∧
    tolist EToF = [[0; 0; 0]; [1; 1; 1]; [2; 2; 2]; [3; 3; 3]]%nat.
Proof.
  eexists _, _. split; [vm_compute; reflexivity|].
  split; vm_compute; reflexivity.
Qed.

(** [==] on doubles: a NaN is not equal to itself, and the two zeros
    are equal. *)
Example nan_is_not_equal_to_itself : SFeqb S754_nan S754_nan = false.
Proof. reflexivity. Qed.

Example zeros_are_equal : SFeqb (S754_zero false) (S754_zero true) = true.
Proof. reflexivity. Qed.

(** The mesh built from [unit_tet_file]. *)
Example unit_tet_mesh :
  ∃ m,
    __init_from_file py_hash_tuple merge_argsort unit_tet_file one_label = Ok m ∧
    N_vertices m = 4%nat ∧ N_tets m = 1%nat ∧
    N_BC_triangles m = [("wall"%string, 4%nat)] ∧
    EToV m = [(0, 1, 2, 3)].
Proof.
  eexists. split; [vm_compute; reflexivity|]. by repeat split.
Qed.
End Checks.

(** ** The connectivity builder on the scenario meshes *)

Section ConnectivityClaims.
Import Numpy Connectivity ConnSpec Examples.

Ltac decide_by_computation :=
  unfold pairs_only; apply (bool_decide_unpack _); vm_compute; exact I.

(** Evaluate the builder on a concrete mesh none of whose keys is
    carried by more than two slots. *)
Ltac eval_builder Hok tets H :=
  pose proof (compute_element_connectivity_exact py_hash_tuple _ Hok tets) as H;
  cbv zeta in H;
  specialize (H ltac:(intros Hnil; vm_compute in Hnil; discriminate Hnil)
                ltac:(decide_by_computation));
  match type of H with
  | _ = Some (?a, ?b) =>
      let a' := eval vm_compute in a in
      let b' := eval vm_compute in b in
      replace a with a' in H by (vm_compute; reflexivity);
      replace b with b' in H by (vm_compute; reflexivity)
  end.

Ltac run_exact Hok tets :=
  let H := fresh "Hrun" in
  eval_builder Hok tets H; rewrite H; clear H.

Ltac no_candidates :=
  apply unmatched_candidates;
    [vm_compute; lia | vm_compute; reflexivity].

(** C6. For [tets = [[0,1,2,3],[1,2,3,4]]] the builder returns tables
    in which local face 2 of element 0 and local face 0 of element 1
    refer to each other ([EToE[2,0] = 1], [EToF[2,0] = 0],
    [EToE[0,1] = 0], [EToF[0,1] = 2]) and the six other face slots
    refer to themselves. *)
Theorem C6_two_tets_one_shared_face (argsort : list Z → list nat) :
  (∀ keys, is_argsort keys (argsort keys)) →
  ∃ EToE EToF,
    __compute_element_connectivity py_hash_tuple argsort two_tets
      = Some (EToE, EToF) ∧
    at_ EToE 2 0 = Some 1 ∧ at_ EToF 2 0 = Some 0 ∧
    at_ EToE 0 1 = Some 0 ∧ at_ EToF 0 1 = Some 2 ∧
    (∀ f e, f < 4 → e < 2 → (f, e) ≠ (2, 0) → (f, e) ≠ (0, 1) →
       at_ EToE f e = Some e ∧ at_ EToF f e = Some f) ∧
    tolist EToE = [[0; 0]; [0; 1]; [1; 1]; [0; 1]] ∧
    tolist EToF = [[0; 2]; [1; 1]; [0; 2]; [3; 3]].
Proof.
  intros Hok. run_exact Hok two_tets.
  eexists _, _. split; [reflexivity|].
  split_and!; try (vm_compute; reflexivity).
  intros f e Hf He H20 H01.
  destruct f as [|[|[|[|f]]]]; try lia;
    destruct e as [|[|e]]; try lia; try done;
    vm_compute; done.
Qed.

Lemma C6_two_tets_one_shared_face_witness :
  ∃ EToE EToF,
    __compute_element_connectivity py_hash_tuple merge_argsort two_tets
      = Some (EToE, EToF) ∧
    at_ EToE 2 0 = Some 1 ∧ at_ EToF 2 0 = Some 0 ∧
    at_ EToE 0 1 = Some 0 ∧ at_ EToF 0 1 = Some 2 ∧
    (∀ f e, f < 4 → e < 2 → (f, e) ≠ (2, 0) → (f, e) ≠ (0, 1) →
       at_ EToE f e = Some e ∧ at_ EToF f e = Some f) ∧
    tolist EToE = [[0; 0]; [0; 1]; [1; 1]; [0; 1]] ∧
    tolist EToF = [[0; 2]; [1; 1]; [0; 2]; [3; 3]].
Proof.
  exact (C6_two_tets_one_shared_face merge_argsort merge_argsort_ok).
Defined.

(** C7, as stated, fails on the literal tables: for a single
    tetrahedron the builder does not return [EToE = [[0,0,0,0]]],
    [EToF = [[0,1,2,3]]]; the tables have four rows of one entry. *)
Lemma C7_single_tet_tables_are_not_rows :
  ¬ ∃ EToE EToF,
      __compute_element_connectivity py_hash_tuple merge_argsort single_tet
        = Some (EToE, EToF) ∧
      tolist EToE = [[0; 0; 0; 0]] ∧ tolist EToF = [[0; 1; 2; 3]].
Proof.
  intros (EToE & EToF & Hrun & HE & _).
  eval_builder merge_argsort_ok single_tet H.
  rewrite H in Hrun. clear H. injection Hrun as <- <-.
  vm_compute in HE. discriminate HE.
Qed.

(** C7, amended. Every face slot whose match key is carried by no
    other slot keeps its initialization, [EToE[f,e] = e] and
    [EToF[f,e] = f]; a single tetrahedron yields
    [EToE = [[0],[0],[0],[0]]] and [EToF = [[0],[1],[2],[3]]]. *)
Theorem C7_unmatched_slots_keep_initialization
    (hash_tuple : face → Z) (argsort : list Z → list nat) :
  (∀ keys, is_argsort keys (argsort keys)) →
  (∀ tets EToE EToF f e,
      __compute_element_connectivity hash_tuple argsort tets = Some (EToE, EToF) →
      f < 4 → e < length tets →
      unmatched (face_keys hash_tuple tets) (slot (length tets) f e) →
      at_ EToE f e = Some e ∧ at_ EToF f e = Some f) ∧
  (∃ EToE EToF,
      __compute_element_connectivity py_hash_tuple argsort single_tet
        = Some (EToE, EToF) ∧
      tolist EToE = [[0]; [0]; [0]; [0]] ∧
      tolist EToF = [[0]; [1]; [2]; [3]]).
Proof.
  intros Hok. split.
  - intros tets EToE EToF f e. by apply unmatched_keeps_init.
  - run_exact Hok single_tet. eexists _, _. split; [reflexivity|].
    split; vm_compute; reflexivity.
Qed.

Lemma C7_unmatched_slots_keep_initialization_witness :
  (∀ EToE EToF,
      __compute_element_connectivity py_hash_tuple merge_argsort two_tets
        = Some (EToE, EToF) →
      at_ EToE 1 0 = Some 0 ∧ at_ EToF 1 0 = Some 1) ∧
  (∃ EToE EToF,
      __compute_element_connectivity py_hash_tuple merge_argsort single_tet
        = Some (EToE, EToF) ∧
      tolist EToE = [[0]; [0]; [0]; [0]] ∧
      tolist EToF = [[0]; [1]; [2]; [3]]).
Proof.
  destruct (C7_unmatched_slots_keep_initialization
              py_hash_tuple merge_argsort merge_argsort_ok) as [Hgen Hone].
  split; [|exact Hone].
  intros EToE EToF Hrun.
  apply (Hgen two_tets EToE EToF 1 0 Hrun); [vm_compute; lia..|].
  no_candidates.
Defined.

(** C4, as stated, fails: for two tetrahedra on either side of the
    face [{0,1,2}], which is local face 0 of both, [EToF[0,0] = 0]
    although [EToE[0,0] = 1]. *)
Lemma C4_mirrored_tets_counterexample :
  ∃ EToE EToF,
    __compute_element_connectivity py_hash_tuple merge_argsort mirrored_tets
      = Some (EToE, EToF) ∧
    ¬ (at_ EToE 0 0 = Some 0 ↔ at_ EToF 0 0 = Some 0).
Proof.
  run_exact merge_argsort_ok mirrored_tets.
  eexists _, _. split; [reflexivity|].
  vm_compute. intros [_ H]. specialize (H eq_refl). discriminate H.
Qed.

(** C4, amended. For every input array and the resulting tables, and
    for every element [e] and local face [f]: [EToE[f,e] = e] and
    [EToF[f,e] = f] hold together if and only if the match key of
    the slot is carried by no other face slot. *)
Theorem C4_self_reference_marks_unmatched_slots
    (hash_tuple : face → Z) (argsort : list Z → list nat)
    (tets : list tet) (EToE EToF : ndarray) (f e : nat) :
  (∀ keys, is_argsort keys (argsort keys)) →
  __compute_element_connectivity hash_tuple argsort tets = Some (EToE, EToF) →
  f < 4 → e < length tets →
  (at_ EToE f e = Some e ∧ at_ EToF f e = Some f) ↔
  unmatched (face_keys hash_tuple tets) (slot (length tets) f e).
Proof. intros Hok. by apply self_reference_iff_unmatched. Qed.

Lemma C4_self_reference_marks_unmatched_slots_witness :
  ∃ EToE EToF,
    __compute_element_connectivity py_hash_tuple merge_argsort mirrored_tets
      = Some (EToE, EToF) ∧
    ((at_ EToE 1 0 = Some 0 ∧ at_ EToF 1 0 = Some 1) ↔
     unmatched (face_keys py_hash_tuple mirrored_tets) (slot 2 1 0)).
Proof.
  destruct (__compute_element_connectivity py_hash_tuple merge_argsort mirrored_tets)
    as [[EToE EToF]|] eqn:Hrun; [|vm_compute in Hrun; discriminate Hrun].
  exists EToE, EToF. split; [reflexivity|].
  refine (C4_self_reference_marks_unmatched_slots
            py_hash_tuple merge_argsort mirrored_tets EToE EToF 1 0
            merge_argsort_ok Hrun _ _); vm_compute; lia.
Defined.

(** Replace the candidate list in [H : p ∈ match candidates .. end]
    and the entries read from the tables by their values. *)
Ltac eval_entry Hin HE HF :=
  match type of Hin with
  | _ ∈ ?c =>
      let c' := eval vm_compute in c in
      replace c with c' in Hin by (vm_compute; reflexivity)
  end;
  repeat (apply elem_of_cons in Hin as [->|Hin]);
  [.. | by apply elem_of_nil in Hin];
  match type of HE with
  | _ = ?r => let r' := eval vm_compute in r in change r with r' in HE
  end;
  match type of HF with
  | _ = ?r => let r' := eval vm_compute in r in change r with r' in HF
  end.

(** C1 at a failing input. In [colliding_triple] every face
    vertex-set occurs at most twice, but the face [{9,10,477945}]
    shared by elements 0 and 1 and face 0 of element 2 receive the
    same key; whatever order the sort gives to the three equal keys,
    the returned tables violate neighbour symmetry. *)
Theorem C1_symmetry_fails_on_colliding_keys (argsort : list Z → list nat) :
  (∀ keys, is_argsort keys (argsort keys)) →
  pairs_only (sorted_face_vertices colliding_triple) ∧
  ∃ EToE EToF,
    __compute_element_connectivity py_hash_tuple argsort colliding_triple
      = Some (EToE, EToF) ∧
    ¬ symmetric 3 EToE EToF.
Proof.
  intros Hok. split; [decide_by_computation|].
  destruct (compute_element_connectivity_returns
              py_hash_tuple argsort Hok colliding_triple)
    as [[EToE EToF] Hrun]; [done|].
  exists EToE, EToF. split; [done|]. intros Hsym.
  destruct (result_entry _ _ Hok _ _ _ 0 0 Hrun) as (p0 & Hin0 & HE0 & HF0);
    [vm_compute; lia..|].
  destruct (result_entry _ _ Hok _ _ _ 0 1 Hrun) as (p1 & Hin1 & HE1 & HF1);
    [vm_compute; lia..|].
  destruct (result_entry _ _ Hok _ _ _ 0 2 Hrun) as (p2 & Hin2 & HE2 & HF2);
    [vm_compute; lia..|].
  clear Hrun.
  eval_entry Hin0 HE0 HF0; eval_entry Hin1 HE1 HF1; eval_entry Hin2 HE2 HF2;
    destruct (Hsym 0 0 _ _ ltac:(lia) ltac:(lia) HE0 HF0 ltac:(lia)) as [X0 _];
    destruct (Hsym 1 0 _ _ ltac:(lia) ltac:(lia) HE1 HF1 ltac:(lia)) as [X1 _];
    destruct (Hsym 2 0 _ _ ltac:(lia) ltac:(lia) HE2 HF2 ltac:(lia)) as [X2 _];
    congruence.
Qed.

Lemma C1_symmetry_fails_on_colliding_keys_witness :
  pairs_only (sorted_face_vertices colliding_triple) ∧
  ∃ EToE EToF,
    __compute_element_connectivity py_hash_tuple merge_argsort colliding_triple
      = Some (EToE, EToF) ∧
    ¬ symmetric 3 EToE EToF.
Proof.
  exact (C1_symmetry_fails_on_colliding_keys merge_argsort merge_argsort_ok).
Defined.

(** C2 at a failing input. Face 0 of element 0 and face 0 of element
    1 of [colliding_pair] have no vertex in common, yet they receive
    equal match keys and the pairing step pairs them. *)
Theorem C2_distinct_faces_receive_equal_keys (argsort : list Z → list nat) :
  (∀ keys, is_argsort keys (argsort keys)) →
  sorted_face_vertices colliding_pair !! 0 = Some (9, 10, 477945)%Z ∧
  sorted_face_vertices colliding_pair !! 1 = Some (13824, 136487, 136488)%Z ∧
  ¬ same_vertices (9, 10, 477945)%Z (13824, 136487, 136488)%Z ∧
  face_keys py_hash_tuple colliding_pair !! 0
    = face_keys py_hash_tuple colliding_pair !! 1 ∧
  ∃ EToE EToF,
    __compute_element_connectivity py_hash_tuple argsort colliding_pair
      = Some (EToE, EToF) ∧
    at_ EToE 0 0 = Some 1 ∧ at_ EToE 0 1 = Some 0.
Proof.
  intros Hok. split_and!; try (vm_compute; reflexivity).
  - intros Hsame. apply sort_row_eq_iff in Hsame.
    vm_compute in Hsame. discriminate Hsame.
  - run_exact Hok colliding_pair. eexists _, _. split; [reflexivity|].
    split; vm_compute; reflexivity.
Qed.

Lemma C2_distinct_faces_receive_equal_keys_witness :
  sorted_face_vertices colliding_pair !! 0 = Some (9, 10, 477945)%Z ∧
  sorted_face_vertices colliding_pair !! 1 = Some (13824, 136487, 136488)%Z ∧
  ¬ same_vertices (9, 10, 477945)%Z (13824, 136487, 136488)%Z ∧
  face_keys py_hash_tuple colliding_pair !! 0
    = face_keys py_hash_tuple colliding_pair !! 1 ∧
  ∃ EToE EToF,
    __compute_element_connectivity py_hash_tuple merge_argsort colliding_pair
      = Some (EToE, EToF) ∧
    at_ EToE 0 0 = Some 1 ∧ at_ EToE 0 1 = Some 0.
Proof.
  exact (C2_distinct_faces_receive_equal_keys merge_argsort merge_argsort_ok).
Defined.

(** C8 at a failing input. Exchanging the vertex numbers 8 and 9 in
    [colliding_pair] removes the key collision: the original array
    yields [EToE[0,0] = 1], the renumbered one [EToE[0,0] = 0]. *)
Theorem C8_renumbering_changes_adjacency (argsort : list Z → list nat) :
  (∀ keys, is_argsort keys (argsort keys)) →
  (∀ v, swap_8_9 (swap_8_9 v) = v) ∧
  ∃ EToE EToF EToE' EToF',
    __compute_element_connectivity py_hash_tuple argsort colliding_pair
      = Some (EToE, EToF) ∧
    __compute_element_connectivity py_hash_tuple argsort
      (relabel swap_8_9 colliding_pair) = Some (EToE', EToF') ∧
    at_ EToE 0 0 = Some 1 ∧ at_ EToE' 0 0 = Some 0.
Proof.
  intros Hok. split.
  - intros v. unfold swap_8_9.
    destruct (Z.eqb_spec v 8) as [->|?]; [done|].
    destruct (Z.eqb_spec v 9) as [->|?]; [done|].
    destruct (Z.eqb_spec v 8); [done|]. by destruct (Z.eqb_spec v 9).
  - run_exact Hok colliding_pair.
    run_exact Hok (relabel swap_8_9 colliding_pair).
    eexists _, _, _, _. split; [reflexivity|]. split; [reflexivity|].
    split; vm_compute; reflexivity.
Qed.

Lemma C8_renumbering_changes_adjacency_witness :
  (∀ v, swap_8_9 (swap_8_9 v) = v) ∧
  ∃ EToE EToF EToE' EToF',
    __compute_element_connectivity py_hash_tuple merge_argsort colliding_pair
      = Some (EToE, EToF) ∧
    __compute_element_connectivity py_hash_tuple merge_argsort
      (relabel swap_8_9 colliding_pair) = Some (EToE', EToF') ∧
    at_ EToE 0 0 = Some 1 ∧ at_ EToE' 0 0 = Some 0.
Proof.
  exact (C8_renumbering_changes_adjacency merge_argsort merge_argsort_ok).
Defined.
End ConnectivityClaims.

(** ** Construction and equality of meshes *)

Section MeshClaims.
Import Numpy Connectivity MeshStore Examples.



Lemma partition_step_ext (md md' : mesh_data) (labels : dict Z)
    (acc : dict nat * dict (list face)) (k : string) :
  physical_triangle md = physical_triangle md' →
  cells_triangle md = cells_triangle md' →
  partition_step md labels acc k = partition_step md' labels acc k.
Proof. unfold partition_step. by intros -> ->. Qed.

Lemma for_each_partition_ext (md md' : mesh_data) (labels : dict Z)
    (keys : list string) (acc : dict nat * dict (list face)) :
  physical_triangle md = physical_triangle md' →
  cells_triangle md = cells_triangle md' →
  for_each (partition_step md labels) acc keys
  = for_each (partition_step md' labels) acc keys.
Proof.
  intros Hp Hc. revert acc. induction keys as [|k keys IH]; intros acc; [done|].
  simpl. rewrite (partition_step_ext md md') by done.
  destruct (partition_step md' labels acc k); simpl; [apply IH|done].
Qed.

(** C5, as stated, fails: a mesh built from a file with a NaN
    coordinate does not compare equal to a mesh built from the same
    file. *)
Lemma C5_nan_coordinate_counterexample :
  ∃ m m',
    __init_from_file py_hash_tuple merge_argsort nan_tet_file one_label = Ok m ∧
    __init_from_file py_hash_tuple merge_argsort nan_tet_file one_label = Ok m' ∧
    __eq__ m (VMesh m') = Ok false.
Proof.
  eexists _, _. split; [vm_compute; reflexivity|].
  split; [vm_compute; reflexivity|]. vm_compute. reflexivity.
Qed.

(** C5, amended. [==] on two meshes holds if and only if the vertex
    counts, the element counts and the per-label triangle counts
    match and the coordinate, tetrahedron and per-label triangle
    arrays are element-wise [==]; [EToE] and [EToF] play no role.
    Two meshes built from the same raw arrays, with the adjacency
    computed independently, compare equal when no coordinate is a
    NaN, and replacing one coordinate by a value that is not [==] to
    it makes them unequal. *)
Theorem C5_equality_contract
    (hash_tuple : face → Z) (argsort argsort' : list Z → list nat)
    (md : mesh_data) (labels : dict Z) (m m' : Mesh) :
  __init_from_file hash_tuple argsort md labels = Ok m →
  __init_from_file hash_tuple argsort' md labels = Ok m' →
  (∀ a b,
     __eq__ a (VMesh b) = Ok true ↔
     N_vertices a = N_vertices b ∧ N_tets a = N_tets b ∧
     dict_equal Nat.eqb (N_BC_triangles a) (N_BC_triangles b) = true ∧
     array_equal_float (vertices a) (vertices b) = true ∧
     tets a = tets b ∧
     Forall (λ kv, dict_get kv.1 (BC_triangles b) = Some kv.2) (BC_triangles a)) ∧
  (∀ a b E F E' F',
     __eq__ (with_adjacency a E F) (VMesh (with_adjacency b E' F'))
     = __eq__ a (VMesh b)) ∧
  (Forall (λ x, x ≠ S754_nan) (fdata (points md)) →
   __eq__ m (VMesh m') = Ok true) ∧
  (∀ i x y m2,
     fdata (points md) !! i = Some x → SFeqb x y = false →
     __init_from_file hash_tuple argsort' (with_coordinate md i y) labels = Ok m2 →
     __eq__ m (VMesh m2) = Ok false).
Proof.
  intros Hm Hm'.
  destruct (init_fields _ _ _ _ _ Hm)
    as (physical & parts & tetra & Hphys & _ & Hparts & Htetra &
        HNv & Hv & HN & HB & HNt & Ht & _).
  destruct (init_keys _ _ _ _ _ Hm) as [Hkeys Hnd].
  split_and!.
  - apply eq_true_iff.
  - apply eq_ignores_adjacency.
  - intros Hnan.
    destruct (init_fields _ _ _ _ _ Hm')
      as (physical' & parts' & tetra' & Hphys' & _ & Hparts' & Htetra' &
          HNv' & Hv' & HN' & HB' & HNt' & Ht' & _).
    assert (Hp : parts' = parts) by congruence.
    assert (Hte : tetra' = tetra) by congruence.
    rewrite Hp, Hte in *. clear Hp Hte.
    apply eq_true_iff.
    rewrite HNv, HNv', HNt, HNt', Hv, Hv', Ht, Ht', HN', HB'.
    rewrite <- HN, <- HB.
    split_and!; try done.
    + apply dict_equal_refl; [apply Nat.eqb_refl|done].
    + unfold array_equal_float.
      rewrite bool_decide_eq_true_2 by done.
      by rewrite all_equal_float_refl.
    + apply Forall_forall. intros [k v] Hin. simpl.
      apply dict_get_item; [by rewrite <- Hkeys|by apply list_elem_of_In].
  - intros i x y m2 Hx Hxy Hm2.
    destruct (init_fields _ _ _ _ _ Hm2)
      as (physical2 & parts2 & tetra2 & Hphys2 & _ & Hparts2 & Htetra2 &
          HNv2 & Hv2 & HN2 & HB2 & HNt2 & Ht2 & _).
    rewrite (for_each_partition_ext _ md) in Hparts2 by done.
    simpl in Htetra2.
    assert (Hp : parts2 = parts) by congruence.
    assert (Hte : tetra2 = tetra) by congruence.
    rewrite Hp, Hte in *. clear Hp Hte.
    unfold __eq__.
    rewrite HNv, HNv2, HNt, HNt2, Hv, Hv2, HN2.
    rewrite <- HN.
    rewrite !bool_decide_eq_true_2 by done. simpl negb. cbv iota.
    rewrite dict_equal_refl by (done || apply Nat.eqb_refl). simpl negb. cbv iota.
    unfold array_equal_float, with_coordinate. simpl fshape. simpl fdata.
    rewrite bool_decide_eq_true_2 by done.
    by rewrite (all_equal_float_changed _ i x y).
Qed.

Lemma C5_equality_contract_witness :
  ∃ m m',
    __init_from_file py_hash_tuple merge_argsort unit_tet_file one_label = Ok m ∧
    __init_from_file py_hash_tuple merge_argsort unit_tet_file one_label = Ok m' ∧
    __eq__ m (VMesh m') = Ok true ∧
    (∀ m2,
       __init_from_file py_hash_tuple merge_argsort
         (with_coordinate unit_tet_file 0 f1) one_label = Ok m2 →
       __eq__ m (VMesh m2) = Ok false).
Proof.
  destruct (__init_from_file py_hash_tuple merge_argsort unit_tet_file one_label)
    as [m|e] eqn:Hm; [|vm_compute in Hm; discriminate Hm].
  exists m, m. split; [reflexivity|]. split; [reflexivity|].
  destruct (C5_equality_contract py_hash_tuple merge_argsort merge_argsort
              unit_tet_file one_label m m Hm Hm) as (_ & _ & Hsame & Hchanged).
  split.
  - apply Hsame. unfold unit_tet_file, unit_tet_points. simpl.
    repeat constructor; discriminate.
  - intros m2. by apply (Hchanged 0 f0 f1 m2).
Defined.

(** C10. [mesh == x] returns [False] without raising for every [x]
    that is not a mesh; for two constructed meshes it returns
    without raising; and [other.BC_triangles[key]] is evaluated, and
    a [KeyError] the only exception possible, only after the
    [N_BC_triangles] dictionaries have compared equal. *)
Theorem C10_eq_is_total
    (hash_tuple : face → Z) (argsort argsort' : list Z → list nat)
    (md md' : mesh_data) (labels labels' : dict Z) (m m' : Mesh) :
  __init_from_file hash_tuple argsort md labels = Ok m →
  __init_from_file hash_tuple argsort' md' labels' = Ok m' →
  (∀ x, (∀ o, x ≠ VMesh o) → __eq__ m x = Ok false) ∧
  (∃ r, __eq__ m (VMesh m') = Ok r) ∧
  (∀ a b e, __eq__ a (VMesh b) = Raise e →
     e = KeyError ∧
     dict_equal Nat.eqb (N_BC_triangles a) (N_BC_triangles b) = true).
Proof.
  intros Hm Hm'. split_and!.
  - intros x. apply eq_not_mesh.
  - apply eq_total.
    + by destruct (init_keys _ _ _ _ _ Hm).
    + by destruct (init_keys _ _ _ _ _ Hm').
  - apply eq_raises_after_counts.
Qed.

Lemma C10_eq_is_total_witness :
  ∃ m,
    __init_from_file py_hash_tuple merge_argsort unit_tet_file one_label = Ok m ∧
    __eq__ m VNone = Ok false ∧ __eq__ m (VInt 3) = Ok false ∧
    __eq__ m (VStr "mesh") = Ok false ∧
    ∃ r, __eq__ m (VMesh m) = Ok r.
Proof.
  destruct (__init_from_file py_hash_tuple merge_argsort unit_tet_file one_label)
    as [m|e] eqn:Hm; [|vm_compute in Hm; discriminate Hm].
  exists m. split; [reflexivity|].
  destruct (C10_eq_is_total py_hash_tuple merge_argsort merge_argsort
              unit_tet_file unit_tet_file one_label one_label m m Hm Hm)
    as (Hother & Hmesh & _).
  split_and!; try (apply Hother; discriminate). exact Hmesh.
Defined.
End MeshClaims.

(** ** Face slots and their rows *)

Section FaceFacts.
Import Numpy Connectivity ConnSpec FaceSpec.

Variable hash_tuple : face → Z.
Variable argsort : list Z → list nat.
Hypothesis argsort_ok : ∀ keys, is_argsort keys (argsort keys).

(** Slot [f * N + e] of [face_vertices] holds the sorted vertices of
    local face [f] of element [e]. *)
Lemma sorted_face_vertices_slot (tets : list tet) (f e : nat) (t : tet) :
  f < 4 → tets !! e = Some t →
  sorted_face_vertices tets !! slot (length tets) f e
  = Some (sort_row (local_face f t)).
Proof.
  intros Hf Ht.
  assert (He : e < length tets) by (by eapply lookup_lt_Some).
  unfold sorted_face_vertices, vstack, slot. simpl. rewrite app_nil_r.
  rewrite list_lookup_fmap.
  destruct f as [|[|[|[|f]]]]; [| | | |lia]; simpl.
  - rewrite lookup_app_l by (rewrite length_fmap; lia).
    by rewrite list_lookup_fmap, Ht.
  - rewrite lookup_app_r by (rewrite length_fmap; lia).
    rewrite length_fmap.
    rewrite lookup_app_l by (rewrite length_fmap; lia).
    replace (length tets + 0 + e - length tets) with e by lia.
    by rewrite list_lookup_fmap, Ht.
  - rewrite lookup_app_r by (rewrite length_fmap; lia).
    rewrite length_fmap.
    rewrite lookup_app_r by (rewrite length_fmap; lia).
    rewrite length_fmap.
    rewrite lookup_app_l by (rewrite length_fmap; lia).
    replace (length tets + (length tets + 0) + e - length tets - length tets)
      with e by lia.
    by rewrite list_lookup_fmap, Ht.
  - rewrite lookup_app_r by (rewrite length_fmap; lia).
    rewrite length_fmap.
    rewrite lookup_app_r by (rewrite length_fmap; lia).
    rewrite length_fmap.
    rewrite lookup_app_r by (rewrite length_fmap; lia).
    rewrite length_fmap.
    replace (length tets + (length tets + (length tets + 0)) + e
             - length tets - length tets - length tets) with e by lia.
    by rewrite list_lookup_fmap, Ht.
Qed.

(** Every slot below [4 * N] is the slot of a local face of an
    element. *)
Lemma slot_of_position (tets : list tet) (s : nat) :
  s < 4 * length tets →
  ∃ f e t, f < 4 ∧ tets !! e = Some t ∧ s = slot (length tets) f e.
Proof.
  intros Hs.
  destruct (slot_parts_lt (length tets) s Hs) as [Hf He].
  destruct (lookup_lt_is_Some_2 tets (s mod length tets) He) as [t Ht].
  exists (s / length tets), (s mod length tets), t.
  by rewrite slot_encode.
Qed.

Lemma slot_inj (N f e f' e' : nat) :
  e < N → e' < N → slot N f e = slot N f' e' → f = f' ∧ e = e'.
Proof.
  intros He He' Heq.
  destruct (slot_decode N f e He) as [H1 H2].
  destruct (slot_decode N f' e' He') as [H3 H4].
  rewrite Heq in H1, H2. lia.
Qed.

(** Keys that are free of collisions on the rows of the array tell
    slots apart exactly as the rows do. *)
Lemma collision_free_inj (rows : list face) (r r' : face) :
  collision_free hash_tuple rows → r ∈ rows → r' ∈ rows →
  hash_tuple r = hash_tuple r' → r = r'.
Proof.
  unfold collision_free. rewrite list.Forall_forall. intros H Hr Hr'.
  specialize (H r Hr). rewrite list.Forall_forall in H. by apply H.
Qed.

Lemma lookup_fmap_inj_on {A B} (g : A → B) (l : list A) (s s' : nat) :
  (∀ x y, x ∈ l → y ∈ l → g x = g y → x = y) →
  (g <$> l) !! s = (g <$> l) !! s' ↔ l !! s = l !! s'.
Proof.
  intros Hinj. rewrite !list_lookup_fmap.
  destruct (l !! s) as [x|] eqn:Hx, (l !! s') as [y|] eqn:Hy; simpl;
    split; intros ?; simplify_eq; try done.
  f_equal. apply Hinj; [by eapply list_elem_of_lookup_2..|done].
Qed.

Lemma candidates_fmap_on {A B} `{EqDecision A} `{EqDecision B}
    (g : A → B) (l : list A) (s : nat) :
  (∀ x y, x ∈ l → y ∈ l → g x = g y → x = y) →
  candidates (g <$> l) s = candidates l s.
Proof.
  intros Hinj. unfold candidates. rewrite length_fmap.
  apply filter_ext_in. intros s' _.
  by rewrite (lookup_fmap_inj_on g l s' s Hinj).
Qed.

Lemma pairs_only_fmap_on {A B} `{EqDecision A} `{EqDecision B}
    (g : A → B) (l : list A) :
  (∀ x y, x ∈ l → y ∈ l → g x = g y → x = y) →
  pairs_only (g <$> l) ↔ pairs_only l.
Proof.
  intros Hinj. unfold pairs_only. rewrite length_fmap.
  rewrite !list.Forall_forall. split; intros H s Hs; specialize (H s Hs).
  - by rewrite candidates_fmap_on in H.
  - by rewrite candidates_fmap_on.
Qed.

Lemma face_keys_eq_iff (tets : list tet) (s s' : nat) :
  collision_free hash_tuple (sorted_face_vertices tets) →
  face_keys hash_tuple tets !! s = face_keys hash_tuple tets !! s' ↔
  sorted_face_vertices tets !! s = sorted_face_vertices tets !! s'.
Proof.
  intros Hfree. unfold face_keys. apply lookup_fmap_inj_on.
  intros x y. by apply collision_free_inj.
Qed.

(** The entries of the tables at [(f, e)], decoded. *)
Lemma result_entry_slot (tets : list tet) (EToE EToF : ndarray) (f e e2 f2 : nat) :
  __compute_element_connectivity hash_tuple argsort tets = Some (EToE, EToF) →
  f < 4 → e < length tets →
  at_ EToE f e = Some e2 → at_ EToF f e = Some f2 →
  f2 < 4 ∧ e2 < length tets ∧
  pairing (face_keys hash_tuple tets) (argsort (face_keys hash_tuple tets))
    !! slot (length tets) f e = Some (slot (length tets) f2 e2) ∧
  face_keys hash_tuple tets !! slot (length tets) f2 e2
  = face_keys hash_tuple tets !! slot (length tets) f e.
Proof.
  intros Hrun Hf He HE HF.
  destruct (result_lookup hash_tuple argsort argsort_ok tets EToE EToF f e
              Hrun Hf He) as (p & Hp & HE' & HF').
  rewrite HE in HE'. rewrite HF in HF'.
  assert (e2 = p mod length tets) as -> by congruence.
  assert (f2 = p / length tets) as -> by congruence.
  rewrite slot_encode.
  assert (Hs : slot (length tets) f e < length (face_keys hash_tuple tets)).
  { rewrite length_face_keys. by apply slot_lt. }
  destruct (pairing_spec _ _ (argsort_ok (face_keys hash_tuple tets)) _ Hs)
    as [[_ Hself]|(s' & _ & Hlt & Hkey & Hs')].
  - assert (p = slot (length tets) f e) as -> by congruence.
    rewrite length_face_keys in Hs.
    destruct (slot_parts_lt _ _ Hs). done.
  - assert (p = s') as -> by congruence.
    rewrite length_face_keys in Hlt.
    destruct (slot_parts_lt _ _ Hlt). done.
Qed.

(** Where no key is carried by more than two slots, a slot has at
    most one candidate. *)
Lemma pairs_only_unique {K} `{EqDecision K} (keys : list K) (s s1 s2 : nat) :
  pairs_only keys → s < length keys →
  s1 ∈ candidates keys s → s2 ∈ candidates keys s → s1 = s2.
Proof.
  unfold pairs_only. rewrite list.Forall_forall. intros Hpairs Hs H1 H2.
  assert (Hlen : length (candidates keys s) ≤ 1).
  { apply Hpairs. apply elem_of_seq. lia. }
  destruct (candidates keys s) as [|c [|c' l]]; simpl in Hlen; [|..|lia].
  - by apply elem_of_nil in H1.
  - apply list_elem_of_singleton in H1, H2. congruence.
Qed.

(** Where the face ids are free of collisions and every face
    vertex-set occurs at most twice, a face slot refers to the other
    slot with its vertices. *)
Lemma linked_slots (tets : list tet) (EToE EToF : ndarray)
    (f e f' e' : nat) (t t' : tet) :
  collision_free hash_tuple (sorted_face_vertices tets) →
  pairs_only (sorted_face_vertices tets) →
  __compute_element_connectivity hash_tuple argsort tets = Some (EToE, EToF) →
  f < 4 → tets !! e = Some t → f' < 4 → tets !! e' = Some t' →
  (f', e') ≠ (f, e) →
  same_vertices (local_face f' t') (local_face f t) →
  at_ EToE f e = Some e' ∧ at_ EToF f e = Some f'.
Proof.
  intros Hfree Hpairs Hrun Hf Ht Hf' Ht' Hne Hsame.
  assert (He : e < length tets) by (by eapply lookup_lt_Some).
  assert (He' : e' < length tets) by (by eapply lookup_lt_Some).
  set (N := length tets) in *.
  set (rows := sorted_face_vertices tets) in *.
  assert (Hs : slot N f e < length rows).
  { unfold rows. rewrite length_sorted_face_vertices. by apply slot_lt. }
  assert (Hs' : slot N f' e' < length rows).
  { unfold rows. rewrite length_sorted_face_vertices. by apply slot_lt. }
  assert (Hcand : ∀ s', s' ∈ candidates rows (slot N f e) ↔
            s' ≠ slot N f e ∧ s' < length rows ∧ rows !! s' = rows !! slot N f e).
  { intros s'. unfold candidates. rewrite list_elem_of_filter, elem_of_seq.
    split; [intros [[? ?] ?]|intros (? & ? & ?)]; split_and!; try done; lia. }
  assert (H1 : slot N f' e' ∈ candidates rows (slot N f e)).
  { apply Hcand. split_and!; [|done|].
    - intros Heq. apply slot_inj in Heq as [-> ->]; done.
    - unfold rows, N.
      rewrite (sorted_face_vertices_slot tets f' e' t' Hf' Ht').
      rewrite (sorted_face_vertices_slot tets f e t Hf Ht).
      f_equal. by apply sort_row_eq_iff. }
  destruct (result_lookup hash_tuple argsort argsort_ok tets EToE EToF f e
              Hrun Hf He) as (p & Hp & HE & HF).
  assert (Hk : slot N f e < length (face_keys hash_tuple tets)).
  { rewrite length_face_keys. by apply slot_lt. }
  destruct (pairing_spec _ _ (argsort_ok (face_keys hash_tuple tets)) _ Hk)
    as [[Hun _]|(s2 & Hne2 & Hlt2 & Hkey2 & Hs2)].
  - exfalso. apply Hcand in H1 as (Hn & _ & Hrow). apply Hn.
    apply Hun. by apply face_keys_eq_iff.
  - assert (p = s2) as -> by (fold N in Hp; congruence).
    assert (H2 : s2 ∈ candidates rows (slot N f e)).
    { apply Hcand. split_and!; [done| |].
      - unfold rows. rewrite length_sorted_face_vertices.
        by rewrite length_face_keys in Hlt2.
      - by apply face_keys_eq_iff in Hkey2. }
    assert (s2 = slot N f' e') as ->
      by (by eapply (pairs_only_unique rows (slot N f e))).
    destruct (slot_decode N f' e' He') as [Hd Hm].
    fold N in HE, HF. by rewrite Hd in HF; rewrite Hm in HE.
Qed.

(** Where the face ids are free of collisions, an entry refers to a
    face with the same vertices, and the self-referencing slots are
    the faces that no other slot shares. *)
Lemma entry_same_vertices (tets : list tet) (EToE EToF : ndarray)
    (f e e2 f2 : nat) (t : tet) :
  collision_free hash_tuple (sorted_face_vertices tets) →
  __compute_element_connectivity hash_tuple argsort tets = Some (EToE, EToF) →
  f < 4 → tets !! e = Some t →
  at_ EToE f e = Some e2 → at_ EToF f e = Some f2 →
  ∃ t2, tets !! e2 = Some t2 ∧ f2 < 4 ∧
        same_vertices (local_face f2 t2) (local_face f t).
Proof.
  intros Hfree Hrun Hf Ht HE HF.
  assert (He : e < length tets) by (by eapply lookup_lt_Some).
  destruct (result_entry_slot tets EToE EToF f e e2 f2
              Hrun Hf He HE HF) as (Hf2 & He2 & _ & Hkey).
  destruct (lookup_lt_is_Some_2 tets e2 He2) as [t2 Ht2].
  exists t2. split_and!; [done..|].
  apply face_keys_eq_iff in Hkey; [|done].
  rewrite (sorted_face_vertices_slot tets f2 e2 t2 Hf2 Ht2) in Hkey.
  rewrite (sorted_face_vertices_slot tets f e t Hf Ht) in Hkey.
  apply sort_row_eq_iff. congruence.
Qed.

Lemma self_reference_iff_boundary (tets : list tet) (EToE EToF : ndarray)
    (f e : nat) (t : tet) :
  collision_free hash_tuple (sorted_face_vertices tets) →
  __compute_element_connectivity hash_tuple argsort tets = Some (EToE, EToF) →
  f < 4 → tets !! e = Some t →
  (at_ EToE f e = Some e ∧ at_ EToF f e = Some f) ↔
  (∀ f' e' t', f' < 4 → tets !! e' = Some t' →
     same_vertices (local_face f' t') (local_face f t) → f' = f ∧ e' = e).
Proof.
  intros Hfree Hrun Hf Ht.
  assert (He : e < length tets) by (by eapply lookup_lt_Some).
  rewrite (self_reference_iff_unmatched hash_tuple argsort argsort_ok tets EToE EToF f e
             Hrun Hf He).
  unfold unmatched. split.
  - intros Hun f' e' t' Hf' Ht' Hsame.
    assert (He' : e' < length tets) by (by eapply lookup_lt_Some).
    apply (slot_inj (length tets)); [done..|].
    apply Hun. apply face_keys_eq_iff; [done|].
    rewrite (sorted_face_vertices_slot tets f' e' t' Hf' Ht').
    rewrite (sorted_face_vertices_slot tets f e t Hf Ht).
    f_equal. by apply sort_row_eq_iff.
  - intros Hb s' Hkey.
    assert (Hs' : s' < 4 * length tets).
    { rewrite <- (length_face_keys hash_tuple).
      apply lookup_lt_is_Some. rewrite Hkey.
      apply lookup_lt_is_Some. rewrite length_face_keys. by apply slot_lt. }
    destruct (slot_of_position tets s' Hs') as (f' & e' & t' & Hf' & Ht' & ->).
    apply face_keys_eq_iff in Hkey; [|done].
    rewrite (sorted_face_vertices_slot tets f' e' t' Hf' Ht') in Hkey.
    rewrite (sorted_face_vertices_slot tets f e t Hf Ht) in Hkey.
    destruct (Hb f' e' t' Hf' Ht') as [-> ->]; [|done].
    apply sort_row_eq_iff. congruence.
Qed.

(** The rows of [face_vertices] are the sorted local faces of the
    elements. *)
Lemma elem_of_sorted_face_vertices (tets : list tet) (r : face) :
  r ∈ sorted_face_vertices tets ↔
  ∃ f e t, f < 4 ∧ tets !! e = Some t ∧ r = sort_row (local_face f t).
Proof.
  rewrite list_elem_of_lookup. split.
  - intros [s Hs].
    assert (Hlt : s < 4 * length tets).
    { rewrite <- length_sorted_face_vertices. by eapply lookup_lt_Some. }
    destruct (slot_of_position tets s Hlt) as (f & e & t & Hf & Ht & ->).
    rewrite (sorted_face_vertices_slot tets f e t Hf Ht) in Hs.
    exists f, e, t. split_and!; congruence.
  - intros (f & e & t & Hf & Ht & ->).
    exists (slot (length tets) f e). by apply sorted_face_vertices_slot.
Qed.

Lemma collision_free_subset (rows rows' : list face) :
  (∀ r, r ∈ rows' → r ∈ rows) →
  collision_free hash_tuple rows → collision_free hash_tuple rows'.
Proof.
  intros Hsub Hfree. unfold collision_free.
  apply list.Forall_forall. intros r Hr.
  apply list.Forall_forall. intros r' Hr'.
  apply (collision_free_inj rows); auto.
Qed.

(** Renumbering the elements renumbers the entries. *)
Lemma renumbered_entries (tets tets' : list tet) (σ τ : nat → nat)
    (EToE EToF EToE' EToF' : ndarray) (f e : nat) :
  length tets' = length tets →
  (∀ e, e < length tets →
     σ e < length tets ∧ τ (σ e) = e ∧ tets' !! e = tets !! σ e) →
  (∀ e, e < length tets → τ e < length tets ∧ σ (τ e) = e) →
  collision_free hash_tuple (sorted_face_vertices tets) →
  pairs_only (sorted_face_vertices tets) →
  __compute_element_connectivity hash_tuple argsort tets = Some (EToE, EToF) →
  __compute_element_connectivity hash_tuple argsort tets' = Some (EToE', EToF') →
  f < 4 → e < length tets →
  ∃ e2 f2, at_ EToE' f e = Some e2 ∧ at_ EToF' f e = Some f2 ∧
           at_ EToE f (σ e) = Some (σ e2) ∧ at_ EToF f (σ e) = Some f2.
Proof.
  intros Hlen Hσ Hτ Hfree Hpairs Hrun Hrun' Hf He.
  assert (Hfree' : collision_free hash_tuple (sorted_face_vertices tets')).
  { apply (collision_free_subset (sorted_face_vertices tets)); [|done].
    intros r (f0 & e0 & t0 & Hf0 & Ht0 & ->)%elem_of_sorted_face_vertices.
    apply elem_of_sorted_face_vertices.
    assert (e0 < length tets) as He0
      by (rewrite <- Hlen; by eapply lookup_lt_Some).
    destruct (Hσ e0 He0) as (_ & _ & Heq).
    exists f0, (σ e0), t0. split_and!; congruence. }
  assert (He' : e < length tets') by lia.
  destruct (result_lookup hash_tuple argsort argsort_ok tets' EToE' EToF' f e
              Hrun' Hf He') as (p & _ & HE' & HF').
  set (e2 := p mod length tets') in *. set (f2 := p / length tets') in *.
  exists e2, f2. split; [done|]. split; [done|].
  destruct (lookup_lt_is_Some_2 tets' e He') as [t Ht'].
  destruct (Hσ e He) as (Hσe & _ & Heq).
  assert (Ht : tets !! σ e = Some t) by congruence.
  destruct (entry_same_vertices tets' EToE' EToF' f e e2 f2 t
              Hfree' Hrun' Hf Ht' HE' HF') as (t2 & Ht2' & Hf2 & Hsame).
  assert (He2 : e2 < length tets)
    by (rewrite <- Hlen; by eapply lookup_lt_Some).
  destruct (Hσ e2 He2) as (Hσe2 & Hτσ2 & Heq2).
  assert (Ht2 : tets !! σ e2 = Some t2) by congruence.
  destruct (decide ((f2, e2) = (f, e))) as [Hself|Hother].
  - injection Hself as -> ->.
    apply (self_reference_iff_boundary tets EToE EToF f (σ e) t); [done..|].
    intros f0 e0 t0 Hf0 Ht0 Hsame0.
    assert (He0 : e0 < length tets) by (by eapply lookup_lt_Some).
    destruct (Hτ e0 He0) as (Hτe0 & Hστ).
    destruct (Hσ (τ e0) Hτe0) as (_ & _ & Heq0).
    rewrite Hστ in Heq0.
    assert (Hb : ∀ f1 e1 t1, f1 < 4 → tets' !! e1 = Some t1 →
              same_vertices (local_face f1 t1) (local_face f t) →
              f1 = f ∧ e1 = e).
    { by apply (self_reference_iff_boundary tets' EToE' EToF' f e t). }
    destruct (Hb f0 (τ e0) t0) as [-> Hτeq]; [done|congruence|done|].
    split; [done|]. by rewrite <- Hτeq, Hστ.
  - apply (linked_slots tets EToE EToF f (σ e) f2 (σ e2) t t2); try done.
    intros Heq'. injection Heq' as -> Hσeq. apply Hother. f_equal.
    destruct (Hσ e He) as (_ & Hτσ & _). congruence.
Qed.

(** The shape of the tables. *)
Lemma tables_shape (tets : list tet) (EToE EToF : ndarray) :
  __compute_element_connectivity hash_tuple argsort tets = Some (EToE, EToF) →
  tets ≠ [] ∧
  shape EToE = (4, length tets) ∧ shape EToF = (4, length tets) ∧
  length (data EToE) = 4 * length tets ∧
  length (data EToF) = 4 * length tets.
Proof.
  intros Hrun.
  assert (Hne : tets ≠ []).
  { intros ->. by rewrite compute_element_connectivity_nil in Hrun. }
  pose proof (compute_element_connectivity_pairing hash_tuple argsort tets) as Hrep.
  cbv zeta in Hrep. specialize (Hrep (argsort_ok _) Hne).
  rewrite Hrun in Hrep. injection Hrep as -> ->. simpl.
  by rewrite !length_fmap, !length_pairing, !length_face_keys.
Qed.
End FaceFacts.

Section TieOrder.
Import Numpy FaceSpec.

(** [merge_argsort_desc] meets the contract of [numpy.argsort]. *)
Lemma merge_argsort_desc_ok (keys : list Z) :
  is_argsort keys (merge_argsort_desc keys).
Proof.
  pose proof (key_le_total keys) as Htotal.
  unfold is_argsort, merge_argsort_desc. split.
  - rewrite merge_sort_Permutation. apply reverse_Permutation.
  - eapply Sorted_fmap; [|apply (Sorted_merge_sort (key_le keys))].
    intros i j Hij. exact Hij.
Qed.
End TieOrder.

(** ** The loop over the boundary labels *)

Section PartFacts.
Import Numpy MeshStore PartSpec.

Lemma dict_set_fresh {V} (k : string) (v : V) (d : dict V) :
  k ∉ dict_keys d → dict_set k v d = d ++ [(k, v)].
Proof.
  induction d as [|[k' v'] d IH]; simpl; [done|].
  intros Hk. apply not_elem_of_cons in Hk as [Hne Hk].
  case_decide; [congruence|]. by rewrite IH.
Qed.

Lemma dict_get_fmap_keys {V} (g : string → V) (ks : list string) (k : string) :
  dict_get k ((λ k, (k, g k)) <$> ks) = if decide (k ∈ ks) then Some (g k) else None.
Proof.
  induction ks as [|k' ks IH].
  - by rewrite decide_False by apply not_elem_of_nil.
  - rewrite fmap_cons. cbn [dict_get].
    destruct (decide (k' = k)) as [->|Hk].
    + by rewrite decide_True by left.
    + rewrite IH. destruct (decide (k ∈ ks)) as [Hin|Hin].
      * by rewrite decide_True by (by right).
      * rewrite decide_False; [done|].
        intros [?|?]%elem_of_cons; [congruence|done].
Qed.

Lemma dict_keys_fmap_keys {V} (g : string → V) (ks : list string) :
  dict_keys ((λ k, (k, g k)) <$> ks) = ks.
Proof.
  unfold dict_keys. rewrite <- list_fmap_compose.
  rewrite <- (list_fmap_id ks) at 2. by apply list_fmap_ext.
Qed.

Lemma dict_values_fmap_keys {V} (g : string → V) (ks : list string) :
  dict_values ((λ k, (k, g k)) <$> ks) = g <$> ks.
Proof.
  unfold dict_values. rewrite <- list_fmap_compose. by apply list_fmap_ext.
Qed.

(** With pairwise different keys, looking up every key gives the
    values in order. *)
Lemma dict_get_keys_values {V} (d : dict V) (v0 : V) :
  NoDup (dict_keys d) →
  (λ k, default v0 (dict_get k d)) <$> dict_keys d = dict_values d.
Proof.
  intros Hnd. unfold dict_keys, dict_values.
  rewrite <- list_fmap_compose. apply list_fmap_ext.
  intros i [k v] Hi. simpl.
  rewrite (dict_get_item d k v Hnd); [done|].
  by eapply list_elem_of_lookup_2.
Qed.

(** The mask of a code, its sum and the rows it selects. *)
Lemma count_true_mask (code : Z) (physical : list Z) :
  count_true ((λ c, bool_decide (c = code)) <$> physical)
  = count_code code physical.
Proof.
  unfold count_true, count_code.
  induction physical as [|c physical IH]; [done|].
  rewrite fmap_cons, !filter_cons.
  destruct (decide (c = code)) as [->|Hne].
  - rewrite bool_decide_true by done. rewrite decide_True by done.
    simpl. by rewrite IH.
  - rewrite bool_decide_false by done. rewrite decide_False by done.
    exact IH.
Qed.

Lemma mask_select_code (code : Z) (triangles : list face) (physical : list Z) :
  mask_select triangles ((λ c, bool_decide (c = code)) <$> physical)
  = if decide (length triangles = length physical)
    then Ok (triangles_with_code code triangles physical)
    else Raise IndexError.
Proof.
  unfold mask_select. rewrite length_fmap.
  case_decide as Hlen; [|done]. f_equal.
  unfold triangles_with_code. clear Hlen.
  revert physical. induction triangles as [|t triangles IH];
    intros [|c physical]; try done.
  rewrite fmap_cons. cbn [zip_with].
  rewrite !filter_cons. cbn [snd].
  destruct (decide (c = code)) as [->|Hne].
  - rewrite bool_decide_true by done. rewrite decide_True by done.
    rewrite !fmap_cons. cbn [fst]. f_equal. apply IH.
  - rewrite bool_decide_false by done. rewrite decide_False by done.
    apply IH.
Qed.

Lemma length_triangles_with_code (code : Z) (triangles : list face)
    (physical : list Z) :
  length triangles = length physical →
  length (triangles_with_code code triangles physical) = count_code code physical.
Proof.
  unfold triangles_with_code, count_code. rewrite length_fmap.
  revert physical. induction triangles as [|t triangles IH];
    intros [|c physical] Hlen; try done.
  simpl zip. rewrite !filter_cons. simpl.
  injection Hlen as Hlen.
  destruct (decide (c = code)); simpl; by rewrite IH.
Qed.

Lemma elem_of_triangles_with_code (code : Z) (triangles : list face)
    (physical : list Z) (t : face) :
  t ∈ triangles_with_code code triangles physical ↔
  ∃ i, triangles !! i = Some t ∧ physical !! i = Some code.
Proof.
  unfold triangles_with_code.
  rewrite list_elem_of_fmap. split.
  - intros ([t' c] & -> & Hin).
    apply list_elem_of_filter in Hin as [Hc Hin]. simpl in Hc. subst c.
    apply elem_of_lookup_zip_with in Hin as (i & x & y & Heq & Hx & Hy).
    injection Heq as -> ->. by exists i.
  - intros (i & Ht & Hc). exists (t, code). split; [done|].
    apply list_elem_of_filter. split; [done|].
    apply elem_of_lookup_zip_with. by exists i, t, code.
Qed.

Lemma count_code_pos (code : Z) (physical : list Z) :
  code ∈ physical ↔ 0 < count_code code physical.
Proof.
  unfold count_code. split.
  - intros Hin.
    assert (code ∈ filter (λ c, c = code) physical) as Hf
      by (by apply list_elem_of_filter).
    destruct (filter _ physical); [by apply elem_of_nil in Hf|simpl; lia].
  - intros Hpos.
    destruct (filter (λ c, c = code) physical) as [|c l] eqn:Hf; [simpl in Hpos; lia|].
    assert (c ∈ filter (λ c, c = code) physical) as Hc by (rewrite Hf; left).
    apply list_elem_of_filter in Hc as [-> ?]. done.
Qed.

Lemma count_code_cons (code x : Z) (physical : list Z) :
  count_code code (x :: physical)
  = (if decide (x = code) then 1 else 0) + count_code code physical.
Proof.
  unfold count_code. rewrite filter_cons. by destruct (decide (x = code)).
Qed.

(** Every triangle is counted for exactly one of pairwise different
    codes that cover the tags. *)
Lemma sum_indicator (x : Z) (values : list Z) :
  NoDup values →
  sum_list ((λ v, if decide (x = v) then 1 else 0) <$> values)
  = if decide (x ∈ values) then 1 else 0.
Proof.
  induction values as [|v values IH]; intros Hnd.
  - by rewrite decide_False by apply not_elem_of_nil.
  - apply list.NoDup_cons in Hnd as [Hv Hnd].
    rewrite fmap_cons. cbn [sum_list]. rewrite (IH Hnd).
    destruct (decide (x = v)) as [Heq|Hne];
      destruct (decide (x ∈ values)) as [Hin|Hin];
      destruct (decide (x ∈ v :: values)) as [Hin'|Hin']; try done;
      exfalso.
    + subst. done.
    + subst. done.
    + apply Hin'. subst. left.
    + apply Hin'. by right.
    + apply elem_of_cons in Hin' as [?|?]; done.
Qed.

Lemma sum_count_code (values physical : list Z) :
  NoDup values → (∀ c, c ∈ physical → c ∈ values) →
  sum_list ((λ v, count_code v physical) <$> values) = length physical.
Proof.
  intros Hnd. induction physical as [|x physical IH]; intros Hcover.
  - clear. induction values as [|v values IHv]; [done|].
    rewrite fmap_cons. cbn [sum_list]. by rewrite IHv.
  - assert (Hsplit : ∀ l : list Z,
              sum_list ((λ v, count_code v (x :: physical)) <$> l)
              = sum_list ((λ v, if decide (x = v) then 1 else 0) <$> l)
                + sum_list ((λ v, count_code v physical) <$> l)).
    { intros l. induction l as [|v l IHl]; [done|].
      rewrite !fmap_cons. cbn [sum_list]. rewrite IHl, count_code_cons.
      unfold id. destruct (decide (x = v)); lia. }
    rewrite Hsplit, sum_indicator by done.
    rewrite decide_True by (apply Hcover; left).
    rewrite IH; [simpl; lia|].
    intros c Hc. apply Hcover. by right.
Qed.

Section Loop.
Variable md : mesh_data.
Variable labels : dict Z.
Variable physical : list Z.
Hypothesis Hphysical : physical_triangle md = Some physical.

Local Abbreviation code_of k := (default 0%Z (dict_get k labels)).

(** One turn of the loop, for a label of the dictionary. *)
Lemma partition_step_outcome (acc : dict nat * dict (list face)) (k : string) :
  k ∈ dict_keys labels →
  partition_step md labels acc k
  = match cells_triangle md with
    | None => Raise KeyError
    | Some triangles =>
        if decide (length triangles = length physical)
        then Ok (dict_set k (count_code (code_of k) physical) acc.1,
                 dict_set k (triangles_with_code (code_of k) triangles physical)
                          acc.2)
        else Raise IndexError
    end.
Proof.
  intros Hk. unfold partition_step. rewrite Hphysical.
  simpl key_lookup. rewrite rbind_Ok.
  unfold subscript.
  destruct (dict_get_is_Some k labels Hk) as [code Hcode]. rewrite Hcode.
  rewrite rbind_Ok. cbv zeta. simpl default.
  destruct (cells_triangle md) as [triangles|]; [|done].
  simpl key_lookup. rewrite rbind_Ok.
  rewrite mask_select_code, count_true_mask.
  by case_decide.
Qed.

(** The loop raises in its first turn or not at all. *)
Lemma for_each_partition_raises (acc : dict nat * dict (list face))
    (k : string) (ks : list string) :
  k ∈ dict_keys labels →
  (cells_triangle md = None →
   for_each (partition_step md labels) acc (k :: ks) = Raise KeyError) ∧
  (∀ triangles, cells_triangle md = Some triangles →
     length triangles ≠ length physical →
     for_each (partition_step md labels) acc (k :: ks) = Raise IndexError).
Proof.
  intros Hk. split.
  - intros Hnone. simpl. rewrite partition_step_outcome, Hnone by done. done.
  - intros triangles Htri Hlen. simpl.
    rewrite partition_step_outcome, Htri by done.
    by rewrite decide_False by done.
Qed.

Lemma for_each_partition_returns (triangles : list face)
    (acc : dict nat * dict (list face)) (ks : list string) :
  cells_triangle md = Some triangles → length triangles = length physical →
  Forall (λ k, k ∈ dict_keys labels) ks →
  ∃ parts, for_each (partition_step md labels) acc ks = Ok parts.
Proof.
  intros Htri Hlen. revert acc.
  induction ks as [|k ks IH]; intros acc Hks; simpl; [by eexists|].
  apply list.Forall_cons in Hks as [Hk Hks].
  rewrite partition_step_outcome, Htri by done.
  rewrite decide_True by done. rewrite rbind_Ok. by apply IH.
Qed.

(** The dictionaries the loop builds from pairwise different labels. *)
Lemma for_each_partition_closed (triangles : list face)
    (acc : dict nat * dict (list face)) (ks : list string) :
  cells_triangle md = Some triangles → length triangles = length physical →
  Forall (λ k, k ∈ dict_keys labels) ks →
  dict_keys acc.1 = dict_keys acc.2 →
  NoDup (dict_keys acc.1 ++ ks) →
  for_each (partition_step md labels) acc ks
  = Ok (acc.1 ++ ((λ k, (k, count_code (code_of k) physical)) <$> ks),
        acc.2 ++ ((λ k, (k, triangles_with_code (code_of k) triangles physical))
                    <$> ks)).
Proof.
  intros Htri Hlen. revert acc.
  induction ks as [|k ks IH]; intros [N T] Hks Hkeys Hnd; simpl in *.
  - by rewrite !app_nil_r.
  - apply list.Forall_cons in Hks as [Hk Hks].
    rewrite partition_step_outcome, Htri by done.
    rewrite decide_True by done. rewrite rbind_Ok. simpl.
    assert (Hfresh : k ∉ dict_keys N).
    { apply list.NoDup_app in Hnd as (_ & Hdisj & _).
      intros Hin. apply (Hdisj k Hin). left. }
    rewrite !dict_set_fresh by (by rewrite <- ?Hkeys).
    rewrite IH; simpl.
    + by rewrite <- !app_assoc.
    + done.
    + unfold dict_keys in *. rewrite !fmap_app. simpl. by rewrite Hkeys.
    + unfold dict_keys in *. rewrite fmap_app. simpl.
      rewrite <- app_assoc. exact Hnd.
Qed.
End Loop.
End PartFacts.

(** ** The outcomes of [Mesh.__init_from_file] *)

Section InitOutcome.
Import Numpy MeshStore PartSpec.

Variable hash_tuple : face → Z.
Variable argsort : list Z → list nat.

(** The statements of the constructor in the order in which they can
    raise. *)
Lemma init_unfold (md : mesh_data) (labels : dict Z) :
  __init_from_file hash_tuple argsort md labels
  = match physical_triangle md with
    | None => Raise KeyError
    | Some physical =>
        if bool_decide (sorted (dict_values labels) = sorted (unique physical))
        then
          match for_each (partition_step md labels) ([], []) (dict_keys labels) with
          | Raise e => Raise e
          | Ok parts =>
              match cells_tetra md with
              | None => Raise KeyError
              | Some tetra =>
                  match Connectivity.__compute_element_connectivity
                          hash_tuple argsort tetra with
                  | Some (EToE, EToF) =>
                      Ok {| N_vertices := (fshape (points md)).1;
                            vertices := points md;
                            N_BC_triangles := parts.1; BC_triangles := parts.2;
                            N_tets := length tetra; tets := tetra;
                            EToE := EToE; EToF := EToF |}
                  | None => Raise ValueError_numpy
                  end
              end
          end
        else Raise ValueError_BC_labels
    end.
Proof.
  unfold __init_from_file. cbv zeta.
  destruct (physical_triangle md) as [physical|]; [|done].
  simpl key_lookup. rewrite rbind_Ok.
  case_bool_decide; simpl negb; cbv iota; [|done].
  destruct (for_each _ _ _) as [parts|e]; [|done].
  rewrite rbind_Ok.
  destruct (cells_tetra md) as [tetra|]; [|done].
  simpl key_lookup. by rewrite rbind_Ok.
Qed.

Lemma dict_keys_elem {V} (labels : dict V) :
  Forall (λ k, k ∈ dict_keys labels) (dict_keys labels).
Proof. by apply list.Forall_forall. Qed.

(** The four ways the loop over the labels can end. *)
Lemma loop_cases (md : mesh_data) (labels : dict Z) (physical : list Z) :
  physical_triangle md = Some physical →
  (labels = [] ∧
   for_each (partition_step md labels) ([], []) (dict_keys labels) = Ok ([], [])) ∨
  (labels ≠ [] ∧ cells_triangle md = None ∧
   for_each (partition_step md labels) ([], []) (dict_keys labels)
   = Raise KeyError) ∨
  (labels ≠ [] ∧
   ∃ triangles, cells_triangle md = Some triangles ∧
     length triangles ≠ length physical ∧
     for_each (partition_step md labels) ([], []) (dict_keys labels)
     = Raise IndexError) ∨
  (labels ≠ [] ∧
   ∃ triangles parts, cells_triangle md = Some triangles ∧
     length triangles = length physical ∧
     for_each (partition_step md labels) ([], []) (dict_keys labels) = Ok parts).
Proof.
  intros Hphys.
  destruct labels as [|[k v] labels]; [by left|]. right.
  assert (Hk : k ∈ dict_keys ((k, v) :: labels)) by left.
  destruct (for_each_partition_raises md ((k, v) :: labels) physical Hphys
              ([], []) k (dict_keys labels) Hk) as [Hnone Hlen].
  destruct (cells_triangle md) as [triangles|] eqn:Htri.
  - right. destruct (decide (length triangles = length physical)) as [Heq|Hne].
    + right. split; [done|].
      destruct (for_each_partition_returns md ((k, v) :: labels) physical Hphys
                  triangles ([], []) (dict_keys ((k, v) :: labels)) Htri Heq)
        as [parts Hparts]; [apply dict_keys_elem|].
      by exists triangles, parts.
    + left. split; [done|]. exists triangles. split_and!; [done..|].
      by apply (Hlen triangles).
  - left. split_and!; [done..|]. by apply Hnone.
Qed.

Lemma labels_match_check (labels : dict Z) (physical : list Z) :
  sorted (dict_values labels) = sorted (unique physical) ↔
  labels_match labels physical.
Proof. apply labels_check. Qed.

(** Every way in which the constructor can end, with the condition
    under which it ends so. *)
Lemma init_cases (md : mesh_data) (labels : dict Z) :
  (∀ keys, is_argsort keys (argsort keys)) →
  (physical_triangle md = None ∧
   __init_from_file hash_tuple argsort md labels = Raise KeyError) ∨
  (∃ physical, physical_triangle md = Some physical ∧
     ¬ labels_match labels physical ∧
     __init_from_file hash_tuple argsort md labels = Raise ValueError_BC_labels) ∨
  (∃ physical, physical_triangle md = Some physical ∧
     labels_match labels physical ∧ labels ≠ [] ∧ cells_triangle md = None ∧
     __init_from_file hash_tuple argsort md labels = Raise KeyError) ∨
  (∃ physical triangles, physical_triangle md = Some physical ∧
     labels_match labels physical ∧ labels ≠ [] ∧
     cells_triangle md = Some triangles ∧
     length triangles ≠ length physical ∧
     __init_from_file hash_tuple argsort md labels = Raise IndexError) ∨
  (∃ physical, physical_triangle md = Some physical ∧
     labels_match labels physical ∧ triangles_readable md labels physical ∧
     cells_tetra md = None ∧
     __init_from_file hash_tuple argsort md labels = Raise KeyError) ∨
  (∃ physical, physical_triangle md = Some physical ∧
     labels_match labels physical ∧ triangles_readable md labels physical ∧
     cells_tetra md = Some [] ∧
     __init_from_file hash_tuple argsort md labels = Raise ValueError_numpy) ∨
  (∃ physical tetra m, physical_triangle md = Some physical ∧
     labels_match labels physical ∧ triangles_readable md labels physical ∧
     cells_tetra md = Some tetra ∧ tetra ≠ [] ∧
     __init_from_file hash_tuple argsort md labels = Ok m).
Proof.
  intros Hok.
  destruct (physical_triangle md) as [physical|] eqn:Hphys;
    [|left; split; [done|]; by rewrite init_unfold, Hphys].
  right.
  destruct (decide (sorted (dict_values labels) = sorted (unique physical)))
    as [Hcheck|Hcheck].
  2: { left. exists physical. split_and!; [done|by rewrite <- labels_match_check|].
       rewrite init_unfold, Hphys. by rewrite bool_decide_false. }
  right.
  assert (Hinit : __init_from_file hash_tuple argsort md labels
            = match for_each (partition_step md labels) ([], [])
                      (dict_keys labels) with
              | Raise e => Raise e
              | Ok parts =>
                  match cells_tetra md with
                  | None => Raise KeyError
                  | Some tetra =>
                      match Connectivity.__compute_element_connectivity
                              hash_tuple argsort tetra with
                      | Some (EToE, EToF) =>
                          Ok {| N_vertices := (fshape (points md)).1;
                                vertices := points md;
                                N_BC_triangles := parts.1;
                                BC_triangles := parts.2;
                                N_tets := length tetra; tets := tetra;
                                EToE := EToE; EToF := EToF |}
                      | None => Raise ValueError_numpy
                      end
                  end
              end).
  { rewrite init_unfold, Hphys. by rewrite bool_decide_true. }
  apply labels_match_check in Hcheck.
  assert (Hrest : ∀ parts,
    triangles_readable md labels physical →
    for_each (partition_step md labels) ([], []) (dict_keys labels) = Ok parts →
    (cells_tetra md = None ∧
     __init_from_file hash_tuple argsort md labels = Raise KeyError) ∨
    (cells_tetra md = Some [] ∧
     __init_from_file hash_tuple argsort md labels = Raise ValueError_numpy) ∨
    (∃ tetra m, cells_tetra md = Some tetra ∧ tetra ≠ [] ∧
     __init_from_file hash_tuple argsort md labels = Ok m)).
  { intros parts Hread Hloop. rewrite Hinit, Hloop.
    destruct (cells_tetra md) as [[|t tetra]|] eqn:Htet.
    - right; left. by rewrite compute_element_connectivity_nil.
    - right; right.
      destruct (compute_element_connectivity_returns hash_tuple argsort Hok
                  (t :: tetra)) as [[E F] Hrun]; [done|].
      rewrite Hrun. by eexists (t :: tetra), _.
    - by left. }
  destruct (loop_cases md labels physical Hphys)
    as [[Hne Hloop]
       |[(Hne & Htri & Hloop)
        |[(Hne & triangles & Htri & Hlen & Hloop)
         |(Hne & triangles & parts & Htri & Hlen & Hloop)]]].
  - do 2 right.
    assert (Hread : triangles_readable md labels physical) by (by left).
    destruct (Hrest _ Hread Hloop) as [[? ?]|[[? ?]|(tetra & m & ? & ? & ?)]].
    + left. by exists physical.
    + right; left. by exists physical.
    + right; right. by exists physical, tetra, m.
  - left. exists physical. split_and!; [done..|]. by rewrite Hinit, Hloop.
  - right; left. exists physical, triangles. split_and!; [done..|].
    by rewrite Hinit, Hloop.
  - do 2 right.
    assert (Hread : triangles_readable md labels physical)
      by (right; by exists triangles).
    destruct (Hrest _ Hread Hloop) as [[? ?]|[[? ?]|(tetra & m & ? & ? & ?)]].
    + left. by exists physical.
    + right; left. by exists physical.
    + right; right. by exists physical, tetra, m.
Qed.

(** The dictionaries of a mesh built from pairwise different labels. *)
Lemma init_parts (md : mesh_data) (labels : dict Z) (m : Mesh)
    (physical : list Z) (triangles : list face) :
  NoDup (dict_keys labels) →
  __init_from_file hash_tuple argsort md labels = Ok m →
  physical_triangle md = Some physical →
  cells_triangle md = Some triangles →
  labels ≠ [] →
  length triangles = length physical ∧
  N_BC_triangles m
  = (λ k, (k, count_code (default 0%Z (dict_get k labels)) physical))
      <$> dict_keys labels ∧
  BC_triangles m
  = (λ k, (k, triangles_with_code (default 0%Z (dict_get k labels))
                triangles physical))
      <$> dict_keys labels.
Proof.
  intros Hnd Hinit Hphys Htri Hne.
  destruct (init_fields _ _ _ _ _ Hinit)
    as (physical' & parts & tetra & Hphys' & _ & Hparts & _ & _ & _ & HN & HT & _).
  assert (physical' = physical) as -> by congruence.
  destruct (loop_cases md labels physical Hphys)
    as [[? _]|[(_ & Hnone & _)|[(_ & t & Ht & _ & Hraise)|(_ & t & p & Ht & Hlen & _)]]];
    [done|congruence|congruence|].
  assert (t = triangles) as -> by congruence.
  split; [done|].
  rewrite (for_each_partition_closed md labels physical Hphys triangles
             ([], []) (dict_keys labels) Htri Hlen) in Hparts;
    [|apply dict_keys_elem|done|done].
  injection Hparts as <-. by rewrite HN, HT.
Qed.

(** A mesh built with a label has read the triangles. *)
Lemma init_triangles (md : mesh_data) (labels : dict Z) (m : Mesh)
    (physical : list Z) :
  __init_from_file hash_tuple argsort md labels = Ok m →
  physical_triangle md = Some physical →
  labels ≠ [] →
  ∃ triangles, cells_triangle md = Some triangles ∧
               length triangles = length physical.
Proof.
  intros Hinit Hphys Hne.
  destruct (init_fields _ _ _ _ _ Hinit)
    as (physical' & parts & tetra & Hphys' & _ & Hparts & _).
  destruct (loop_cases md labels physical Hphys)
    as [[? _]|[(_ & Hnone & ?)|[(_ & t & Ht & _ & ?)|(_ & t & p & Ht & Hlen & _)]]];
    [done|congruence|congruence|].
  by exists t.
Qed.

Lemma init_labels_match (md : mesh_data) (labels : dict Z) (m : Mesh)
    (physical : list Z) :
  __init_from_file hash_tuple argsort md labels = Ok m →
  physical_triangle md = Some physical →
  labels_match labels physical.
Proof.
  intros Hinit Hphys.
  destruct (init_fields _ _ _ _ _ Hinit)
    as (physical' & parts & tetra & Hphys' & Hcheck & _).
  assert (physical' = physical) as -> by congruence.
  by apply labels_match_check.
Qed.

(** A mesh is built without labels only from a file without tags. *)
Lemma init_no_labels (md : mesh_data) (m : Mesh) (physical : list Z) :
  __init_from_file hash_tuple argsort md [] = Ok m →
  physical_triangle md = Some physical →
  physical = [] ∧ N_BC_triangles m = [] ∧ BC_triangles m = [].
Proof.
  intros Hinit Hphys.
  destruct (init_fields _ _ _ _ _ Hinit)
    as (physical' & parts & tetra & Hphys' & Hcheck & Hparts & _ & _ & _ & HN & HT & _).
  assert (physical' = physical) as -> by congruence.
  simpl in Hparts. injection Hparts as <-.
  split_and!; [|done..].
  apply labels_match_check in Hcheck as [_ Hcover].
  destruct physical as [|c physical]; [done|].
  assert (c ∈ dict_values ([] : dict Z)) as Hc by (apply Hcover; left).
  by apply elem_of_nil in Hc.
Qed.

(** The keys of the boundary dictionaries are the labels, in the
    order of [BC_labels]. *)
Lemma init_dict_keys (md : mesh_data) (labels : dict Z) (m : Mesh) :
  NoDup (dict_keys labels) →
  __init_from_file hash_tuple argsort md labels = Ok m →
  dict_keys (N_BC_triangles m) = dict_keys labels ∧
  dict_keys (BC_triangles m) = dict_keys labels.
Proof.
  intros Hnd Hinit.
  destruct (init_fields _ _ _ _ _ Hinit) as (physical & _ & _ & Hphys & _).
  destruct (decide (labels = [])) as [->|Hnel].
  - by destruct (init_no_labels md m physical Hinit Hphys) as (_ & -> & ->).
  - destruct (init_triangles md labels m physical Hinit Hphys Hnel)
      as (triangles & Htri & Hlen).
    destruct (init_parts md labels m physical triangles
                Hnd Hinit Hphys Htri Hnel) as (_ & -> & ->).
    by rewrite !dict_keys_fmap_keys.
Qed.
End InitOutcome.

(** ** Dictionaries that agree *)

Section DictAgree.
Import MeshStore.

Context {V : Type}.

Lemma dict_get_elem (k : string) (v : V) (d : dict V) :
  dict_get k d = Some v → (k, v) ∈ d.
Proof.
  induction d as [|[k' v'] d IH]; simpl; [done|].
  case_decide; intros ?; simplify_eq; [left|right; auto].
Qed.

(** Rearranging the items of a dict does not change what is found
    under a key. *)
Lemma dict_get_Permutation (d d' : dict V) (k : string) :
  NoDup (dict_keys d) → d' ≡ₚ d → dict_get k d' = dict_get k d.
Proof.
  intros Hnd Hp.
  assert (Hnd' : NoDup (dict_keys d')).
  { unfold dict_keys in *. by rewrite Hp. }
  destruct (dict_get k d) as [v|] eqn:Hget.
  - apply dict_get_item; [done|]. rewrite Hp. by apply dict_get_elem.
  - destruct (dict_get k d') as [v|] eqn:Hget'; [|done].
    apply dict_get_elem in Hget'. rewrite Hp in Hget'.
    apply dict_get_item in Hget'; [congruence|done].
Qed.

(** [a] is part of [b]: every key of [a] is found in [b] with the
    same value. *)
Lemma dict_part_keys (a b : dict V) :
  NoDup (dict_keys a) → length a = length b →
  (∀ k v, dict_get k a = Some v → dict_get k b = Some v) →
  dict_keys a ≡ₚ dict_keys b.
Proof.
  intros Hnd Hlen Hsub.
  apply submseteq_length_Permutation.
  - apply NoDup_submseteq; [done|].
    intros k Hk. apply dict_get_is_Some in Hk as [v Hv].
    eapply dict_get_Some_keys. by apply Hsub.
  - unfold dict_keys. by rewrite !length_fmap, Hlen.
Qed.

Lemma dict_part_sym (a b : dict V) :
  NoDup (dict_keys a) → length a = length b →
  (∀ k v, dict_get k a = Some v → dict_get k b = Some v) →
  ∀ k v, dict_get k b = Some v → dict_get k a = Some v.
Proof.
  intros Hnd Hlen Hsub k v Hb.
  pose proof (dict_part_keys a b Hnd Hlen Hsub) as Hp.
  assert (Hk : k ∈ dict_keys a).
  { rewrite Hp. by eapply dict_get_Some_keys. }
  apply dict_get_is_Some in Hk as [w Hw].
  pose proof (Hsub k w Hw). congruence.
Qed.

Lemma dict_equal_nat_iff (a b : dict nat) :
  dict_equal Nat.eqb a b = true ↔
  length a = length b ∧
  Forall (λ kv, dict_get kv.1 b = Some kv.2) a.
Proof.
  unfold dict_equal. rewrite andb_true_iff, bool_decide_eq_true.
  rewrite forallb_forall, list.Forall_forall.
  split; intros [Hlen Hall]; (split; [done|]); intros [k v] Hin; simpl.
  - apply list_elem_of_In in Hin. specialize (Hall _ Hin). simpl in Hall.
    destruct (dict_get k b) as [w|]; [|done].
    apply Nat.eqb_eq in Hall. by subst.
  - apply list_elem_of_In in Hin. specialize (Hall _ Hin). simpl in Hall.
    rewrite Hall. apply Nat.eqb_refl.
Qed.

Lemma Forall_dict_get (a b : dict V) :
  NoDup (dict_keys a) →
  Forall (λ kv, dict_get kv.1 b = Some kv.2) a ↔
  (∀ k v, dict_get k a = Some v → dict_get k b = Some v).
Proof.
  intros Hnd. rewrite list.Forall_forall. split.
  - intros Hall k v Hget. by apply (Hall (k, v)), dict_get_elem.
  - intros Hsub [k v] Hin. simpl. apply Hsub. by apply dict_get_item.
Qed.

Lemma Forall_dict_get_trans (a b c : dict V) :
  Forall (λ kv, dict_get kv.1 b = Some kv.2) a →
  Forall (λ kv, dict_get kv.1 c = Some kv.2) b →
  Forall (λ kv, dict_get kv.1 c = Some kv.2) a.
Proof.
  rewrite !list.Forall_forall. intros Hab Hbc [k v] Hin. simpl.
  apply (Hbc (k, v)). apply dict_get_elem. by apply (Hab (k, v)).
Qed.
End DictAgree.

(** ** [==] on IEEE doubles *)

Section FloatEq.
Import MeshStore.

Lemma compare_cont_Eq_iff (m m' : positive) :
  Pos.compare_cont Eq m m' = Eq ↔ m = m'.
Proof. exact (Pos.compare_eq_iff m m'). Qed.

Lemma SFeqb_true_iff (x y : spec_float) :
  SFeqb x y = true ↔
  match x, y with
  | S754_zero _, S754_zero _ => True
  | S754_infinity s, S754_infinity s' => s = s'
  | S754_finite s m e, S754_finite s' m' e' => s = s' ∧ m = m' ∧ e = e'
  | _, _ => False
  end.
Proof.
  unfold SFeqb.
  destruct x as [s|s| |s m e], y as [s'|s'| |s' m' e']; simpl;
    try (by destruct s); try (by destruct s'); try done.
  - destruct s, s'; simpl; split; try done.
  - pose proof (compare_cont_Eq_iff m m') as Hm.
    pose proof (Z.compare_eq_iff e e') as He.
    destruct s, s'; simpl; try (split; [done|intros (? & _); done]);
      destruct (e ?= e')%Z; simpl;
      destruct (Pos.compare_cont Eq m m'); simpl;
      (split;
       [ intros ?; first [done | split_and!; [done|by apply Hm|by apply He]]
       | intros (_ & Hm' & He');
         first [done | by apply Hm in Hm' | by apply He in He'] ]).
Qed.

Lemma SFeqb_sym (x y : spec_float) : SFeqb x y = SFeqb y x.
Proof.
  apply eq_true_iff_eq. rewrite !SFeqb_true_iff.
  destruct x, y; try done; split; intros; destruct_and?; subst; done.
Qed.

Lemma SFeqb_trans (x y z : spec_float) :
  SFeqb x y = true → SFeqb y z = true → SFeqb x z = true.
Proof.
  rewrite !SFeqb_true_iff.
  destruct x, y, z; try done; intros; destruct_and?; subst; done.
Qed.

Lemma all_equal_float_sym (a b : list spec_float) :
  all_equal_float a b = all_equal_float b a.
Proof.
  revert b. induction a as [|x a IH]; intros [|y b]; simpl; try done.
  by rewrite SFeqb_sym, IH.
Qed.

Lemma all_equal_float_trans (a b c : list spec_float) :
  all_equal_float a b = true → all_equal_float b c = true →
  all_equal_float a c = true.
Proof.
  revert b c. induction a as [|x a IH]; intros [|y b] [|z c]; simpl; try done.
  rewrite !andb_true_iff. intros [Hxy Hab] [Hyz Hbc].
  split; [by eapply SFeqb_trans|by eapply IH].
Qed.

Lemma array_equal_float_sym (a b : farray) :
  array_equal_float a b = array_equal_float b a.
Proof.
  unfold array_equal_float. rewrite all_equal_float_sym. f_equal.
  apply eq_true_iff_eq. rewrite !bool_decide_eq_true. split; congruence.
Qed.

Lemma array_equal_float_trans (a b c : farray) :
  array_equal_float a b = true → array_equal_float b c = true →
  array_equal_float a c = true.
Proof.
  unfold array_equal_float. rewrite !andb_true_iff, !bool_decide_eq_true.
  intros [? ?] [? ?]. split; [congruence|by eapply all_equal_float_trans].
Qed.
End FloatEq.

(** ** [==] in both directions *)

Section EqSym.
Import MeshStore.

Lemma eq_true_sym (a b : Mesh) :
  dict_keys (N_BC_triangles a) = dict_keys (BC_triangles a) →
  NoDup (dict_keys (N_BC_triangles a)) →
  dict_keys (N_BC_triangles b) = dict_keys (BC_triangles b) →
  NoDup (dict_keys (N_BC_triangles b)) →
  __eq__ a (VMesh b) = Ok true → __eq__ b (VMesh a) = Ok true.
Proof.
  intros Hka Hnda Hkb Hndb.
  rewrite !eq_true_iff, !dict_equal_nat_iff.
  intros (HNv & HNt & [HlenN HN] & Hv & Ht & HT).
  assert (HlenT : length (BC_triangles a) = length (BC_triangles b)).
  { rewrite <- (length_fmap fst (BC_triangles a)).
    rewrite <- (length_fmap fst (BC_triangles b)).
    fold (dict_keys (BC_triangles a)). fold (dict_keys (BC_triangles b)).
    rewrite <- Hka, <- Hkb. unfold dict_keys. by rewrite !length_fmap. }
  split_and!; try done.
  - apply Forall_dict_get; [done|].
    apply dict_part_sym; [done..|]. by apply Forall_dict_get.
  - by rewrite array_equal_float_sym.
  - apply Forall_dict_get; [by rewrite <- Hkb|].
    apply dict_part_sym; [by rewrite <- Hka|done|].
    apply Forall_dict_get; [by rewrite <- Hka|done].
Qed.
End EqSym.

(** ** Renaming the boundary codes *)

Section Recode.
Import Numpy MeshStore PartSpec.

Variable g : Z → Z.
Hypothesis g_inj : ∀ x y, g x = g y → x = y.

Lemma dict_keys_recode (labels : dict Z) :
  dict_keys (recode_labels g labels) = dict_keys labels.
Proof.
  unfold dict_keys, recode_labels. rewrite <- list_fmap_compose.
  by apply list_fmap_ext.
Qed.

Lemma dict_values_recode (labels : dict Z) :
  dict_values (recode_labels g labels) = g <$> dict_values labels.
Proof.
  unfold dict_values, recode_labels. rewrite <- !list_fmap_compose.
  by apply list_fmap_ext.
Qed.

Lemma dict_get_recode (labels : dict Z) (k : string) :
  dict_get k (recode_labels g labels) = g <$> dict_get k labels.
Proof.
  induction labels as [|[k' v] labels IH]; [done|].
  unfold recode_labels. rewrite fmap_cons. cbn [dict_get fst snd].
  by destruct (decide (k' = k)).
Qed.

Lemma elem_of_fmap_inj (l : list Z) (c : Z) : g c ∈ g <$> l ↔ c ∈ l.
Proof.
  rewrite list_elem_of_fmap. split.
  - intros (c' & Heq & Hin). by rewrite (g_inj _ _ Heq).
  - intros Hin. by exists c.
Qed.

Lemma labels_match_recode (labels : dict Z) (physical : list Z) :
  labels_match (recode_labels g labels) (g <$> physical) ↔
  labels_match labels physical.
Proof.
  unfold labels_match. rewrite dict_values_recode.
  assert (Hnd : NoDup (g <$> dict_values labels) ↔ NoDup (dict_values labels)).
  { split; [apply NoDup_fmap_1|].
    apply NoDup_fmap_2. intros x y. apply g_inj. }
  rewrite Hnd. split; intros [? Hcover]; (split; [done|]).
  - intros c. rewrite <- (elem_of_fmap_inj (dict_values labels) c).
    rewrite <- (elem_of_fmap_inj physical c). apply Hcover.
  - intros c. split; intros (c' & -> & Hin)%list_elem_of_fmap;
      apply elem_of_fmap_inj; by apply Hcover.
Qed.

Lemma partition_step_recode (md : mesh_data) (labels : dict Z)
    (acc : dict nat * dict (list face)) (k : string) :
  partition_step (recode_file g md) (recode_labels g labels) acc k
  = partition_step md labels acc k.
Proof.
  unfold partition_step, recode_file. simpl.
  destruct (physical_triangle md) as [physical|]; [|done].
  simpl key_lookup. rewrite !rbind_Ok.
  unfold subscript. rewrite dict_get_recode.
  destruct (dict_get k labels) as [code|]; [|done].
  simpl. rewrite <- list_fmap_compose.
  assert (Hmask : (λ c : Z, bool_decide (c = g code)) ∘ g <$> physical
                  = (λ c : Z, bool_decide (c = code)) <$> physical).
  { apply list_fmap_ext. intros i c _. simpl.
    apply bool_decide_ext. split; [apply g_inj|congruence]. }
  by rewrite Hmask.
Qed.

Lemma for_each_partition_recode (md : mesh_data) (labels : dict Z)
    (acc : dict nat * dict (list face)) (ks : list string) :
  for_each (partition_step (recode_file g md) (recode_labels g labels)) acc ks
  = for_each (partition_step md labels) acc ks.
Proof.
  revert acc. induction ks as [|k ks IH]; intros acc; [done|].
  simpl. rewrite partition_step_recode.
  destruct (partition_step md labels acc k); [|done].
  rewrite !rbind_Ok. apply IH.
Qed.

Lemma init_recode (hash_tuple : face → Z) (argsort : list Z → list nat)
    (md : mesh_data) (labels : dict Z) :
  __init_from_file hash_tuple argsort (recode_file g md) (recode_labels g labels)
  = __init_from_file hash_tuple argsort md labels.
Proof.
  rewrite !init_unfold.
  rewrite dict_keys_recode, for_each_partition_recode.
  unfold recode_file at 1. cbn [physical_triangle].
  destruct (physical_triangle md) as [physical|]; [|done].
  assert (Hcheck : bool_decide (sorted (dict_values (recode_labels g labels))
                                = sorted (unique (g <$> physical)))
                   = bool_decide (sorted (dict_values labels)
                                  = sorted (unique physical))).
  { apply bool_decide_ext. rewrite !labels_match_check.
    apply labels_match_recode. }
  rewrite Hcheck. done.
Qed.
End Recode.

(** ** Further properties of the connectivity builder *)

Section ConnectivityProperties.
Import Numpy Connectivity ConnSpec FaceSpec Examples Scenarios.

Ltac decide_by_computation :=
  apply (bool_decide_unpack _); vm_compute; exact I.

(** X1. The builder raises exactly when it is given no tetrahedron:
    [reshape([-1, N_tets])] cannot infer a dimension for
    [N_tets = 0]; for every other array it returns its two tables. *)
Theorem X1_builder_raises_iff_no_tetrahedron
    (hash_tuple : face → Z) (argsort : list Z → list nat) (tets : list tet) :
  (∀ keys, is_argsort keys (argsort keys)) →
  __compute_element_connectivity hash_tuple argsort tets = None ↔ tets = [].
Proof.
  intros Hok. split.
  - intros Hnone. destruct tets as [|t tets]; [done|].
    destruct (compute_element_connectivity_returns hash_tuple argsort Hok
                (t :: tets)) as [r Hr]; [done|].
    congruence.
  - intros ->. apply compute_element_connectivity_nil.
Qed.

Lemma X1_builder_raises_iff_no_tetrahedron_witness :
  __compute_element_connectivity py_hash_tuple merge_argsort [] = None.
Proof.
  apply (X1_builder_raises_iff_no_tetrahedron
           py_hash_tuple merge_argsort [] merge_argsort_ok).
  reflexivity.
Defined.

(** X2. Both returned tables have shape [(4, N_tets)], and every
    entry is a valid index: [EToE[f, e] < N_tets] and
    [EToF[f, e] < 4]. *)
Theorem X2_tables_shape_and_range
    (hash_tuple : face → Z) (argsort : list Z → list nat)
    (tets : list tet) (EToE EToF : ndarray) :
  (∀ keys, is_argsort keys (argsort keys)) →
  __compute_element_connectivity hash_tuple argsort tets = Some (EToE, EToF) →
  shape EToE = (4, length tets) ∧ shape EToF = (4, length tets) ∧
  length (data EToE) = 4 * length tets ∧
  length (data EToF) = 4 * length tets ∧
  ∀ f e, f < 4 → e < length tets →
    ∃ e2 f2, at_ EToE f e = Some e2 ∧ at_ EToF f e = Some f2 ∧
             e2 < length tets ∧ f2 < 4.
Proof.
  intros Hok Hrun.
  destruct (tables_shape hash_tuple argsort Hok tets EToE EToF Hrun)
    as (_ & ? & ? & ? & ?).
  split_and!; [done..|].
  intros f e Hf He.
  destruct (result_lookup hash_tuple argsort Hok tets EToE EToF f e
              Hrun Hf He) as (p & Hp & HE & HF).
  exists (p mod length tets), (p / length tets).
  destruct (result_entry_slot hash_tuple argsort Hok tets EToE EToF f e _ _
              Hrun Hf He HE HF) as (? & ? & _).
  done.
Qed.

Lemma X2_tables_shape_and_range_witness :
  ∃ EToE EToF,
    __compute_element_connectivity py_hash_tuple merge_argsort two_tets
      = Some (EToE, EToF) ∧
    shape EToE = (4, 2) ∧ shape EToF = (4, 2) ∧
    length (data EToE) = 8 ∧ length (data EToF) = 8 ∧
    ∀ f e, f < 4 → e < 2 →
      ∃ e2 f2, at_ EToE f e = Some e2 ∧ at_ EToF f e = Some f2 ∧
               e2 < 2 ∧ f2 < 4.
Proof.
  destruct (__compute_element_connectivity py_hash_tuple merge_argsort two_tets)
    as [[EToE EToF]|] eqn:Hrun; [|vm_compute in Hrun; discriminate Hrun].
  exists EToE, EToF. split; [reflexivity|].
  exact (X2_tables_shape_and_range py_hash_tuple merge_argsort two_tets
           EToE EToF merge_argsort_ok Hrun).
Defined.

(** X3. After [vstack] and the in-place sort, row [f * N_tets + e] of
    [face_vertices] holds the vertices of local face [f] of element
    [e] (columns [[0,1,2]], [[0,1,3]], [[1,2,3]], [[0,2,3]]) in
    ascending order; the array has [4 * N_tets] rows. *)
Theorem X3_face_rows_by_slot (tets : list tet) (f e : nat) (t : tet) :
  f < 4 → tets !! e = Some t →
  length (sorted_face_vertices tets) = 4 * length tets ∧
  ∃ a b c,
    sorted_face_vertices tets !! (f * length tets + e) = Some (a, b, c) ∧
    (a ≤ b ≤ c)%Z ∧ same_vertices (local_face f t) (a, b, c).
Proof.
  intros Hf Ht. split; [apply length_sorted_face_vertices|].
  pose proof (sorted_face_vertices_slot tets f e t Hf Ht) as Hrow.
  unfold slot in Hrow.
  pose proof (sort_row_sorted (local_face f t)) as Hs.
  pose proof (sort_row_same_vertices (local_face f t)) as Hp.
  destruct (sort_row (local_face f t)) as [[a b] c].
  exists a, b, c. split_and!; [done| | |done].
  - inversion Hs as [|? ? ? Hhd]; subst. by inversion Hhd.
  - inversion Hs as [|? ? Hs']; subst.
    inversion Hs' as [|? ? ? Hhd]; subst. by inversion Hhd.
Qed.

Lemma X3_face_rows_by_slot_witness :
  length (sorted_face_vertices two_tets) = 4 * length two_tets ∧
  ∃ a b c,
    sorted_face_vertices two_tets !! (2 * length two_tets + 1) = Some (a, b, c) ∧
    (a ≤ b ≤ c)%Z ∧ same_vertices (local_face 2 (1, 2, 3, 4)%Z) (a, b, c).
Proof.
  apply (X3_face_rows_by_slot two_tets 2 1 (1, 2, 3, 4)%Z); [lia|reflexivity].
Defined.

(** X4. An entry of the tables never refers to a face slot with a
    different face id: the slot [(EToF[f, e], EToE[f, e])] carries
    the same id as the slot [(f, e)], for every input array. *)
Theorem X4_entries_refer_to_equal_ids
    (hash_tuple : face → Z) (argsort : list Z → list nat)
    (tets : list tet) (EToE EToF : ndarray) (f e e2 f2 : nat) :
  (∀ keys, is_argsort keys (argsort keys)) →
  __compute_element_connectivity hash_tuple argsort tets = Some (EToE, EToF) →
  f < 4 → e < length tets →
  at_ EToE f e = Some e2 → at_ EToF f e = Some f2 →
  face_keys hash_tuple tets !! (f2 * length tets + e2)
  = face_keys hash_tuple tets !! (f * length tets + e).
Proof.
  intros Hok Hrun Hf He HE HF.
  by destruct (result_entry_slot hash_tuple argsort Hok tets EToE EToF f e e2 f2
                 Hrun Hf He HE HF) as (_ & _ & _ & Hkey).
Qed.

Lemma X4_entries_refer_to_equal_ids_witness :
  ∃ EToE EToF,
    __compute_element_connectivity py_hash_tuple merge_argsort colliding_triple
      = Some (EToE, EToF) ∧
    at_ EToE 0 2 = Some 1 ∧ at_ EToF 0 2 = Some 0 ∧
    face_keys py_hash_tuple colliding_triple !! (0 * length colliding_triple + 1)
    = face_keys py_hash_tuple colliding_triple !! (0 * length colliding_triple + 2).
Proof.
  destruct (__compute_element_connectivity py_hash_tuple merge_argsort
              colliding_triple)
    as [[EToE EToF]|] eqn:Hrun; [|vm_compute in Hrun; discriminate Hrun].
  exists EToE, EToF. split; [reflexivity|].
  assert (HE : at_ EToE 0 2 = Some 1).
  { vm_compute in Hrun. injection Hrun as <- <-. reflexivity. }
  assert (HF : at_ EToF 0 2 = Some 0).
  { vm_compute in Hrun. injection Hrun as <- <-. reflexivity. }
  split; [exact HE|]. split; [exact HF|].
  refine (X4_entries_refer_to_equal_ids py_hash_tuple merge_argsort
            colliding_triple EToE EToF 0 2 1 0 merge_argsort_ok Hrun _ _ HE HF);
    vm_compute; lia.
Defined.

(** X5. When the face ids do not collide on the faces of the mesh,
    every entry of the tables refers to a face with the same three
    vertices: local face [EToF[f, e]] of element [EToE[f, e]] and
    local face [f] of element [e] have the same vertex set. This
    holds for every input array, also when a face is shared by more
    than two elements. *)
Theorem X5_entries_refer_to_same_vertices
    (hash_tuple : face → Z) (argsort : list Z → list nat)
    (tets : list tet) (EToE EToF : ndarray) (f e e2 f2 : nat) (t : tet) :
  (∀ keys, is_argsort keys (argsort keys)) →
  collision_free hash_tuple (sorted_face_vertices tets) →
  __compute_element_connectivity hash_tuple argsort tets = Some (EToE, EToF) →
  f < 4 → tets !! e = Some t →
  at_ EToE f e = Some e2 → at_ EToF f e = Some f2 →
  ∃ t2, tets !! e2 = Some t2 ∧ f2 < 4 ∧
        same_vertices (local_face f2 t2) (local_face f t).
Proof.
  intros Hok. by apply entry_same_vertices.
Qed.

Lemma X5_entries_refer_to_same_vertices_witness :
  ∃ EToE EToF,
    __compute_element_connectivity py_hash_tuple merge_argsort two_tets
      = Some (EToE, EToF) ∧
    at_ EToE 2 0 = Some 1 ∧ at_ EToF 2 0 = Some 0 ∧
    ∃ t2, two_tets !! 1 = Some t2 ∧ 0 < 4 ∧
          same_vertices (local_face 0 t2) (local_face 2 (0, 1, 2, 3)%Z).
Proof.
  destruct (__compute_element_connectivity py_hash_tuple merge_argsort two_tets)
    as [[EToE EToF]|] eqn:Hrun; [|vm_compute in Hrun; discriminate Hrun].
  exists EToE, EToF. split; [reflexivity|].
  assert (HE : at_ EToE 2 0 = Some 1).
  { vm_compute in Hrun. injection Hrun as <- <-. reflexivity. }
  assert (HF : at_ EToF 2 0 = Some 0).
  { vm_compute in Hrun. injection Hrun as <- <-. reflexivity. }
  split; [exact HE|]. split; [exact HF|].
  refine (X5_entries_refer_to_same_vertices py_hash_tuple merge_argsort
            two_tets EToE EToF 2 0 1 0 (0, 1, 2, 3)%Z
            merge_argsort_ok _ Hrun _ _ HE HF);
    [decide_by_computation | lia | reflexivity].
Defined.

(** X6. When the face ids do not collide on the faces of the mesh, a
    face slot keeps its initial entries, [EToE[f, e] = e] and
    [EToF[f, e] = f], exactly when no other local face of any
    element has the same three vertices: the self-referencing slots
    are the boundary faces. *)
Theorem X6_self_reference_marks_boundary_faces
    (hash_tuple : face → Z) (argsort : list Z → list nat)
    (tets : list tet) (EToE EToF : ndarray) (f e : nat) (t : tet) :
  (∀ keys, is_argsort keys (argsort keys)) →
  collision_free hash_tuple (sorted_face_vertices tets) →
  __compute_element_connectivity hash_tuple argsort tets = Some (EToE, EToF) →
  f < 4 → tets !! e = Some t →
  (at_ EToE f e = Some e ∧ at_ EToF f e = Some f) ↔
  (∀ f' e' t', f' < 4 → tets !! e' = Some t' →
     same_vertices (local_face f' t') (local_face f t) → f' = f ∧ e' = e).
Proof.
  intros Hok. by apply self_reference_iff_boundary.
Qed.

Lemma X6_self_reference_marks_boundary_faces_witness :
  ∃ EToE EToF,
    __compute_element_connectivity py_hash_tuple merge_argsort two_tets
      = Some (EToE, EToF) ∧
    ((at_ EToE 1 0 = Some 0 ∧ at_ EToF 1 0 = Some 1) ↔
     (∀ f' e' t', f' < 4 → two_tets !! e' = Some t' →
        same_vertices (local_face f' t') (local_face 1 (0, 1, 2, 3)%Z) →
        f' = 1 ∧ e' = 0)).
Proof.
  destruct (__compute_element_connectivity py_hash_tuple merge_argsort two_tets)
    as [[EToE EToF]|] eqn:Hrun; [|vm_compute in Hrun; discriminate Hrun].
  exists EToE, EToF. split; [reflexivity|].
  refine (X6_self_reference_marks_boundary_faces py_hash_tuple merge_argsort
            two_tets EToE EToF 1 0 (0, 1, 2, 3)%Z
            merge_argsort_ok _ Hrun _ _);
    [decide_by_computation | lia | reflexivity].
Defined.

(** X7. When the face ids do not collide on the faces of the mesh and
    every face vertex-set occurs at most twice, the tables are
    symmetric: if [EToE[f, e] = e2 ≠ e] and [EToF[f, e] = f2] then
    [EToE[f2, e2] = e] and [EToF[f2, e2] = f]. *)
Theorem X7_symmetric_without_collisions
    (hash_tuple : face → Z) (argsort : list Z → list nat)
    (tets : list tet) (EToE EToF : ndarray) :
  (∀ keys, is_argsort keys (argsort keys)) →
  collision_free hash_tuple (sorted_face_vertices tets) →
  pairs_only (sorted_face_vertices tets) →
  __compute_element_connectivity hash_tuple argsort tets = Some (EToE, EToF) →
  ∀ e f e2 f2, e < length tets → f < 4 →
    at_ EToE f e = Some e2 → at_ EToF f e = Some f2 → e2 ≠ e →
    at_ EToE f2 e2 = Some e ∧ at_ EToF f2 e2 = Some f.
Proof.
  intros Hok Hfree Hpairs Hrun.
  apply (symmetry_of_paired_keys hash_tuple argsort Hok tets); [done|].
  unfold face_keys. apply pairs_only_fmap_on; [|done].
  intros x y. by apply collision_free_inj.
Qed.

Lemma X7_symmetric_without_collisions_witness :
  ∃ EToE EToF,
    __compute_element_connectivity py_hash_tuple merge_argsort two_tets
      = Some (EToE, EToF) ∧
    ∀ e f e2 f2, e < length two_tets → f < 4 →
      at_ EToE f e = Some e2 → at_ EToF f e = Some f2 → e2 ≠ e →
      at_ EToE f2 e2 = Some e ∧ at_ EToF f2 e2 = Some f.
Proof.
  destruct (__compute_element_connectivity py_hash_tuple merge_argsort two_tets)
    as [[EToE EToF]|] eqn:Hrun; [|vm_compute in Hrun; discriminate Hrun].
  exists EToE, EToF. split; [reflexivity|].
  refine (X7_symmetric_without_collisions py_hash_tuple merge_argsort
            two_tets EToE EToF merge_argsort_ok _ _ Hrun);
    unfold pairs_only; decide_by_computation.
Defined.

(** X8. When no face id is carried by more than two face slots, the
    tables do not depend on the order in which [numpy.argsort]
    leaves equal ids: any two sorting rearrangements give the same
    result. *)
Theorem X8_result_independent_of_tie_order
    (hash_tuple : face → Z) (argsort argsort' : list Z → list nat)
    (tets : list tet) :
  (∀ keys, is_argsort keys (argsort keys)) →
  (∀ keys, is_argsort keys (argsort' keys)) →
  pairs_only (face_keys hash_tuple tets) →
  __compute_element_connectivity hash_tuple argsort tets
  = __compute_element_connectivity hash_tuple argsort' tets.
Proof.
  intros Hok Hok' Hpairs.
  destruct tets as [|t tets].
  - by rewrite !compute_element_connectivity_nil.
  - by rewrite !compute_element_connectivity_exact.
Qed.

Lemma X8_result_independent_of_tie_order_witness :
  __compute_element_connectivity py_hash_tuple merge_argsort two_tets
  = __compute_element_connectivity py_hash_tuple merge_argsort_desc two_tets.
Proof.
  refine (X8_result_independent_of_tie_order py_hash_tuple
            merge_argsort merge_argsort_desc two_tets
            merge_argsort_ok merge_argsort_desc_ok _).
  unfold pairs_only; decide_by_computation.
Defined.

(** Where a face id is carried by three slots the order of equal ids
    shows in the result. *)
Example tie_order_shows_on_shared_face :
  ∃ EToE EToF EToE' EToF',
    __compute_element_connectivity py_hash_tuple merge_argsort shared_by_three
      = Some (EToE, EToF) ∧
    __compute_element_connectivity py_hash_tuple merge_argsort_desc shared_by_three
      = Some (EToE', EToF') ∧
    tolist EToE = [[1; 0; 1]; [0; 1; 2]; [0; 1; 2]; [0; 1; 2]] ∧
    tolist EToE' = [[1; 2; 1]; [0; 1; 2]; [0; 1; 2]; [0; 1; 2]].
Proof.
  eexists _, _, _, _. split_and!; vm_compute; reflexivity.
Qed.

(** X9. When every face vertex-set occurs at most twice and the face
    ids collide neither on the faces of the mesh nor on the faces of
    the renumbered mesh, renumbering the vertices by a one-to-one map
    leaves both tables unchanged. *)
Theorem X9_renumbering_without_collisions
    (hash_tuple : face → Z) (argsort : list Z → list nat)
    (p : Z → Z) (tets : list tet) :
  (∀ keys, is_argsort keys (argsort keys)) →
  (∀ v w, p v = p w → v = w) →
  collision_free hash_tuple (sorted_face_vertices tets) →
  collision_free hash_tuple (sorted_face_vertices (relabel p tets)) →
  pairs_only (sorted_face_vertices tets) →
  __compute_element_connectivity hash_tuple argsort (relabel p tets)
  = __compute_element_connectivity hash_tuple argsort tets.
Proof.
  intros Hok Hinj Hfree Hfree' Hpairs.
  destruct tets as [|t tets]; [done|].
  set (ts := t :: tets) in *.
  assert (Hlen : length (relabel p ts) = length ts)
    by (unfold relabel; by rewrite length_fmap).
  assert (Hcand : ∀ s, candidates (face_keys hash_tuple (relabel p ts)) s
                       = candidates (face_keys hash_tuple ts) s).
  { intros s. unfold face_keys.
    rewrite !(candidates_fmap_on hash_tuple)
      by (intros x y; by apply collision_free_inj).
    by apply candidates_relabel. }
  assert (Hpairs0 : pairs_only (face_keys hash_tuple ts)).
  { unfold face_keys. apply pairs_only_fmap_on; [|done].
    intros x y. by apply collision_free_inj. }
  assert (Hpairs' : pairs_only (face_keys hash_tuple (relabel p ts))).
  { unfold pairs_only. rewrite length_face_keys, Hlen, <- (length_face_keys hash_tuple).
    apply list.Forall_forall. intros s Hs. rewrite Hcand.
    unfold pairs_only in Hpairs0. rewrite list.Forall_forall in Hpairs0.
    by apply Hpairs0. }
  rewrite !(compute_element_connectivity_exact hash_tuple argsort Hok);
    try done.
  rewrite Hlen. f_equal.
  f_equal; f_equal; apply fmap_seq_ext; intros s _; unfold mate;
    by rewrite Hcand.
Qed.

Lemma X9_renumbering_without_collisions_witness :
  relabel (Z.add 10) two_tets = [(10, 11, 12, 13); (11, 12, 13, 14)]%Z ∧
  __compute_element_connectivity py_hash_tuple merge_argsort
    [(10, 11, 12, 13); (11, 12, 13, 14)]%Z
  = __compute_element_connectivity py_hash_tuple merge_argsort two_tets.
Proof.
  split; [reflexivity|].
  refine (X9_renumbering_without_collisions py_hash_tuple merge_argsort
            (Z.add 10) two_tets merge_argsort_ok _ _ _ _);
    [ intros v w; lia | decide_by_computation | decide_by_computation
    | unfold pairs_only; decide_by_computation ].
Defined.
(** X10. When the face ids do not collide on the faces of the mesh
    and every face vertex-set occurs at most twice, two different
    face slots with the same three vertices are linked: the entries
    at [(f, e)] are the element and the local face of the other
    slot. *)
Theorem X10_shared_faces_are_linked
    (hash_tuple : face → Z) (argsort : list Z → list nat)
    (tets : list tet) (EToE EToF : ndarray)
    (f e f' e' : nat) (t t' : tet) :
  (∀ keys, is_argsort keys (argsort keys)) →
  collision_free hash_tuple (sorted_face_vertices tets) →
  pairs_only (sorted_face_vertices tets) →
  __compute_element_connectivity hash_tuple argsort tets = Some (EToE, EToF) →
  f < 4 → tets !! e = Some t → f' < 4 → tets !! e' = Some t' →
  (f', e') ≠ (f, e) →
  same_vertices (local_face f' t') (local_face f t) →
  at_ EToE f e = Some e' ∧ at_ EToF f e = Some f'.
Proof.
  intros Hok. by apply linked_slots.
Qed.

Lemma X10_shared_faces_are_linked_witness :
  ∃ EToE EToF,
    __compute_element_connectivity py_hash_tuple merge_argsort mirrored_tets
      = Some (EToE, EToF) ∧
    at_ EToE 0 0 = Some 1 ∧ at_ EToF 0 0 = Some 0.
Proof.
  destruct (__compute_element_connectivity py_hash_tuple merge_argsort
              mirrored_tets)
    as [[EToE EToF]|] eqn:Hrun; [|vm_compute in Hrun; discriminate Hrun].
  exists EToE, EToF. split; [reflexivity|].
  refine (X10_shared_faces_are_linked py_hash_tuple merge_argsort
            mirrored_tets EToE EToF 0 0 0 1 (0, 1, 2, 3)%Z (0, 1, 2, 4)%Z
            merge_argsort_ok _ _ Hrun _ _ _ _ _ _);
    clear Hrun;
    [ decide_by_computation | unfold pairs_only; decide_by_computation
    | lia | reflexivity | lia | reflexivity | intros [=]
    | vm_compute; reflexivity ].
Defined.

(** X11. Renumbering the elements renumbers the tables: if element
    [e] of the second array is element [σ e] of the first, the face
    ids do not collide and every face vertex-set occurs at most
    twice, then [EToF'[f, e] = EToF[f, σ e]] and
    [σ (EToE'[f, e]) = EToE[f, σ e]]. *)
Theorem X11_renumbering_the_elements
    (hash_tuple : face → Z) (argsort : list Z → list nat)
    (tets tets' : list tet) (σ τ : nat → nat)
    (EToE EToF EToE' EToF' : ndarray) (f e : nat) :
  (∀ keys, is_argsort keys (argsort keys)) →
  length tets' = length tets →
  (∀ e, e < length tets →
     σ e < length tets ∧ τ (σ e) = e ∧ tets' !! e = tets !! σ e) →
  (∀ e, e < length tets → τ e < length tets ∧ σ (τ e) = e) →
  collision_free hash_tuple (sorted_face_vertices tets) →
  pairs_only (sorted_face_vertices tets) →
  __compute_element_connectivity hash_tuple argsort tets = Some (EToE, EToF) →
  __compute_element_connectivity hash_tuple argsort tets' = Some (EToE', EToF') →
  f < 4 → e < length tets →
  ∃ e2 f2, at_ EToE' f e = Some e2 ∧ at_ EToF' f e = Some f2 ∧
           at_ EToE f (σ e) = Some (σ e2) ∧ at_ EToF f (σ e) = Some f2.
Proof.
  intros Hok. by apply renumbered_entries.
Qed.

Lemma X11_renumbering_the_elements_witness :
  ∃ EToE EToF EToE' EToF',
    __compute_element_connectivity py_hash_tuple merge_argsort two_tets
      = Some (EToE, EToF) ∧
    __compute_element_connectivity py_hash_tuple merge_argsort
        [(1, 2, 3, 4); (0, 1, 2, 3)]%Z
      = Some (EToE', EToF') ∧
    ∃ e2 f2, at_ EToE' 0 0 = Some e2 ∧ at_ EToF' 0 0 = Some f2 ∧
             at_ EToE 0 (1 - 0) = Some (1 - e2) ∧ at_ EToF 0 (1 - 0) = Some f2.
Proof.
  destruct (__compute_element_connectivity py_hash_tuple merge_argsort two_tets)
    as [[EToE EToF]|] eqn:Hrun; [|vm_compute in Hrun; discriminate Hrun].
  destruct (__compute_element_connectivity py_hash_tuple merge_argsort
              [(1, 2, 3, 4); (0, 1, 2, 3)]%Z)
    as [[EToE' EToF']|] eqn:Hrun'; [|vm_compute in Hrun'; discriminate Hrun'].
  exists EToE, EToF, EToE', EToF'. split; [reflexivity|]. split; [reflexivity|].
  refine (X11_renumbering_the_elements py_hash_tuple merge_argsort
            two_tets [(1, 2, 3, 4); (0, 1, 2, 3)]%Z (λ e, 1 - e) (λ e, 1 - e)
            EToE EToF EToE' EToF' 0 0
            merge_argsort_ok _ _ _ _ _ Hrun Hrun' _ _);
    clear Hrun Hrun';
    [ reflexivity
    | intros [|[|e]] He; cbn in He |- *;
        [split_and!; [lia|reflexivity..] | split_and!; [lia|reflexivity..] | lia]
    | intros [|[|e]] He; cbn in He |- *; [split; [lia|reflexivity].. | lia]
    | decide_by_computation | unfold pairs_only; decide_by_computation
    | lia | cbn; lia ].
Defined.

(** X12. The face ids fit the array they are stored in: for every
    row, [hash(tuple(x))] lies in the range of a signed 64-bit
    integer, and it is never [-1]. *)
Theorem X12_face_ids_fit_int64 (tets : list tet) (k : Z) :
  k ∈ face_keys py_hash_tuple tets →
  (- 2 ^ 63 ≤ k < 2 ^ 63)%Z ∧ k ≠ (-1)%Z.
Proof.
  unfold face_keys. intros ([[a b] c] & -> & _)%list_elem_of_fmap.
  unfold py_hash_tuple, PyHash.tuplehash.
  set (acc := PyHash.u64 _).
  assert (Hacc : (0 ≤ acc < 2 ^ 64)%Z).
  { unfold acc, PyHash.u64. apply Z.mod_pos_bound. lia. }
  destruct (Z.eqb_spec acc (2 ^ 64 - 1)) as [_|Hne]; [lia|].
  unfold PyHash.i64. destruct (Z.ltb_spec acc (2 ^ 63)); lia.
Qed.

Lemma X12_face_ids_fit_int64_witness :
  (- 2 ^ 63 ≤ -8094804343624863230 < 2 ^ 63)%Z ∧
  (-8094804343624863230)%Z ≠ (-1)%Z.
Proof.
  apply (X12_face_ids_fit_int64 colliding_pair).
  vm_compute. left.
Defined.
End ConnectivityProperties.

(** ** Further properties of construction *)

Section ConstructionProperties.
Import Numpy Connectivity MeshStore PartSpec Examples Scenarios.

(** Go through the ways in which the constructor can end. *)
Ltac by_init_cases hash_tuple argsort md labels Hok :=
  destruct (init_cases hash_tuple argsort md labels Hok)
    as [(? & ?)
       |[(? & ? & ? & ?)
        |[(? & ? & ? & ? & ? & ?)
         |[(? & ? & ? & ? & ? & ? & ? & ?)
          |[(? & ? & ? & ? & ? & ?)
           |[(? & ? & ? & ? & ? & ?)
            |(? & ? & ? & ? & ? & ? & ? & ? & ?)]]]]]].

Ltac clash :=
  unfold triangles_readable in *;
  repeat match goal with
         | H : ∃ _, _ |- _ => destruct H
         | H : _ ∧ _ |- _ => destruct H
         | H : _ ∨ _ |- _ => destruct H
         end;
  simplify_eq; try done; try congruence.

Ltac decide_by_computation :=
  apply (bool_decide_unpack _); vm_compute; exact I.

(** X13. Construction returns a mesh exactly when the file has tags
    for its triangles, the values of [BC_labels] are pairwise
    different and are the codes that occur among the tags, the
    triangle array has one row per tag (or there is no label), and
    the file has at least one tetrahedron. *)
Theorem X13_construction_succeeds_iff
    (hash_tuple : face → Z) (argsort : list Z → list nat)
    (md : mesh_data) (labels : dict Z) :
  (∀ keys, is_argsort keys (argsort keys)) →
  (∃ m, __init_from_file hash_tuple argsort md labels = Ok m) ↔
  ∃ physical tetra,
    physical_triangle md = Some physical ∧
    labels_match labels physical ∧
    triangles_readable md labels physical ∧
    cells_tetra md = Some tetra ∧ tetra ≠ [].
Proof.
  intros Hok. split.
  - intros [m Hm].
    by_init_cases hash_tuple argsort md labels Hok; try congruence.
    eauto 10.
  - intros (physical & tetra & Hphys & Hmatch & Hread & Htet & Hne).
    by_init_cases hash_tuple argsort md labels Hok; try (by eauto); exfalso;
      clash.
Qed.

Lemma X13_construction_succeeds_iff_witness :
  ∃ m, __init_from_file py_hash_tuple merge_argsort unit_tet_file one_label = Ok m.
Proof.
  apply (X13_construction_succeeds_iff py_hash_tuple merge_argsort
           unit_tet_file one_label merge_argsort_ok).
  exists [1; 1; 1; 1]%Z, [(0, 1, 2, 3)]%Z.
  split_and!; [reflexivity| | |reflexivity|discriminate].
  - apply labels_match_check. vm_compute. reflexivity.
  - right. eexists. split; reflexivity.
Defined.

(** X14. Construction raises [IndexError] exactly when the labels
    pass the check, there is at least one label, and the triangle
    array and the array of tags differ in length: the boolean mask
    of the first label does not fit the triangle array. *)
Theorem X14_index_error_iff
    (hash_tuple : face → Z) (argsort : list Z → list nat)
    (md : mesh_data) (labels : dict Z) :
  (∀ keys, is_argsort keys (argsort keys)) →
  __init_from_file hash_tuple argsort md labels = Raise IndexError ↔
  ∃ physical triangles,
    physical_triangle md = Some physical ∧
    labels_match labels physical ∧ labels ≠ [] ∧
    cells_triangle md = Some triangles ∧
    length triangles ≠ length physical.
Proof.
  intros Hok. split.
  - intros Hm.
    by_init_cases hash_tuple argsort md labels Hok; try congruence.
    eauto 10.
  - intros (physical & triangles & Hphys & Hmatch & Hne & Htri & Hlen).
    by_init_cases hash_tuple argsort md labels Hok; try done; exfalso; clash.
Qed.

Lemma X14_index_error_iff_witness :
  __init_from_file py_hash_tuple merge_argsort short_tags_file one_label
  = Raise IndexError.
Proof.
  apply (X14_index_error_iff py_hash_tuple merge_argsort
           short_tags_file one_label merge_argsort_ok).
  exists [1; 1; 1]%Z, [(0, 1, 2); (0, 1, 3); (1, 2, 3); (0, 2, 3)]%Z.
  split_and!; [reflexivity| |discriminate|reflexivity|simpl; lia].
  apply labels_match_check. vm_compute. reflexivity.
Defined.

(** X15. Construction raises [KeyError] exactly when the file has no
    tags for triangles, or the labels pass the check and either
    there is a label but no triangle array, or the loop over the
    labels can read the triangles and the file has no array of
    tetrahedra. *)
Theorem X15_key_error_iff
    (hash_tuple : face → Z) (argsort : list Z → list nat)
    (md : mesh_data) (labels : dict Z) :
  (∀ keys, is_argsort keys (argsort keys)) →
  __init_from_file hash_tuple argsort md labels = Raise KeyError ↔
  physical_triangle md = None ∨
  ∃ physical,
    physical_triangle md = Some physical ∧ labels_match labels physical ∧
    ((labels ≠ [] ∧ cells_triangle md = None) ∨
     (triangles_readable md labels physical ∧ cells_tetra md = None)).
Proof.
  intros Hok. split.
  - intros Hm.
    by_init_cases hash_tuple argsort md labels Hok; try congruence;
      [by left|right; eauto 10..].
  - intros [Hnone|(physical & Hphys & Hmatch & Hcases)];
      by_init_cases hash_tuple argsort md labels Hok; try done; exfalso; clash.
Qed.

Lemma X15_key_error_iff_witness :
  __init_from_file py_hash_tuple merge_argsort no_tetra_file one_label
  = Raise KeyError.
Proof.
  apply (X15_key_error_iff py_hash_tuple merge_argsort
           no_tetra_file one_label merge_argsort_ok).
  right. exists [1; 1; 1; 1]%Z.
  split_and!; [reflexivity| |].
  - apply labels_match_check. vm_compute. reflexivity.
  - right. split; [|reflexivity]. right. eexists. split; reflexivity.
Defined.

(** X16. Construction of a mesh without tetrahedra fails inside
    numpy: it raises the [ValueError] of [reshape] exactly when the
    labels pass the check, the loop over the labels can read the
    triangles, and the array of tetrahedra is empty. *)
Theorem X16_no_tetrahedra_value_error_iff
    (hash_tuple : face → Z) (argsort : list Z → list nat)
    (md : mesh_data) (labels : dict Z) :
  (∀ keys, is_argsort keys (argsort keys)) →
  __init_from_file hash_tuple argsort md labels = Raise ValueError_numpy ↔
  ∃ physical,
    physical_triangle md = Some physical ∧ labels_match labels physical ∧
    triangles_readable md labels physical ∧ cells_tetra md = Some [].
Proof.
  intros Hok. split.
  - intros Hm.
    by_init_cases hash_tuple argsort md labels Hok; try congruence.
    eauto 10.
  - intros (physical & Hphys & Hmatch & Hread & Htet).
    by_init_cases hash_tuple argsort md labels Hok; try done; exfalso; clash.
Qed.

Lemma X16_no_tetrahedra_value_error_iff_witness :
  __init_from_file py_hash_tuple merge_argsort empty_tetra_file one_label
  = Raise ValueError_numpy.
Proof.
  apply (X16_no_tetrahedra_value_error_iff py_hash_tuple merge_argsort
           empty_tetra_file one_label merge_argsort_ok).
  exists [1; 1; 1; 1]%Z.
  split_and!; [reflexivity| | |reflexivity].
  - apply labels_match_check. vm_compute. reflexivity.
  - right. eexists. split; reflexivity.
Defined.

(** The outcomes of the scenario files. *)
Example scenario_outcomes :
  __init_from_file py_hash_tuple merge_argsort short_tags_file one_label
    = Raise IndexError ∧
  __init_from_file py_hash_tuple merge_argsort no_triangle_file one_label
    = Raise KeyError ∧
  __init_from_file py_hash_tuple merge_argsort no_tetra_file one_label
    = Raise KeyError ∧
  __init_from_file py_hash_tuple merge_argsort empty_tetra_file one_label
    = Raise ValueError_numpy.
Proof. split_and!; vm_compute; reflexivity. Qed.

(** X17. In a constructed mesh, for every label of [BC_labels] with
    code [c], [N_BC_triangles[label]] is the number of triangles
    tagged [c] and [BC_triangles[label]] holds exactly those
    triangles, in file order; every label has at least one
    triangle. *)
Theorem X17_boundary_parts_by_label
    (hash_tuple : face → Z) (argsort : list Z → list nat)
    (md : mesh_data) (labels : dict Z) (m : Mesh)
    (physical : list Z) (triangles : list face) (k : string) (code : Z) :
  NoDup (dict_keys labels) →
  __init_from_file hash_tuple argsort md labels = Ok m →
  physical_triangle md = Some physical →
  cells_triangle md = Some triangles →
  dict_get k labels = Some code →
  dict_get k (N_BC_triangles m) = Some (count_code code physical) ∧
  dict_get k (BC_triangles m)
    = Some (triangles_with_code code triangles physical) ∧
  length (triangles_with_code code triangles physical)
    = count_code code physical ∧
  0 < count_code code physical ∧
  ∀ t, t ∈ triangles_with_code code triangles physical ↔
       ∃ i, triangles !! i = Some t ∧ physical !! i = Some code.
Proof.
  intros Hnd Hinit Hphys Htri Hcode.
  assert (Hne : labels ≠ []) by (by intros ->).
  destruct (init_parts hash_tuple argsort md labels m physical triangles
              Hnd Hinit Hphys Htri Hne) as (Hlen & -> & ->).
  assert (Hk : k ∈ dict_keys labels) by (by eapply dict_get_Some_keys).
  rewrite !dict_get_fmap_keys, !decide_True, Hcode by done. simpl.
  split_and!; [done|done| | |].
  - by apply length_triangles_with_code.
  - apply count_code_pos.
    destruct (init_labels_match hash_tuple argsort md labels m physical
                Hinit Hphys) as [_ Hcover].
    apply Hcover. apply list_elem_of_fmap. exists (k, code).
    split; [done|]. by apply dict_get_elem.
  - intros t. apply elem_of_triangles_with_code.
Qed.

Lemma X17_boundary_parts_by_label_witness :
  ∃ m,
    __init_from_file py_hash_tuple merge_argsort two_code_file wall_slip = Ok m ∧
    dict_get "slip" (N_BC_triangles m) = Some (count_code 2 [1; 2; 2; 1]%Z) ∧
    dict_get "slip" (BC_triangles m)
      = Some (triangles_with_code 2
                [(0, 1, 2); (0, 1, 3); (1, 2, 3); (0, 2, 3)]%Z [1; 2; 2; 1]%Z) ∧
    length (triangles_with_code 2
              [(0, 1, 2); (0, 1, 3); (1, 2, 3); (0, 2, 3)]%Z [1; 2; 2; 1]%Z)
      = count_code 2 [1; 2; 2; 1]%Z ∧
    0 < count_code 2 [1; 2; 2; 1]%Z ∧
    ∀ t, t ∈ triangles_with_code 2
               [(0, 1, 2); (0, 1, 3); (1, 2, 3); (0, 2, 3)]%Z [1; 2; 2; 1]%Z ↔
         ∃ i, [(0, 1, 2); (0, 1, 3); (1, 2, 3); (0, 2, 3)]%Z !! i = Some t ∧
              [1; 2; 2; 1]%Z !! i = Some 2%Z.
Proof.
  destruct (__init_from_file py_hash_tuple merge_argsort two_code_file wall_slip)
    as [m|e] eqn:Hinit; [|vm_compute in Hinit; discriminate Hinit].
  exists m. split; [reflexivity|].
  refine (X17_boundary_parts_by_label py_hash_tuple merge_argsort
            two_code_file wall_slip m _ _ "slip" 2%Z _ Hinit _ _ _);
    [decide_by_computation | reflexivity..].
Defined.

(** X18. The boundary parts of a constructed mesh divide the
    triangles of the file among the labels: the counts in
    [N_BC_triangles] add up to the number of tagged triangles, and
    so do the numbers of rows of the arrays in [BC_triangles]. *)
Theorem X18_parts_divide_the_triangles
    (hash_tuple : face → Z) (argsort : list Z → list nat)
    (md : mesh_data) (labels : dict Z) (m : Mesh) (physical : list Z) :
  NoDup (dict_keys labels) →
  __init_from_file hash_tuple argsort md labels = Ok m →
  physical_triangle md = Some physical →
  sum_list (dict_values (N_BC_triangles m)) = length physical ∧
  sum_list (length <$> dict_values (BC_triangles m)) = length physical.
Proof.
  intros Hnd Hinit Hphys.
  destruct (decide (labels = [])) as [->|Hne].
  { by destruct (init_no_labels hash_tuple argsort md m physical Hinit Hphys)
      as (-> & -> & ->). }
  destruct (init_triangles hash_tuple argsort md labels m physical
              Hinit Hphys Hne) as (triangles & Htri & Hlen).
  destruct (init_parts hash_tuple argsort md labels m physical triangles
              Hnd Hinit Hphys Htri Hne) as (_ & -> & ->).
  destruct (init_labels_match hash_tuple argsort md labels m physical
              Hinit Hphys) as [Hvals Hcover].
  rewrite !dict_values_fmap_keys.
  assert (Hsum : sum_list
            ((λ k, count_code (default 0%Z (dict_get k labels)) physical)
               <$> dict_keys labels) = length physical).
  { rewrite (list_fmap_compose (λ k, default 0%Z (dict_get k labels))
               (λ c, count_code c physical)).
    rewrite dict_get_keys_values by done.
    apply sum_count_code; [done|]. intros c. apply Hcover. }
  split; [done|].
  rewrite <- list_fmap_compose. rewrite <- Hsum. f_equal.
  apply list_fmap_ext. intros i k _. simpl.
  by apply length_triangles_with_code.
Qed.

Lemma X18_parts_divide_the_triangles_witness :
  ∃ m,
    __init_from_file py_hash_tuple merge_argsort two_code_file wall_slip = Ok m ∧
    sum_list (dict_values (N_BC_triangles m)) = length [1; 2; 2; 1]%Z ∧
    sum_list (length <$> dict_values (BC_triangles m)) = length [1; 2; 2; 1]%Z.
Proof.
  destruct (__init_from_file py_hash_tuple merge_argsort two_code_file wall_slip)
    as [m|e] eqn:Hinit; [|vm_compute in Hinit; discriminate Hinit].
  exists m. split; [reflexivity|].
  refine (X18_parts_divide_the_triangles py_hash_tuple merge_argsort
            two_code_file wall_slip m _ _ Hinit _);
    [decide_by_computation | reflexivity].
Defined.

(** X19. A constructed mesh stores the arrays of the file as they
    are, its counts agree with its arrays, it has at least one
    tetrahedron, both boundary dictionaries have the labels of
    [BC_labels] as keys in the order of [BC_labels], [EToV] is
    [tets], and [EToE] and [EToF] are the tables of the builder for
    [tets], of shape [(4, N_tets)]. *)
Theorem X19_constructed_mesh_invariants
    (hash_tuple : face → Z) (argsort : list Z → list nat)
    (md : mesh_data) (labels : dict Z) (m : Mesh) :
  (∀ keys, is_argsort keys (argsort keys)) →
  NoDup (dict_keys labels) →
  __init_from_file hash_tuple argsort md labels = Ok m →
  vertices m = points md ∧ N_vertices m = (fshape (vertices m)).1 ∧
  cells_tetra md = Some (tets m) ∧ EToV m = tets m ∧
  N_tets m = length (tets m) ∧ 0 < N_tets m ∧
  dict_keys (N_BC_triangles m) = dict_keys labels ∧
  dict_keys (BC_triangles m) = dict_keys labels ∧
  __compute_element_connectivity hash_tuple argsort (tets m)
    = Some (EToE m, EToF m) ∧
  shape (EToE m) = (4, N_tets m) ∧ shape (EToF m) = (4, N_tets m).
Proof.
  intros Hok Hnd Hinit.
  destruct (init_fields _ _ _ _ _ Hinit)
    as (physical & parts & tetra & Hphys & _ & _ & Htet & HNv & Hv & _ & _
        & HNt & Ht & Hrun).
  subst tetra.
  destruct (tables_shape hash_tuple argsort Hok _ _ _ Hrun)
    as (Hne & HsE & HsF & _ & _).
  pose proof (init_dict_keys hash_tuple argsort md labels m Hnd Hinit) as Hkeys.
  destruct Hkeys as [HkN HkT].
  rewrite HNt, Hv.
  split_and!; try done.
  destruct (tets m); [done|simpl; lia].
Qed.

Lemma X19_constructed_mesh_invariants_witness :
  ∃ m,
    __init_from_file py_hash_tuple merge_argsort two_code_file wall_slip = Ok m ∧
    vertices m = points two_code_file ∧
    N_vertices m = (fshape (vertices m)).1 ∧
    cells_tetra two_code_file = Some (tets m) ∧ EToV m = tets m ∧
    N_tets m = length (tets m) ∧ 0 < N_tets m ∧
    dict_keys (N_BC_triangles m) = dict_keys wall_slip ∧
    dict_keys (BC_triangles m) = dict_keys wall_slip ∧
    __compute_element_connectivity py_hash_tuple merge_argsort (tets m)
      = Some (EToE m, EToF m) ∧
    shape (EToE m) = (4, N_tets m) ∧ shape (EToF m) = (4, N_tets m).
Proof.
  destruct (__init_from_file py_hash_tuple merge_argsort two_code_file wall_slip)
    as [m|e] eqn:Hinit; [|vm_compute in Hinit; discriminate Hinit].
  exists m. split; [reflexivity|].
  refine (X19_constructed_mesh_invariants py_hash_tuple merge_argsort
            two_code_file wall_slip m merge_argsort_ok _ Hinit).
  decide_by_computation.
Defined.

End ConstructionProperties.

(** ** Further properties of equality *)

Section EqualityProperties.
Import Numpy Connectivity FaceSpec MeshStore PartSpec Examples Scenarios.

Ltac decide_by_computation :=
  apply (bool_decide_unpack _); vm_compute; exact I.

(** X20. The order of the items of [BC_labels] does not matter: with
    the items in another order construction succeeds as well, the
    boundary dictionaries have their keys in that order, and, when
    no coordinate is a NaN, the two meshes compare equal in both
    directions. *)
Theorem X20_label_order_is_irrelevant
    (hash_tuple : face → Z) (argsort : list Z → list nat)
    (md : mesh_data) (labels labels' : dict Z) (m : Mesh) :
  NoDup (dict_keys labels) → labels' ≡ₚ labels →
  __init_from_file hash_tuple argsort md labels = Ok m →
  ∃ m',
    __init_from_file hash_tuple argsort md labels' = Ok m' ∧
    dict_keys (N_BC_triangles m') = dict_keys labels' ∧
    dict_keys (BC_triangles m') = dict_keys labels' ∧
    (Forall (λ x, x ≠ S754_nan) (fdata (points md)) →
     __eq__ m (VMesh m') = Ok true ∧ __eq__ m' (VMesh m) = Ok true).
Proof.
  intros Hnd Hp Hinit.
  assert (Hnd' : NoDup (dict_keys labels')).
  { unfold dict_keys in *. by rewrite Hp. }
  destruct (init_fields _ _ _ _ _ Hinit)
    as (physical & parts & tetra & Hphys & Hcheck & Hparts & Htet & HNv & Hv
        & HN & HT & HNt & Ht & Hrun).
  assert (Hcheck' : sorted (dict_values labels') = sorted (unique physical)).
  { rewrite <- Hcheck. apply sorted_eq_iff. unfold dict_values. by rewrite Hp. }
  assert (∃ parts', for_each (partition_step md labels') ([], [])
                      (dict_keys labels') = Ok parts') as [parts' Hparts'].
  { destruct (decide (labels = [])) as [->|Hne].
    - apply Permutation_nil_r in Hp as ->. by eexists.
    - destruct (init_triangles hash_tuple argsort md labels m physical
                  Hinit Hphys Hne) as (triangles & Htri & Hlen).
      eapply for_each_partition_returns; [done..|apply dict_keys_elem]. }
  assert (∃ m', __init_from_file hash_tuple argsort md labels' = Ok m')
    as [m' Hinit'].
  { rewrite init_unfold, Hphys, bool_decide_true by done.
    rewrite Hparts', Htet, Hrun. by eexists. }
  exists m'. split; [done|].
  destruct (init_dict_keys _ _ _ _ _ Hnd' Hinit') as [HkN' HkT'].
  split; [done|]. split; [done|]. intros Hnan.
  assert (Heq : __eq__ m (VMesh m') = Ok true).
  { destruct (init_fields _ _ _ _ _ Hinit')
      as (physical' & parts'' & tetra' & Hphys' & _ & _ & Htet' & HNv' & Hv'
          & _ & _ & HNt' & Ht' & _).
    apply eq_true_iff. rewrite HNv, HNv', HNt, HNt', Hv, Hv', Ht, Ht'.
    assert (tetra' = tetra) as -> by congruence.
    assert (Hfloat : array_equal_float (points md) (points md) = true).
    { unfold array_equal_float. rewrite bool_decide_true by done.
      by rewrite all_equal_float_refl. }
    destruct (decide (labels = [])) as [->|Hne].
    { apply Permutation_nil_r in Hp as ->.
      destruct (init_no_labels hash_tuple argsort md m physical Hinit Hphys)
        as (_ & -> & ->).
      destruct (init_no_labels hash_tuple argsort md m' physical Hinit' Hphys)
        as (_ & -> & ->).
      split_and!; done. }
    assert (Hne' : labels' ≠ []).
    { intros ->. by apply Permutation_nil_l in Hp. }
    destruct (init_triangles hash_tuple argsort md labels m physical
                Hinit Hphys Hne) as (triangles & Htri & Hlen).
    destruct (init_parts hash_tuple argsort md labels m physical triangles
                Hnd Hinit Hphys Htri Hne) as (_ & -> & ->).
    destruct (init_parts hash_tuple argsort md labels' m' physical triangles
                Hnd' Hinit' Hphys Htri Hne') as (_ & -> & ->).
    assert (Hin : ∀ k, k ∈ dict_keys labels → k ∈ dict_keys labels').
    { intros k. unfold dict_keys. by rewrite Hp. }
    split_and!; try done.
    - apply dict_equal_nat_iff. split.
      + rewrite !length_fmap. unfold dict_keys. by rewrite !length_fmap, Hp.
      + apply list.Forall_forall. intros [k v] Hkv.
        apply list_elem_of_fmap in Hkv as (k' & Heq & Hk'). simplify_eq. simpl.
        rewrite dict_get_fmap_keys, decide_True by (by apply Hin).
        by rewrite (dict_get_Permutation labels labels').
    - apply list.Forall_forall. intros [k v] Hkv.
      apply list_elem_of_fmap in Hkv as (k' & Heq & Hk'). simplify_eq. simpl.
      rewrite dict_get_fmap_keys, decide_True by (by apply Hin).
      by rewrite (dict_get_Permutation labels labels'). }
  split; [done|].
  destruct (init_keys _ _ _ _ _ Hinit) as [? ?].
  destruct (init_keys _ _ _ _ _ Hinit') as [? ?].
  by apply eq_true_sym.
Qed.

Lemma X20_label_order_is_irrelevant_witness :
  ∃ m m',
    __init_from_file py_hash_tuple merge_argsort two_code_file wall_slip = Ok m ∧
    __init_from_file py_hash_tuple merge_argsort two_code_file slip_wall = Ok m' ∧
    __eq__ m (VMesh m') = Ok true ∧ __eq__ m' (VMesh m) = Ok true.
Proof.
  destruct (__init_from_file py_hash_tuple merge_argsort two_code_file wall_slip)
    as [m|e] eqn:Hinit; [|vm_compute in Hinit; discriminate Hinit].
  destruct (X20_label_order_is_irrelevant py_hash_tuple merge_argsort
              two_code_file wall_slip slip_wall m)
    as (m' & Hinit' & _ & _ & Heq).
  - decide_by_computation.
  - apply perm_swap.
  - exact Hinit.
  - exists m, m'. split; [reflexivity|]. split; [exact Hinit'|].
    apply Heq. repeat constructor; discriminate.
Defined.

(** X21. On constructed meshes [==] is symmetric: [a == b] and
    [b == a] return the same value, whatever files and labels the
    two meshes were built from. *)
Theorem X21_eq_is_symmetric
    (hash_tuple hash_tuple' : face → Z) (argsort argsort' : list Z → list nat)
    (md md' : mesh_data) (labels labels' : dict Z) (m m' : Mesh) :
  __init_from_file hash_tuple argsort md labels = Ok m →
  __init_from_file hash_tuple' argsort' md' labels' = Ok m' →
  __eq__ m (VMesh m') = __eq__ m' (VMesh m).
Proof.
  intros Hinit Hinit'.
  destruct (init_keys _ _ _ _ _ Hinit) as [Hk Hnd].
  destruct (init_keys _ _ _ _ _ Hinit') as [Hk' Hnd'].
  destruct (eq_total m m' Hk Hk') as [r Hr].
  destruct (eq_total m' m Hk' Hk) as [r' Hr'].
  rewrite Hr, Hr'. f_equal.
  destruct r, r'; try done.
  - apply eq_true_sym in Hr; [congruence|done..].
  - apply eq_true_sym in Hr'; [congruence|done..].
Qed.

Lemma X21_eq_is_symmetric_witness :
  ∃ m m',
    __init_from_file py_hash_tuple merge_argsort unit_tet_file one_label = Ok m ∧
    __init_from_file py_hash_tuple merge_argsort two_code_file wall_slip = Ok m' ∧
    __eq__ m (VMesh m') = __eq__ m' (VMesh m).
Proof.
  destruct (__init_from_file py_hash_tuple merge_argsort unit_tet_file one_label)
    as [m|e] eqn:Hinit; [|vm_compute in Hinit; discriminate Hinit].
  destruct (__init_from_file py_hash_tuple merge_argsort two_code_file wall_slip)
    as [m'|e] eqn:Hinit'; [|vm_compute in Hinit'; discriminate Hinit'].
  exists m, m'. split; [reflexivity|]. split; [reflexivity|].
  exact (X21_eq_is_symmetric _ _ _ _ _ _ _ _ m m' Hinit Hinit').
Defined.

(** X22. [==] is transitive on meshes: if [a == b] and [b == c]
    return [True] then so does [a == c]. *)
Theorem X22_eq_is_transitive (a b c : Mesh) :
  __eq__ a (VMesh b) = Ok true → __eq__ b (VMesh c) = Ok true →
  __eq__ a (VMesh c) = Ok true.
Proof.
  rewrite !eq_true_iff, !dict_equal_nat_iff.
  intros (? & ? & [? ?] & ? & ? & ?) (? & ? & [? ?] & ? & ? & ?).
  split_and!; try congruence.
  - by eapply Forall_dict_get_trans.
  - by eapply array_equal_float_trans.
  - by eapply Forall_dict_get_trans.
Qed.

Lemma X22_eq_is_transitive_witness :
  ∃ a b c,
    __init_from_file py_hash_tuple merge_argsort two_code_file wall_slip = Ok a ∧
    __init_from_file py_hash_tuple merge_argsort two_code_file slip_wall = Ok b ∧
    __init_from_file py_hash_tuple merge_argsort_desc two_code_file wall_slip
      = Ok c ∧
    __eq__ a (VMesh c) = Ok true.
Proof.
  destruct (__init_from_file py_hash_tuple merge_argsort two_code_file wall_slip)
    as [a|e] eqn:Ha; [|vm_compute in Ha; discriminate Ha].
  destruct (__init_from_file py_hash_tuple merge_argsort two_code_file slip_wall)
    as [b|e] eqn:Hb; [|vm_compute in Hb; discriminate Hb].
  destruct (__init_from_file py_hash_tuple merge_argsort_desc two_code_file
              wall_slip)
    as [c|e] eqn:Hc; [|vm_compute in Hc; discriminate Hc].
  exists a, b, c. split_and!; [reflexivity..|].
  apply (X22_eq_is_transitive a b c).
  - vm_compute in Ha, Hb. injection Ha as <-. injection Hb as <-.
    vm_compute. reflexivity.
  - vm_compute in Hb, Hc. injection Hb as <-. injection Hc as <-.
    vm_compute. reflexivity.
Defined.
(** X23. [==] compares the names of the boundary labels: two
    constructed meshes that compare equal were built with the same
    label names. *)
Theorem X23_eq_compares_label_names
    (hash_tuple hash_tuple' : face → Z) (argsort argsort' : list Z → list nat)
    (md md' : mesh_data) (labels labels' : dict Z) (m m' : Mesh) :
  NoDup (dict_keys labels) → NoDup (dict_keys labels') →
  __init_from_file hash_tuple argsort md labels = Ok m →
  __init_from_file hash_tuple' argsort' md' labels' = Ok m' →
  __eq__ m (VMesh m') = Ok true →
  dict_keys labels ≡ₚ dict_keys labels'.
Proof.
  intros Hnd Hnd' Hinit Hinit'.
  rewrite eq_true_iff, dict_equal_nat_iff.
  intros (_ & _ & [Hlen HN] & _).
  destruct (init_dict_keys _ _ _ _ _ Hnd Hinit) as [Hk _].
  destruct (init_dict_keys _ _ _ _ _ Hnd' Hinit') as [Hk' _].
  rewrite <- Hk, <- Hk'.
  apply dict_part_keys; [by rewrite Hk|done|].
  apply Forall_dict_get; [by rewrite Hk|done].
Qed.

Lemma X23_eq_compares_label_names_witness :
  ∃ m m',
    __init_from_file py_hash_tuple merge_argsort two_code_file wall_slip = Ok m ∧
    __init_from_file py_hash_tuple merge_argsort two_code_file slip_wall = Ok m' ∧
    __eq__ m (VMesh m') = Ok true ∧
    dict_keys wall_slip ≡ₚ dict_keys slip_wall.
Proof.
  destruct (__init_from_file py_hash_tuple merge_argsort two_code_file wall_slip)
    as [m|e] eqn:Hinit; [|vm_compute in Hinit; discriminate Hinit].
  destruct (__init_from_file py_hash_tuple merge_argsort two_code_file slip_wall)
    as [m'|e] eqn:Hinit'; [|vm_compute in Hinit'; discriminate Hinit'].
  assert (Heq : __eq__ m (VMesh m') = Ok true).
  { vm_compute in Hinit, Hinit'. injection Hinit as <-. injection Hinit' as <-.
    vm_compute. reflexivity. }
  exists m, m'. split_and!; [reflexivity..|exact Heq|].
  refine (X23_eq_compares_label_names _ _ _ _ _ _ wall_slip slip_wall m m'
            _ _ Hinit Hinit' Heq); decide_by_computation.
Defined.

(** Two meshes built from one file with different names for the
    code 1 compare unequal. *)
Example other_label_name_is_unequal :
  ∃ m m',
    __init_from_file py_hash_tuple merge_argsort two_code_file wall_slip = Ok m ∧
    __init_from_file py_hash_tuple merge_argsort two_code_file inlet_slip = Ok m' ∧
    __eq__ m (VMesh m') = Ok false.
Proof. eexists _, _. split_and!; vm_compute; reflexivity. Qed.

(** X24. The numeric codes are not part of the mesh: replacing every
    code [c] by [g c], with [g] one-to-one, in the tags of the file
    and in the values of [BC_labels] gives the same result, be it a
    mesh or an exception. *)
Theorem X24_codes_can_be_renamed
    (hash_tuple : face → Z) (argsort : list Z → list nat)
    (g : Z → Z) (md : mesh_data) (labels : dict Z) :
  (∀ x y, g x = g y → x = y) →
  __init_from_file hash_tuple argsort (recode_file g md) (recode_labels g labels)
  = __init_from_file hash_tuple argsort md labels.
Proof.
  intros Hinj. by apply init_recode.
Qed.

Lemma X24_codes_can_be_renamed_witness :
  __init_from_file py_hash_tuple merge_argsort
    (recode_file (Z.add 10) two_code_file) (recode_labels (Z.add 10) wall_slip)
  = __init_from_file py_hash_tuple merge_argsort two_code_file wall_slip.
Proof.
  apply (X24_codes_can_be_renamed py_hash_tuple merge_argsort (Z.add 10)).
  intros x y. lia.
Defined.
End EqualityProperties.

(** ** Further properties: reflexivity of [==], and the builder over
    the store *)

Section ReflexivityAndStore.
Import Numpy Connectivity MeshStore HeapModel Examples Scenarios.

Lemma all_equal_float_diag (l : list spec_float) :
  all_equal_float l l = true ↔ Forall (λ x, x ≠ S754_nan) l.
Proof.
  split; [|apply all_equal_float_refl].
  induction l as [|x l IH]; simpl; [constructor|].
  rewrite andb_true_iff. intros [Hx Hl]. constructor; [|by apply IH].
  intros ->. discriminate Hx.
Qed.

(** X25. A constructed mesh compares equal to itself exactly when
    none of its vertex coordinates is a NaN. *)
Theorem X25_eq_reflexive_iff_no_nan
    (hash_tuple : face → Z) (argsort : list Z → list nat)
    (md : mesh_data) (labels : dict Z) (m : Mesh) :
  MeshStore.__init_from_file hash_tuple argsort md labels = Ok m →
  __eq__ m (VMesh m) = Ok true ↔
  Forall (λ x, x ≠ S754_nan) (fdata (vertices m)).
Proof.
  intros Hinit.
  destruct (init_keys _ _ _ _ _ Hinit) as [Hk Hnd].
  rewrite eq_true_iff, <- all_equal_float_diag.
  unfold array_equal_float. rewrite bool_decide_true by done. simpl.
  split; [by intros (_ & _ & _ & ? & _)|].
  intros Hfloat. split_and!; try done.
  - apply dict_equal_refl; [apply Nat.eqb_refl|done].
  - apply all_items_equal_true, all_items_equal_refl. by rewrite <- Hk.
Qed.

Lemma X25_eq_reflexive_iff_no_nan_witness :
  ∃ m,
    MeshStore.__init_from_file py_hash_tuple merge_argsort nan_tet_file one_label
      = Ok m ∧
    (__eq__ m (VMesh m) = Ok true ↔
     Forall (λ x, x ≠ S754_nan) (fdata (vertices m))).
Proof.
  destruct (MeshStore.__init_from_file py_hash_tuple merge_argsort
              nan_tet_file one_label)
    as [m|e] eqn:Hinit; [|vm_compute in Hinit; discriminate Hinit].
  exists m. split; [reflexivity|].
  exact (X25_eq_reflexive_iff_no_nan _ _ _ _ m Hinit).
Defined.

(** X26. The builder with its in-place sort and its indexed
    assignments, run on a store that holds [tets], raises exactly
    when [tets] has no row; when it returns, its two results are
    two different objects that did not exist before the call, and
    they hold the tables of the builder as a function of [tets]. *)
Theorem X26_builder_over_the_store
    (hash_tuple : face → Z) (argsort : list Z → list nat)
    (h : heap) (tets : loc) (t : list tet) :
  (∀ keys, is_argsort keys (argsort keys)) →
  h !! tets = Some (OTets t) →
  (HeapModel.__compute_element_connectivity hash_tuple argsort tets h = None ↔
   t = []) ∧
  (∀ EToE EToF h',
     HeapModel.__compute_element_connectivity hash_tuple argsort tets h
       = Some ((EToE, EToF), h') →
     EToE ≠ EToF ∧ length h ≤ EToE ∧ length h ≤ EToF ∧
     ∃ E F,
       Connectivity.__compute_element_connectivity hash_tuple argsort t
         = Some (E, F) ∧
       h' !! EToE = Some (OGrid E) ∧ h' !! EToF = Some (OGrid F)).
Proof.
  intros Hok Hl.
  pose proof (compute_element_connectivity_refines hash_tuple argsort h tets t Hl)
    as Href.
  destruct (Connectivity.__compute_element_connectivity hash_tuple argsort t)
    as [[E F]|] eqn:Hpure.
  - destruct Href as (ext & Hrun & HE & HF).
    assert (Hne : t ≠ []).
    { intros ->. by rewrite compute_element_connectivity_nil in Hpure. }
    split; [split; [intros Hnone; congruence|done]|].
    intros EToE EToF h' Hrun'. rewrite Hrun in Hrun'.
    injection Hrun' as <- <- <-.
    split_and!; [lia|lia|lia|].
    exists E, F. split_and!; [done|by apply lookup_fresh..].
  - assert (t = []) as ->.
    { destruct t as [|x t]; [done|].
      destruct (compute_element_connectivity_returns hash_tuple argsort Hok
                  (x :: t)) as [r Hr]; [done|congruence]. }
    split; [done|]. intros EToE EToF h' Hrun'. congruence.
Qed.

Lemma X26_builder_over_the_store_witness :
  (HeapModel.__compute_element_connectivity py_hash_tuple merge_argsort 0
     [OTets two_tets] = None ↔ two_tets = []) ∧
  (∀ EToE EToF h',
     HeapModel.__compute_element_connectivity py_hash_tuple merge_argsort 0
       [OTets two_tets] = Some ((EToE, EToF), h') →
     EToE ≠ EToF ∧ length [OTets two_tets] ≤ EToE ∧
     length [OTets two_tets] ≤ EToF ∧
     ∃ E F,
       Connectivity.__compute_element_connectivity py_hash_tuple merge_argsort
         two_tets = Some (E, F) ∧
       h' !! EToE = Some (OGrid E) ∧ h' !! EToF = Some (OGrid F)).
Proof.
  apply (X26_builder_over_the_store py_hash_tuple merge_argsort
           [OTets two_tets] 0 two_tets merge_argsort_ok).
  reflexivity.
Defined.
End ReflexivityAndStore.
